(** * Reliability control plane of the daily-commit Lambda

    A shallow embedding of the retry executor ([retry.ts]), the secrets
    cache ([secretsCache.ts]), the metrics batcher
    ([monitoringOptimized.ts]), the invocation cleanup ([lambdaCleanup.ts])
    and the rate limiter ([validation.ts]), with the properties the
    specification states about them.

    Conventions of the embedding:
    - JavaScript numbers that the code uses as counters and timestamps
      are integers ([Z]); the backoff arithmetic of [calculateDelay] is
      carried out on binary64 floating-point numbers, with the rounding
      of IEEE 754 as the standard library specifies it ([SpecFloat]);
      [Math.pow], which ECMAScript leaves implementation-approximated, is
      a parameter; the two quotients in the metrics command (success rate
      and average duration) are kept as rationals ([Q]), and no property
      below speaks of their value;
    - every reading of [Date.now()] / [new Date()] and every answer of an
      external collaborator (Secrets Manager, CloudWatch, the git binary,
      the wrapped operation of [withRetry]) is an explicit argument;
    - arrays live in a store and are named by references, so that the two
      names of the metrics batch (the module variable and the property of
      [global]) can alias or drift apart as they do in the source;
    - a function that can throw returns a sum: [inl] for a normal
      completion, [inr] for the thrown value. *)

From Stdlib Require Import ZArith QArith Qround Qminmax Qpower Lia SpecFloat.
From stdpp Require Import gmap strings list fin_maps pretty.

(** ** JavaScript values that the code inspects dynamically *)

Module JS.

(** What a rejected promise or a [throw] can carry, as far as the code
    looks at it: an [Error] object (its [name], [message] and the optional
    [code] that Node and the AWS SDK attach), a bare string, or
    [undefined]. *)
Inductive thrown :=
  | ErrorObject (name message : string) (code : option string)
  | ThrownString (s : string)
  | ThrownUndefined.

(** [new Error(msg)] *)
Definition newError (msg : string) : thrown := ErrorObject "Error" msg None.

Definition nonEmpty (s : string) : bool :=
  match s with EmptyString => false | String _ _ => true end.

(** Truthiness of a thrown value ([!error] is its negation). *)
Definition truthy (e : thrown) : bool :=
  match e with
  | ErrorObject _ _ _ => true
  | ThrownString s => nonEmpty s
  | ThrownUndefined => false
  end.

(** [error instanceof Error] *)
Definition instanceofError (e : thrown) : bool :=
  match e with ErrorObject _ _ _ => true | _ => false end.

(** [Error.prototype.toString], and [toString] of a string. *)
Definition toString (e : thrown) : string :=
  match e with
  | ErrorObject n m _ =>
      if nonEmpty n then (if nonEmpty m then n +:+ ": " +:+ m else n) else m
  | ThrownString s => s
  | ThrownUndefined => "undefined"
  end.

(** [error.message || error.toString()] for a truthy [error], and likewise
    the text that a template literal makes of [e?.message || e]. *)
Definition messageOrString (e : thrown) : string :=
  match e with
  | ErrorObject _ m _ => if nonEmpty m then m else toString e
  | _ => toString e
  end.

(** [error.code || error.name]; [None] is [undefined]. *)
Definition codeOrName (e : thrown) : option string :=
  match e with
  | ErrorObject n _ (Some c) => if nonEmpty c then Some c else Some n
  | ErrorObject n _ None => Some n
  | _ => None
  end.

(** [error instanceof Error ? error.message : 'Unknown error'] *)
Definition messageOrUnknown (e : thrown) : string :=
  match e with
  | ErrorObject _ m _ => m
  | _ => "Unknown error"
  end.

(** [String.prototype.includes] *)
Fixpoint includes (s sub : string) : bool :=
  if String.prefix sub s then true
  else match s with
       | EmptyString => false
       | String _ rest => includes rest sub
       end.

(** [a === b] where [a] may be [undefined] and [b] is a string. *)
Definition strictEq (a : option string) (b : string) : bool :=
  match a with
  | Some x => bool_decide (x = b)
  | None => false
  end.

(** What an awaited promise settles to. *)
Inductive settled (T : Type) :=
  | Resolved (v : T)
  | Rejected (e : thrown).
Arguments Resolved {T} v.
Arguments Rejected {T} e.

(** *** Numbers

    A JavaScript number is an IEEE 754 binary64 value: precision 53,
    infinities at exponent 1024. Products, sums and quotients are rounded
    to nearest, ties to even. *)

Definition number : Type := spec_float.
Definition prec : Z := 53.
Definition emax : Z := 1024.

(** The number that a whole number denotes (exactly, below [2^53]). *)
Definition ofZ (z : Z) : number := binary_normalize prec emax z 0 false.

(** [x * y], [x + y] and [x / y] *)
Definition mul (x y : number) : number := SFmul prec emax x y.
Definition add (x y : number) : number := SFadd prec emax x y.
Definition div (x y : number) : number := SFdiv prec emax x y.

(** The number [x / 2^k] for a whole number [x]: [x] with its binary
    point moved [k] places to the left. *)
Definition scaled (x k : Z) : number := SFldexp prec emax (ofZ x) (- k).

(** The literal [0.5] *)
Definition half : number := S754_finite false 4503599627370496 (-53).

(** [x < y] *)
Definition lessThan (x y : number) : bool := SFltb x y.

(** [Math.min(x, y)]: [NaN] if either argument is, and [-0] is below
    [+0]. *)
Definition Math_min (x y : number) : number :=
  match x, y with
  | S754_nan, _ | _, S754_nan => S754_nan
  | S754_zero sx, S754_zero sy => S754_zero (sx || sy)
  | _, _ => if lessThan y x then y else x
  end.

(** [Math.floor(x)]: a number with a fractional part has a negative
    exponent and fewer than 53 bits before the binary point. *)
Definition Math_floor (x : number) : number :=
  match x with
  | S754_finite s m e =>
      if (0 <=? e)%Z then x
      else ofZ (Z.shiftr (cond_Zopp s (Zpos m)) (- e))
  | _ => x
  end.

(** [p] followed by [n] zero bits: the mantissa [p * 2^n]. *)
Definition shifted (n : nat) (p : positive) : positive := Nat.iter n xO p.

(** The real number that a finite number stands for (0 for the others). *)
Definition value (x : number) : Q :=
  match x with
  | S754_finite s m e => (inject_Z (cond_Zopp s (Zpos m)) * 2 ^ e)%Q
  | _ => 0%Q
  end.

End JS.

(** ** config.ts *)

Module Config.

Inductive LogLevel := INFO | WARN | ERROR.

Record LambdaConfig := {
  cacheTTL : Z;
  metricsBatchSize : Z;
  logLevel : LogLevel;
  gitTimeout : Z;
  maxRetries : Z;
  baseDelayMs : Z;
  maxDelayMs : Z;
}.

(** [getConfig()]; [isProduction] is [process.env.NODE_ENV === 'production']. *)
Definition getConfig (isProduction : bool) : LambdaConfig :=
  {| cacheTTL := if isProduction then 300000 else 60000;
     metricsBatchSize := if isProduction then 10 else 1;
     logLevel := if isProduction then ERROR else INFO;
     gitTimeout := if isProduction then 30000 else 10000;
     maxRetries := if isProduction then 3 else 2;
     baseDelayMs := if isProduction then 2000 else 1000;
     maxDelayMs := if isProduction then 10000 else 5000 |}%Z.

(** The environment variables that config.ts reads; [None] is an unset
    variable. *)
Record Env := {
  NODE_ENV : option string;
  SECRET_NAME : option string;
  AWS_REGION : option string;
  AWS_LAMBDA_FUNCTION_NAME : option string;
  LOG_LEVEL : option string;
}.

(** Truthiness of [process.env.X]. *)
Definition isSet (v : option string) : bool :=
  match v with
  | Some (String _ _) => true
  | _ => false
  end.

(** [process.env.X || fallback] *)
Definition orElse (v : option string) (fallback : string) : string :=
  match v with
  | Some (String a rest) => String a rest
  | _ => fallback
  end.

(** [getEnvironment()] and [isProduction()] *)
Definition getEnvironment (env : Env) : string :=
  orElse (NODE_ENV env) "development".

Definition isProduction (env : Env) : bool :=
  bool_decide (getEnvironment env = "production").

(** [validateEnvironment()]: [valid], [missing] and [warnings]. *)
Definition validateEnvironment (env : Env) : bool * list string * list string :=
  let missing := [] in
  let missing :=
    if bool_decide (NODE_ENV env = Some "production") then
      let missing :=
        if negb (isSet (SECRET_NAME env)) then missing ++ ["SECRET_NAME"]
        else missing in
      if negb (isSet (AWS_REGION env)) then missing ++ ["AWS_REGION"]
      else missing
    else missing in
  let warnings :=
    if negb (isSet (AWS_LAMBDA_FUNCTION_NAME env)) then
      ["AWS_LAMBDA_FUNCTION_NAME not set (will use default)"]
    else [] in
  ((length missing =? 0)%nat, missing, warnings).

End Config.

(** ** retry.ts *)

Module Retry.
Import JS.

Record RetryConfig := {
  maxAttempts : Z;
  baseDelayMs : number;
  maxDelayMs : number;
  backoffMultiplier : number;
  jitter : bool;
}.

Definition DEFAULT_RETRY_CONFIG (isProduction : bool) : RetryConfig :=
  let config := Config.getConfig isProduction in
  {| maxAttempts := Config.maxRetries config;
     baseDelayMs := ofZ (Config.baseDelayMs config);
     maxDelayMs := ofZ (Config.maxDelayMs config);
     backoffMultiplier := ofZ 2;
     jitter := true |}.

(** [RETRY_CONFIGS.git], [.secrets] and [.file] *)
Definition RETRY_CONFIGS_git (isProduction : bool) : RetryConfig :=
  let d := DEFAULT_RETRY_CONFIG isProduction in
  {| maxAttempts := 3; baseDelayMs := ofZ 2000; maxDelayMs := maxDelayMs d;
     backoffMultiplier := backoffMultiplier d; jitter := jitter d |}.

Definition RETRY_CONFIGS_secrets (isProduction : bool) : RetryConfig :=
  let d := DEFAULT_RETRY_CONFIG isProduction in
  {| maxAttempts := 2; baseDelayMs := ofZ 1000; maxDelayMs := maxDelayMs d;
     backoffMultiplier := backoffMultiplier d; jitter := jitter d |}.

Definition RETRY_CONFIGS_file (isProduction : bool) : RetryConfig :=
  let d := DEFAULT_RETRY_CONFIG isProduction in
  {| maxAttempts := 1; baseDelayMs := baseDelayMs d; maxDelayMs := maxDelayMs d;
     backoffMultiplier := backoffMultiplier d; jitter := jitter d |}.

Definition RETRYABLE_ERRORS : list string :=
  [ "ECONNRESET"; "ENOTFOUND"; "ECONNREFUSED"; "ETIMEDOUT"; "ENETUNREACH";
    "ThrottlingException"; "ServiceUnavailableException";
    "TooManyRequestsException" ].

Definition isRetryableError (error : thrown) : bool :=
  if negb (truthy error) then false
  else
    let errorMessage := messageOrString error in
    let errorCode := codeOrName error in
    existsb
      (fun retryableError =>
         includes errorMessage retryableError
         || strictEq errorCode retryableError)
      RETRYABLE_ERRORS.

(** [calculateDelay(attempt, config)]; [Math_pow] is the engine's
    [Math.pow], which ECMAScript leaves implementation-approximated, and
    [random] is the value that [Math.random()] returns if it is called. *)
Definition calculateDelay (Math_pow : number -> number -> number)
    (attempt : number) (config : RetryConfig) (random : number) : number :=
  let delay :=
    mul (baseDelayMs config) (Math_pow (backoffMultiplier config) attempt) in
  let delay := Math_min delay (maxDelayMs config) in
  let delay :=
    if jitter config then mul delay (add half (mul random half)) else delay in
  Math_floor delay.

(** The delay without jitter as the specification words it, over the
    rationals: [min (baseDelay * backoffMultiplier ^ attempt) maxDelay],
    floored. *)
Definition specifiedDelay (attempt : Z)
    (baseDelay backoffMultiplier maxDelay : Q) : Z :=
  Qfloor (Qmin (baseDelay * backoffMultiplier ^ attempt) maxDelay).

(** The message of the [Error] that [withRetry] throws after its loop:
    [`${context} - Failed after ${config.maxAttempts} attempts. Last error:
    ${lastError?.message || lastError}`]. *)
Definition lastErrorText (lastError : option thrown) : string :=
  match lastError with
  | Some e => messageOrString e
  | None => "undefined"
  end.

Definition failureMessage (context : string) (attempts : Z)
    (lastError : option thrown) : string :=
  context +:+ " - Failed after " +:+ pretty attempts
          +:+ " attempts. Last error: " +:+ lastErrorText lastError.

(** One run of [withRetry]: how it settles, how many times [fn] was
    invoked, and the delays it slept, in order. *)
Record run (T : Type) := {
  outcome : settled T;
  invocations : nat;
  sleeps : list number;
}.
Arguments outcome {T} r.
Arguments invocations {T} r.
Arguments sleeps {T} r.

Section WithRetry.
Context {T : Type}.
(** [Math_pow] is the engine's [Math.pow]; [fn k] is how the [k]-th
    invocation of the wrapped operation settles (counting from 0);
    [random k] is the value of [Math.random()] drawn after the [k]-th
    invocation. *)
Variable Math_pow : number -> number -> number.
Variable fn : nat -> settled T.
Variable random : nat -> number.
Variable config : RetryConfig.
Variable context : string.

(** The [throw new Error(...)] after the loop. *)
Definition throwAfterLoop (lastError : option thrown) (calls : nat)
    (slept : list number) : run T :=
  {| outcome :=
       Rejected (newError (failureMessage context (maxAttempts config) lastError));
     invocations := calls;
     sleeps := slept |}.

(** The [for] loop from [attempt] on; [fuel] bounds the iterations, [None]
    means the bound was too small ([loop_total] below: it never is). *)
Fixpoint loop (fuel : nat) (attempt : Z) (lastError : option thrown)
    (calls : nat) (slept : list number) : option (run T) :=
  if (attempt <? maxAttempts config)%Z then
    match fuel with
    | O => None
    | S fuel' =>
        match fn calls with
        | Resolved result =>
            Some {| outcome := Resolved result;
                    invocations := S calls;
                    sleeps := slept |}
        | Rejected error =>
            let lastError := Some error in
            if (attempt =? maxAttempts config - 1)%Z then
              Some (throwAfterLoop lastError (S calls) slept)
            else if negb (isRetryableError error) then
              Some (throwAfterLoop lastError (S calls) slept)
            else
              let delay :=
                calculateDelay Math_pow (ofZ attempt) config (random calls) in
              loop fuel' (attempt + 1)%Z lastError (S calls)
                   (slept ++ [delay])
        end
    end
  else Some (throwAfterLoop lastError calls slept).

(** [withRetry(fn, config, context)] *)
Definition withRetry : option (run T) :=
  loop (Z.to_nat (maxAttempts config)) 0%Z None 0%nat [].

End WithRetry.

(** The delays slept after the invocations [first], ..., [first + n - 1]. *)
Definition schedule (Math_pow : number -> number -> number)
    (config : RetryConfig) (random : nat -> number)
    (first n : nat) : list number :=
  map (fun i => calculateDelay Math_pow (ofZ (Z.of_nat i)) config (random i))
      (seq first n).

End Retry.

(** ** State and exceptions

    Code that mutates module-level state and can throw is written in a
    state-and-exception monad: a computation takes the state and returns
    either a value or the thrown value, with the state it left behind. *)

Module Eff.
Import JS.

Definition M (S A : Type) : Type := S -> (A + thrown) * S.

Definition ret {S A} (a : A) : M S A := fun s => (inl a, s).

Definition bind {S A B} (m : M S A) (k : A -> M S B) : M S B :=
  fun s =>
    match m s with
    | (inl a, s') => k a s'
    | (inr e, s') => (inr e, s')
    end.

Definition throw {S A} (e : thrown) : M S A := fun s => (inr e, s).

(** [try { body } catch (error) { handler }] *)
Definition tryCatch {S A} (body : M S A) (handler : thrown -> M S A) : M S A :=
  fun s =>
    match body s with
    | (inl a, s') => (inl a, s')
    | (inr e, s') => handler e s'
    end.

Definition gets {S A} (f : S -> A) : M S A := fun s => (inl (f s), s).
Definition modify {S} (f : S -> S) : M S unit := fun s => (inl tt, f s).

(** Run a computation on a component of a larger state. *)
Definition zoom {S1 S2 A} (proj : S2 -> S1) (upd : S1 -> S2 -> S2)
    (m : M S1 A) : M S2 A :=
  fun s => let '(r, s1) := m (proj s) in (r, upd s1 s).

(** An awaited promise: its rejection is thrown. *)
Definition await {S A} (p : settled A) : M S A :=
  match p with
  | Resolved v => ret v
  | Rejected e => throw e
  end.

Declare Scope eff_scope.
Delimit Scope eff_scope with eff.
Notation "'let*' x := m 'in' k" := (bind m (fun x => k))
  (at level 10, x name, m at level 100, k at level 200) : eff_scope.
Notation "m >> k" := (bind m (fun _ => k))
  (at level 100, k at level 200, right associativity) : eff_scope.

End Eff.

(** ** secretsCache.ts *)

Module SecretsCache.
Import JS Eff.
Local Open Scope eff_scope.

(** A value produced by [JSON.parse]. An object is its list of own
    properties, each key once. *)
#[warnings="-register-all"]
Inductive json :=
  | JNull
  | JBool (b : bool)
  | JNumber (n : Z)
  | JString (s : string)
  | JArray (items : list json)
  | JObject (fields : list (string * json)).

(** Truthiness of [v[field]]; [None] is [undefined]. *)
Definition truthyValue (v : option json) : bool :=
  match v with
  | None | Some JNull => false
  | Some (JBool b) => b
  | Some (JNumber n) => negb (n =? 0)%Z
  | Some (JString s) => nonEmpty s
  | Some (JArray _) | Some (JObject _) => true
  end.

Fixpoint assoc (fields : list (string * json)) (k : string) : option json :=
  match fields with
  | [] => None
  | (k', v) :: rest => if bool_decide (k' = k) then Some v else assoc rest k
  end.

(** [secrets[field]] for the property names that the code reads (the four
    required fields): reading a property of [null] throws a [TypeError],
    an object yields its own property, every other value yields
    [undefined]. *)
Definition getProperty (secrets : json) (field : string)
  : option json + thrown :=
  match secrets with
  | JNull =>
      inr (ErrorObject "TypeError"
             ("Cannot read properties of null (reading '" +:+ field +:+ "')")
             None)
  | JObject fields => inl (assoc fields field)
  | _ => inl None
  end.

Record CachedSecret := {
  data : json;
  timestamp : Z;
  ttl : Z;
}.

(** The module state: the [secretsCache] map, and the [SecretId]s of the
    [GetSecretValueCommand]s passed to [secretsClient.send] so far. *)
Record state := {
  secretsCache : gmap string CachedSecret;
  sent : list string;
}.

Definition emptyState : state := {| secretsCache := ∅; sent := [] |}.

Definition DEFAULT_TTL (isProduction : bool) : Z :=
  Config.cacheTTL (Config.getConfig isProduction).

Definition requiredFields : list string :=
  [ "gitUserEmail"; "gitUserName"; "githubToken"; "repositoryUrl" ].

(** [for (const field of requiredFields) { if (!secrets[field]) throw ... }] *)
Fixpoint validateFields (secrets : json) (fields : list string)
  : M state unit :=
  match fields with
  | [] => ret tt
  | field :: rest =>
      match getProperty secrets field with
      | inr e => throw e
      | inl v =>
          if negb (truthyValue v) then
            throw (newError ("Missing required secret field: " +:+ field))
          else validateFields secrets rest
      end
  end.

Section GetCachedSecrets.
  (** [send k id] is how [secretsClient.send] settles on its [k]-th call
      (counting from 0) for secret [id], the resolved value being
      [response.SecretString] ([None] for [undefined]); [JSON_parse] is
      [JSON.parse]. *)
Variable send : nat -> string -> settled (option string).
Variable JSON_parse : string -> json + thrown.
Variable isProduction : bool.

Definition secretsClient_send (secretName : string)
    : M state (option string) :=
    fun s =>
      await (send (length (sent s)) secretName)
        {| secretsCache := secretsCache s; sent := sent s ++ [secretName] |}.

  (** The [try { ... } catch] part of [getCachedSecrets]: fetch, validate,
    store, and re-throw any failure under a common prefix. *)
Definition fetchFresh (now : Z) (secretName : string) (ttl : Z)
  : M state json :=
  tryCatch
    (let* SecretString := secretsClient_send secretName in
     match SecretString with
     | None | Some EmptyString =>
         throw (newError "Secret value is empty or not found")
     | Some text =>
         match JSON_parse text with
         | inr e => throw e
         | inl secrets =>
             validateFields secrets requiredFields >>
             modify (fun s =>
               {| secretsCache :=
                    <[secretName :=
                       {| data := secrets; timestamp := now; ttl := ttl |}]>
                      (secretsCache s);
                  sent := sent s |}) >>
             ret secrets
         end
     end)
    (fun error =>
       throw (newError ("Failed to retrieve secrets: "
                        +:+ messageOrUnknown error))).

(** [getCachedSecrets(secretName, ttl)]; [now] is the value of
    [Date.now()] on entry, [ttl = None] is an omitted argument. *)
Definition getCachedSecrets (now : Z) (secretName : string)
    (ttl : option Z) : M state json :=
  let ttl := default (DEFAULT_TTL isProduction) ttl in
  let* cached := gets (fun s => secretsCache s !! secretName) in
  match cached with
  | Some c =>
      if (now - timestamp c <? SecretsCache.ttl c)%Z then ret (data c)
      else fetchFresh now secretName ttl
  | None => fetchFresh now secretName ttl
  end.

End GetCachedSecrets.

(** How a call that went to the store and failed with [msg] ends: the
    re-thrown error, the cache as it was, one more request on record. *)
Definition failedFetch (secretName msg : string) (s : state)
  : (json + thrown) * state :=
  (inr (newError ("Failed to retrieve secrets: " +:+ msg)),
   {| secretsCache := secretsCache s; sent := sent s ++ [secretName] |}).

(** [clearSecretsCache(secretName?)] *)
Definition clearSecretsCache (secretName : option string) : M state unit :=
  match secretName with
  | Some (String a rest) =>
      modify (fun s => {| secretsCache := delete (String a rest) (secretsCache s);
                          sent := sent s |})
  | _ => modify (fun s => {| secretsCache := ∅; sent := sent s |})
  end.

(** [getCacheStats()] *)
Definition getCacheStats (s : state) : nat * list string :=
  (size (secretsCache s), (map_to_list (secretsCache s)).*1).

(** [GitConfig] of types.ts, each field holding what the property read
    yields ([None]: [undefined]). *)
Record GitConfig := {
  userEmail : option json;
  userName : option json;
  token : option json;
  repositoryUrl : option json;
}.

(** [secretsToGitConfig(secrets)] *)
Definition secretsToGitConfig (secrets : json) : M state GitConfig :=
  match getProperty secrets "gitUserEmail",
        getProperty secrets "gitUserName",
        getProperty secrets "githubToken",
        getProperty secrets "repositoryUrl" with
  | inl email, inl name, inl tok, inl url =>
      ret {| userEmail := email; userName := name;
             token := tok; repositoryUrl := url |}
  | inr e, _, _, _ | _, inr e, _, _ | _, _, inr e, _ | _, _, _, inr e => throw e
  end.

(** [getCachedGitConfig(secretName, ttl)] *)
Definition getCachedGitConfig
    (send : nat -> string -> settled (option string))
    (JSON_parse : string -> json + thrown) (isProduction : bool)
    (now : Z) (secretName : string) (ttl : option Z) : M state GitConfig :=
  let ttl := default (DEFAULT_TTL isProduction) ttl in
  let* secrets :=
    getCachedSecrets send JSON_parse isProduction now secretName (Some ttl) in
  secretsToGitConfig secrets.

(** A value in which every required field is present and truthy. *)
Definition hasRequiredFields (v : json) : bool :=
  forallb
    (fun field =>
       match getProperty v field with
       | inl x => truthyValue x
       | inr _ => false
       end)
    requiredFields.

(** Every cached bundle is complete. *)
Definition complete (s : state) : Prop :=
  map_Forall (fun _ c => hasRequiredFields (data c) = true) (secretsCache s).

End SecretsCache.

(** ** monitoringOptimized.ts *)

Module Monitoring.
Import JS Eff.
Local Open Scope eff_scope.

Record OptimizedMetrics := {
  executionDuration : Z;
  success : bool;
  errorCount : Z;
  retryCount : Z;
}.

Inductive StandardUnit := Count | Percent | Milliseconds.

Record MetricDatum := {
  MetricName : string;
  Value : Q;
  Unit : StandardUnit;
  Timestamp : Z;
}.

Record PutMetricDataCommand := {
  Namespace : string;
  MetricData : list MetricDatum;
}.

Record AggregatedMetrics := {
  totalExecutions : Z;
  successfulExecutions : Z;
  failedExecutions : Z;
  averageDuration : Q;
  totalErrors : Z;
  totalRetries : Z;
}.

(** The module state. Arrays are objects: [arrays] is the store, and the
    module variable [metricsCache] and the property [global.metricsCache]
    each hold a reference into it ([None]: the property is not set).
    [sentCommands] lists the commands passed to [cloudWatchClient.send]. *)
Record state := {
  arrays : gmap nat (list OptimizedMetrics);
  metricsCache : nat;
  globalMetricsCache : option nat;
  lastMetricsSend : Z;
  sentCommands : list PutMetricDataCommand;
}.

(** The state right after the module is loaded: one empty array, named by
    both the module variable and [global.metricsCache]. *)
Definition initialState : state :=
  {| arrays := {[ 0%nat := [] ]};
     metricsCache := 0%nat;
     globalMetricsCache := Some 0%nat;
     lastMetricsSend := 0;
     sentCommands := [] |}.

(** The contents of the array that a reference names. *)
Definition deref (s : state) (r : nat) : list OptimizedMetrics :=
  default [] (arrays s !! r).

(** The batch that [sendOptimizedMetrics] and [sendBatchedMetrics] work on. *)
Definition batch (s : state) : list OptimizedMetrics :=
  deref s (metricsCache s).

(** [metricsCache.push(metrics)]: the array object is updated in place. *)
Definition push (metrics : OptimizedMetrics) (s : state) : state :=
  {| arrays := <[metricsCache s := batch s ++ [metrics]]> (arrays s);
     metricsCache := metricsCache s;
     globalMetricsCache := globalMetricsCache s;
     lastMetricsSend := lastMetricsSend s;
     sentCommands := sentCommands s |}.

(** [metricsCache = []]: a new array object, and the module variable now
    names it; the array it named before is left as it was. *)
Definition assignEmptyToMetricsCache (s : state) : state :=
  let r := fresh (dom (arrays s)) in
  {| arrays := <[r := []]> (arrays s);
     metricsCache := r;
     globalMetricsCache := globalMetricsCache s;
     lastMetricsSend := lastMetricsSend s;
     sentCommands := sentCommands s |}.

(** [(global as any).metricsCache = []]: a new array object, named by the
    property of [global] only. *)
Definition assignEmptyToGlobal (s : state) : state :=
  let r := fresh (dom (arrays s)) in
  {| arrays := <[r := []]> (arrays s);
     metricsCache := metricsCache s;
     globalMetricsCache := Some r;
     lastMetricsSend := lastMetricsSend s;
     sentCommands := sentCommands s |}.

Definition setLastMetricsSend (t : Z) (s : state) : state :=
  {| arrays := arrays s;
     metricsCache := metricsCache s;
     globalMetricsCache := globalMetricsCache s;
     lastMetricsSend := t;
     sentCommands := sentCommands s |}.

Definition sumBy (f : OptimizedMetrics -> Z) (l : list OptimizedMetrics) : Z :=
  fold_left (fun sum m => sum + f m)%Z l 0%Z.

Definition aggregate (cache : list OptimizedMetrics) : AggregatedMetrics :=
  {| totalExecutions := Z.of_nat (length cache);
     successfulExecutions :=
       Z.of_nat (length (List.filter (fun m => success m) cache));
     failedExecutions :=
       Z.of_nat (length (List.filter (fun m => negb (success m)) cache));
     averageDuration :=
       (inject_Z (sumBy executionDuration cache)
        / inject_Z (Z.of_nat (length cache)))%Q;
     totalErrors := sumBy errorCount cache;
     totalRetries := sumBy retryCount cache |}.

Definition metricData (a : AggregatedMetrics) (timestamp : Z)
  : list MetricDatum :=
  [ {| MetricName := "TotalExecutions";
       Value := inject_Z (totalExecutions a);
       Unit := Count; Timestamp := timestamp |};
    {| MetricName := "SuccessRate";
       Value := (inject_Z (successfulExecutions a)
                 / inject_Z (totalExecutions a))%Q;
       Unit := Percent; Timestamp := timestamp |};
    {| MetricName := "AverageExecutionDuration";
       Value := averageDuration a;
       Unit := Milliseconds; Timestamp := timestamp |};
    {| MetricName := "TotalErrors";
       Value := inject_Z (totalErrors a);
       Unit := Count; Timestamp := timestamp |};
    {| MetricName := "TotalRetries";
       Value := inject_Z (totalRetries a);
       Unit := Count; Timestamp := timestamp |} ].

(** The command that [sendBatchedMetrics] builds for a batch. *)
Definition putMetricDataCommand (functionName : string)
    (cache : list OptimizedMetrics) (timestamp : Z) : PutMetricDataCommand :=
  let aggregatedMetrics := aggregate cache in
  {| Namespace := "Lambda/" +:+ functionName;
     MetricData := metricData aggregatedMetrics timestamp |}.

Definition METRICS_BATCH_TIMEOUT : Z := 300000.

Section Batching.
(** [config] is what [getConfig()] returned when the module was loaded;
    [send k command] is how [cloudWatchClient.send] settles on its [k]-th
    call (counting from 0). *)
Variable config : Config.LambdaConfig.
Variable send : nat -> PutMetricDataCommand -> settled unit.

Definition METRICS_BATCH_SIZE : Z := Config.metricsBatchSize config.

Definition cloudWatchClient_send (command : PutMetricDataCommand)
  : M state unit :=
  fun s =>
    await (send (length (sentCommands s)) command)
      {| arrays := arrays s;
         metricsCache := metricsCache s;
         globalMetricsCache := globalMetricsCache s;
         lastMetricsSend := lastMetricsSend s;
         sentCommands := sentCommands s ++ [command] |}.

(** [sendBatchedMetrics(functionName)]; [timestamp] is the value of
    [new Date()] and [sentAt] the value of [Date.now()] read after a
    successful transmission. *)
Definition sendBatchedMetrics (timestamp sentAt : Z) (functionName : string)
  : M state unit :=
  let* cache := gets batch in
  if (length cache =? 0)%nat then ret tt
  else
    tryCatch
      (let command := putMetricDataCommand functionName cache timestamp in
       cloudWatchClient_send command >>
       modify assignEmptyToMetricsCache >>
       modify (setLastMetricsSend sentAt))
      (fun error => modify assignEmptyToMetricsCache).

(** [sendOptimizedMetrics(metrics, functionName)]; [now] is the value of
    [Date.now()] read after the push, [functionName = None] is an omitted
    (or [undefined]) argument. *)
Definition sendOptimizedMetrics (now timestamp sentAt : Z)
    (metrics : OptimizedMetrics) (functionName : option string)
  : M state unit :=
  let functionName := default "daily-commit" functionName in
  tryCatch
    (modify (push metrics) >>
     let* cache := gets batch in
     let* last := gets lastMetricsSend in
     let shouldSend :=
       (METRICS_BATCH_SIZE <=? Z.of_nat (length cache))%Z
       || (METRICS_BATCH_TIMEOUT <? now - last)%Z in
     if shouldSend then sendBatchedMetrics timestamp sentAt functionName
     else ret tt)
    (fun error => ret tt).

End Batching.

(** The position of a level in the order INFO, WARN, ERROR. *)
Definition levelRank (level : Config.LogLevel) : nat :=
  match level with
  | Config.INFO => 0
  | Config.WARN => 1
  | Config.ERROR => 2
  end.

Definition isLevel (a b : Config.LogLevel) : bool :=
  match a, b with
  | Config.INFO, Config.INFO | Config.WARN, Config.WARN
  | Config.ERROR, Config.ERROR => true
  | _, _ => false
  end.

(** [shouldLog] of [logOptimized(level, message, context)], for the level
    that [getConfig()] configures. *)
Definition shouldLog (config : Config.LambdaConfig) (level : Config.LogLevel)
  : bool :=
  isLevel (Config.logLevel config) Config.INFO
  || (isLevel (Config.logLevel config) Config.WARN
      && (isLevel level Config.WARN || isLevel level Config.ERROR))
  || (isLevel (Config.logLevel config) Config.ERROR
      && isLevel level Config.ERROR).

End Monitoring.

(** ** gitNative.ts (the part that the cleanup uses) and lambdaCleanup.ts *)

Module LambdaCleanup.
Import JS Eff.
Local Open Scope eff_scope.

(** Everything the cleanup touches: the state of the two modules above
    and the commands handed to the shell so far. *)
Record world := {
  secrets : SecretsCache.state;
  monitoring : Monitoring.state;
  executed : list string;
}.

Definition withSecrets (s : SecretsCache.state) (w : world) : world :=
  {| secrets := s; monitoring := monitoring w; executed := executed w |}.

Definition withMonitoring (s : Monitoring.state) (w : world) : world :=
  {| secrets := secrets w; monitoring := s; executed := executed w |}.

Definition isWhiteSpace (c : Ascii.ascii) : bool :=
  let n := Ascii.nat_of_ascii c in
  ((9 <=? n) && (n <=? 13))%nat || (n =? 32)%nat.

Fixpoint trimStart (s : string) : string :=
  match s with
  | String c rest => if isWhiteSpace c then trimStart rest else s
  | EmptyString => EmptyString
  end.

Fixpoint trimEnd (s : string) : string :=
  match s with
  | String c rest =>
      match trimEnd rest with
      | EmptyString => if isWhiteSpace c then EmptyString else String c EmptyString
      | rest' => String c rest'
      end
  | EmptyString => EmptyString
  end.

(** [String.prototype.trim], on ASCII white space. *)
Definition trim (s : string) : string := trimEnd (trimStart s).

Section Cleanup.
(** [execAsync k command] is how the [k]-th shell command (counting from
    0) settles, a resolved value being the pair of [stdout] and [stderr];
    [cloudWatch] is as in [Monitoring]. *)
Variable execAsync : nat -> string -> settled (string * string).
Variable cloudWatch : nat -> Monitoring.PutMetricDataCommand -> settled unit.

Definition execAsync_call (command : string) : M world (string * string) :=
  fun w =>
    await (execAsync (length (executed w)) command)
      {| secrets := secrets w;
         monitoring := monitoring w;
         executed := executed w ++ [command] |}.

(** [executeGitCommand(command)] *)
Definition executeGitCommand (command : string) : M world string :=
  tryCatch
    (let* out := execAsync_call command in
     let '(stdout, stderr) := out in
     if nonEmpty stderr && negb (includes stderr "warning:") then
       throw (newError ("Git command failed: " +:+ stderr))
     else ret (trim stdout))
    (fun error =>
       throw (newError ("Git command '" +:+ command +:+ "' failed: "
                        +:+ messageOrUnknown error))).

(** [resetGitState()] *)
Definition resetGitState : M world unit :=
  tryCatch
    (let* isRepository :=
       tryCatch (executeGitCommand "git rev-parse --git-dir" >> ret true)
                (fun _ => ret false) in
     if negb isRepository then ret tt
     else
       tryCatch (executeGitCommand "git reset --hard HEAD" >> ret tt)
                (fun error => ret tt) >>
       tryCatch (executeGitCommand "git clean -fd" >> ret tt)
                (fun error => ret tt))
    (fun error => ret tt).

(** [cleanupLambdaState()] *)
Definition cleanupLambdaState : M world unit :=
  tryCatch
    (zoom secrets withSecrets (SecretsCache.clearSecretsCache None) >>
     let* exposed := gets (fun w => Monitoring.globalMetricsCache (monitoring w)) in
     match exposed with
     | Some _ =>
         modify (fun w => withMonitoring
                            (Monitoring.assignEmptyToGlobal (monitoring w)) w)
     | None => ret tt
     end >>
     resetGitState)
    (fun error => ret tt).

(** [forceSendMetrics()]; [functionName] is
    [process.env.AWS_LAMBDA_FUNCTION_NAME], [None] if unset. *)
Definition forceSendMetrics (timestamp sentAt : Z)
    (functionName : option string) : M world unit :=
  tryCatch
    (let* exposed := gets (fun w => Monitoring.globalMetricsCache (monitoring w)) in
     match exposed with
     | Some r =>
         let* metricsCache := gets (fun w => Monitoring.deref (monitoring w) r) in
         if (0 <? length metricsCache)%nat then
           zoom monitoring withMonitoring
             (Monitoring.sendBatchedMetrics cloudWatch timestamp sentAt
                (match functionName with
                 | Some (String a rest) => String a rest
                 | _ => "daily-commit"
                 end))
         else ret tt
     | None => ret tt
     end)
    (fun error => ret tt).

(** Whether [executeGitCommand] takes a settled shell command for a
    success: it resolved, and [stderr] is empty or mentions "warning:". *)
Definition gitSucceeded (out : settled (string * string)) : bool :=
  match out with
  | Resolved (_, stderr) => negb (nonEmpty stderr && negb (includes stderr "warning:"))
  | Rejected _ => false
  end.

(** What [executeGitCommand] returns for a settled shell command that it
    takes for a success: the trimmed [stdout]. *)
Definition gitOutput (out : settled (string * string)) : string :=
  match out with
  | Resolved (stdout, _) => trim stdout
  | Rejected _ => ""
  end.

End Cleanup.

(** [Math.round]: the nearest integer, half-way cases rounded up. *)
Definition round (x : Q) : Z := Qfloor (x + (1 # 2)).

(** [validateLambdaEnvironment()]: [heapUsed] is
    [process.memoryUsage().heapUsed] in bytes, [uptime] and [uptimeAgain]
    are the two readings of [process.uptime()] in seconds (the one that
    is compared and the one that is reported), [s] the state of the
    secrets cache. *)
Definition validateLambdaEnvironment (heapUsed : Z) (uptime uptimeAgain : Q)
    (s : SecretsCache.state) : bool * list string :=
  let issues := [] in
  let issues :=
    if (100 * 1024 * 1024 <? heapUsed)%Z then
      issues ++ ["High memory usage: "
                 +:+ pretty (round (inject_Z heapUsed / 1024 / 1024)) +:+ "MB"]
    else issues in
  let cacheStats := SecretsCache.getCacheStats s in
  let issues :=
    if (10 <? fst cacheStats)%nat then
      issues ++ ["Large secrets cache: " +:+ pretty (fst cacheStats) +:+ " entries"]
    else issues in
  let issues :=
    if negb (Qle_bool uptime 300) then
      issues ++ ["Long uptime: " +:+ pretty (round uptimeAgain) +:+ "s"]
    else issues in
  ((length issues =? 0)%nat, issues).

End LambdaCleanup.

(** ** validation.ts: the rate limiter *)

Module Validation.

Record RateLimitEntry := {
  count : Z;
  resetTime : Z;
}.

(** [checkRateLimit(identifier, maxRequests, windowMs)] on the module's
    [rateLimitMap]; [now] is the value of [Date.now()], an argument [None]
    is omitted. [current.count++] updates the entry that the map holds. *)
Definition checkRateLimit (now : Z) (identifier : string)
    (maxRequests windowMs : option Z)
    (rateLimitMap : gmap string RateLimitEntry)
  : bool * gmap string RateLimitEntry :=
  let maxRequests := default 10%Z maxRequests in
  let windowMs := default 60000%Z windowMs in
  let key := identifier in
  match rateLimitMap !! key with
  | None =>
      (true, <[key := {| count := 1; resetTime := now + windowMs |}]> rateLimitMap)
  | Some current =>
      if (resetTime current <? now)%Z then
        (true, <[key := {| count := 1; resetTime := now + windowMs |}]> rateLimitMap)
      else if (maxRequests <=? count current)%Z then (false, rateLimitMap)
      else
        (true, <[key := {| count := count current + 1;
                           resetTime := resetTime current |}]> rateLimitMap)
  end.

(** Successive calls for one identifier, one per reading of the clock in
    [times]: the answers in order, and the map they leave. *)
Fixpoint successiveCalls (times : list Z) (identifier : string)
    (maxRequests windowMs : option Z)
    (rateLimitMap : gmap string RateLimitEntry)
  : list bool * gmap string RateLimitEntry :=
  match times with
  | [] => ([], rateLimitMap)
  | now :: later =>
      let '(allowed, m1) :=
        checkRateLimit now identifier maxRequests windowMs rateLimitMap in
      let '(answers, m2) :=
        successiveCalls later identifier maxRequests windowMs m1 in
      (allowed :: answers, m2)
  end.

(** *** The input validators

    Strings are sequences of ASCII characters. The values that reach the
    validators come out of [JSON.parse], so an argument is a JSON value
    and the [typeof] tests of the source are tests on its shape. *)

Import JS.

Definition isChar (n : nat) (c : Ascii.ascii) : bool :=
  (Ascii.nat_of_ascii c =? n)%nat.

(** [s.replace(/\.\./g, '')]: every ".." found from left to right goes. *)
Fixpoint removeDotDot (s : string) : string :=
  match s with
  | EmptyString => EmptyString
  | String c rest =>
      match rest with
      | String d rest' =>
          if isChar 46 c && isChar 46 d then removeDotDot rest'
          else String c (removeDotDot rest)
      | EmptyString => String c EmptyString
      end
  end.

(** [s.replace(/\/+/g, '/')]: every run of slashes becomes one slash. *)
Fixpoint collapseSlashes (s : string) : string :=
  match s with
  | EmptyString => EmptyString
  | String c rest =>
      match rest with
      | String d _ =>
          if isChar 47 c && isChar 47 d then collapseSlashes rest
          else String c (collapseSlashes rest)
      | EmptyString => String c EmptyString
      end
  end.

(** [s.replace(/^\/+/, '')] *)
Fixpoint stripLeadingSlashes (s : string) : string :=
  match s with
  | String c rest => if isChar 47 c then stripLeadingSlashes rest else s
  | EmptyString => EmptyString
  end.

(** [s.endsWith(suffix)] *)
Fixpoint endsWith (s suffix : string) : bool :=
  if String.eqb s suffix then true
  else match s with
       | String _ rest => endsWith rest suffix
       | EmptyString => false
       end.

Fixpoint existsChar (p : Ascii.ascii -> bool) (s : string) : bool :=
  match s with
  | String c rest => p c || existsChar p rest
  | EmptyString => false
  end.

Fixpoint filterChars (p : Ascii.ascii -> bool) (s : string) : string :=
  match s with
  | String c rest => if p c then String c (filterChars p rest) else filterChars p rest
  | EmptyString => EmptyString
  end.

(** The class of [validateFilePath]: the characters < > : | ? and the
    asterisk, the double quote (34), and the control characters up to
    0x1f. *)
Definition isDangerousPathChar (c : Ascii.ascii) : bool :=
  let n := Ascii.nat_of_ascii c in
  (n =? 60) || (n =? 62) || (n =? 58) || (n =? 34) || (n =? 124)
  || (n =? 63) || (n =? 42) || (n <=? 31).

(** The class [[\x00-\x08\x0B\x0C\x0E-\x1F\x7F]]. *)
Definition isControlChar (c : Ascii.ascii) : bool :=
  let n := Ascii.nat_of_ascii c in
  (n <=? 8) || (n =? 11) || (n =? 12) || ((14 <=? n) && (n <=? 31)) || (n =? 127).

(** The class [[a-zA-Z0-9/_+=.@-]]. *)
Definition isSecretNameChar (c : Ascii.ascii) : bool :=
  let n := Ascii.nat_of_ascii c in
  ((97 <=? n) && (n <=? 122)) || ((65 <=? n) && (n <=? 90))
  || ((48 <=? n) && (n <=? 57))
  || (n =? 47) || (n =? 95) || (n =? 43) || (n =? 61) || (n =? 46)
  || (n =? 64) || (n =? 45).

Definition toLowerChar (c : Ascii.ascii) : Ascii.ascii :=
  let n := Ascii.nat_of_ascii c in
  if (65 <=? n) && (n <=? 90) then Ascii.ascii_of_nat (n + 32) else c.

Fixpoint toLowerCase (s : string) : string :=
  match s with
  | String c rest => String (toLowerChar c) (toLowerCase rest)
  | EmptyString => EmptyString
  end.

(** [/<script|javascript:|data:/i.test(s)] *)
Definition hasDangerousContent (s : string) : bool :=
  let lower := toLowerCase s in
  includes lower "<script" || includes lower "javascript:"
  || includes lower "data:".

(** [validateFilePath(filePath)] *)
Definition validateFilePath (filePath : SecretsCache.json) : string + thrown :=
  match filePath with
  | SecretsCache.JString (String a rest) =>
      let sanitizedPath :=
        LambdaCleanup.trim
          (stripLeadingSlashes (collapseSlashes (removeDotDot (String a rest)))) in
      if negb (nonEmpty sanitizedPath) then inr (newError "Invalid file path")
      else if negb (endsWith sanitizedPath ".txt") then
        inr (newError "Only .txt files are allowed")
      else if existsChar isDangerousPathChar sanitizedPath then
        inr (newError "File path contains invalid characters")
      else inl sanitizedPath
  | _ => inr (newError "File path is required and must be a string")
  end.

(** [validateCommitMessage(commitMessage)] *)
Definition validateCommitMessage (commitMessage : SecretsCache.json)
  : string + thrown :=
  match commitMessage with
  | SecretsCache.JString (String a rest) =>
      let sanitized := LambdaCleanup.trim (String a rest) in
      if (String.length sanitized =? 0)%nat then
        inr (newError "Commit message cannot be empty")
      else if (500 <? Z.of_nat (String.length sanitized))%Z then
        inr (newError "Commit message is too long (max 500 characters)")
      else if hasDangerousContent sanitized then
        inr (newError "Commit message contains potentially dangerous content")
      else inl sanitized
  | _ => inr (newError "Commit message is required and must be a string")
  end.

(** [validateFileContent(content)] *)
Definition validateFileContent (content : SecretsCache.json) : string + thrown :=
  match content with
  | SecretsCache.JString text =>
      if (10000 <? Z.of_nat (String.length text))%Z then
        inr (newError "File content is too large (max 10,000 characters)")
      else inl (filterChars (fun c => negb (isControlChar c)) text)
  | _ => inr (newError "File content must be a string")
  end.

(** [validateSecretName(secretName)] *)
Definition validateSecretName (secretName : SecretsCache.json) : string + thrown :=
  match secretName with
  | SecretsCache.JString (String a rest) =>
      let sanitized := LambdaCleanup.trim (String a rest) in
      if (String.length sanitized =? 0)%nat then
        inr (newError "Secret name cannot be empty")
      else if negb (nonEmpty sanitized
                    && negb (existsChar (fun c => negb (isSecretNameChar c)) sanitized))
      then inr (newError "Secret name contains invalid characters")
      else if (512 <? Z.of_nat (String.length sanitized))%Z then
        inr (newError "Secret name is too long (max 512 characters)")
      else inl sanitized
  | _ => inr (newError "Secret name is required and must be a string")
  end.

(** [LambdaEvent] as [validateLambdaEvent] returns it: the four fields it
    sets. *)
Record LambdaEvent := {
  filePath : string;
  newContent : string;
  commitMessage : string;
  secretName : string;
}.

(** [validateLambdaEvent(event)]; [isoNow] is [new Date().toISOString()]
    and [localeDate] is [new Date().toLocaleDateString()]. *)
Definition validateLambdaEvent (isoNow localeDate : string)
    (event : SecretsCache.json) : LambdaEvent + thrown :=
  match SecretsCache.getProperty event "filePath" with
  | inr e => inr e
  | inl path =>
      match (if SecretsCache.truthyValue path
             then validateFilePath (default SecretsCache.JNull path)
             else inl "daily-commit.txt") with
      | inr e => inr e
      | inl validPath =>
          match SecretsCache.getProperty event "newContent" with
          | inr e => inr e
          | inl content =>
              match (if SecretsCache.truthyValue content
                     then validateFileContent (default SecretsCache.JNull content)
                     else inl ("Daily commit - " +:+ isoNow)) with
              | inr e => inr e
              | inl validContent =>
                  match SecretsCache.getProperty event "commitMessage" with
                  | inr e => inr e
                  | inl message =>
                      match (if SecretsCache.truthyValue message
                             then validateCommitMessage
                                    (default SecretsCache.JNull message)
                             else inl ("Daily commit - " +:+ localeDate)) with
                      | inr e => inr e
                      | inl validMessage =>
                          match SecretsCache.getProperty event "secretName" with
                          | inr e => inr e
                          | inl name =>
                              match (if SecretsCache.truthyValue name
                                     then validateSecretName
                                            (default SecretsCache.JNull name)
                                     else inl "daily-commit-secrets") with
                              | inr e => inr e
                              | inl validName =>
                                  inl {| filePath := validPath;
                                         newContent := validContent;
                                         commitMessage := validMessage;
                                         secretName := validName |}
                              end
                          end
                      end
                  end
              end
          end
      end
  end.

End Validation.

(** ** fileOperations.ts *)

Module FileOperations.
Import JS.

(** The file system as the function sees it: the files by path, and for
    each path whether [fs.writeFile] fails there (and with what). Reading
    fails exactly for a path that holds no file. *)
Record FileSystem := {
  files : gmap string string;
  writeFailure : string -> option thrown;
}.

Record FileModificationResult := {
  success : bool;
  message : string;
  filePath : option string;
  oldContent : option string;
  newContent : option string;
}.

Definition templatePath : string := "/var/task/daily-commit-template.txt".

(** [filePath.startsWith('/tmp/') ? filePath : `/tmp/${filePath}`] *)
Definition toLambdaFilePath (filePath : string) : string :=
  if String.prefix "/tmp/" filePath then filePath else "/tmp/" +:+ filePath.

(** [modifyTextFile(filePath, newContent)]: the result and the file system
    it leaves. *)
Definition modifyTextFile (filePath newContent : string) (fs : FileSystem)
  : FileModificationResult * FileSystem :=
  let lambdaFilePath := toLambdaFilePath filePath in
  let oldContent :=
    match files fs !! lambdaFilePath with
    | Some content => content
    | None =>
        match files fs !! templatePath with
        | Some template => template
        | None => ""
        end
    end in
  match writeFailure fs lambdaFilePath with
  | None =>
      ({| success := true;
          message := "File " +:+ lambdaFilePath +:+ " modified successfully";
          filePath := Some lambdaFilePath;
          oldContent := Some oldContent;
          newContent := Some newContent |},
       {| files := <[lambdaFilePath := newContent]> (files fs);
          writeFailure := writeFailure fs |})
  | Some error =>
      ({| success := false;
          message := "Failed to modify file " +:+ lambdaFilePath +:+ ": "
                     +:+ messageOrUnknown error;
          filePath := Some lambdaFilePath;
          oldContent := None;
          newContent := None |},
       fs)
  end.

End FileOperations.

(** ** gitNative.ts: the workflow *)

Module GitNative.
Import JS Eff LambdaCleanup.
Local Open Scope eff_scope.

(** [GitConfig] as types.ts declares it. *)
Record GitConfig := {
  userEmail : string;
  userName : string;
  token : string;
  repositoryUrl : string;
}.

Definition dquote : string := String (Ascii.ascii_of_nat 34) EmptyString.
Definition backslash : string := String (Ascii.ascii_of_nat 92) EmptyString.

(** [s] between double quotes, as the command templates have it. *)
Definition quoted (s : string) : string := dquote +:+ s +:+ dquote.

(** The escaping of [commitChanges]: a backslash is put before every
    double quote of the message. *)
Fixpoint escapeQuotes (s : string) : string :=
  match s with
  | String c rest =>
      if Validation.isChar 34 c then backslash +:+ dquote +:+ escapeQuotes rest
      else String c (escapeQuotes rest)
  | EmptyString => EmptyString
  end.

Fixpoint dropChars (n : nat) (s : string) : string :=
  match n, s with
  | S n', String _ rest => dropChars n' rest
  | _, _ => s
  end.

(** Where [pattern] first occurs in [s]: what precedes and what follows. *)
Fixpoint splitAtFirst (pattern s : string) : option (string * string) :=
  if String.prefix pattern s then
    Some (EmptyString, dropChars (String.length pattern) s)
  else
    match s with
    | String c rest =>
        match splitAtFirst pattern rest with
        | Some (before, after) => Some (String c before, after)
        | None => None
        end
    | EmptyString => None
    end.

(** The replacement text of [String.prototype.replace] with a string
    pattern: [$$], [$&], [$`] and [$'] are expanded, anything else is
    literal. *)
Fixpoint expandReplacement (replacement matched before after : string) : string :=
  match replacement with
  | String c rest =>
      if Validation.isChar 36 c then
        match rest with
        | String d rest' =>
            if Validation.isChar 36 d then
              String c (expandReplacement rest' matched before after)
            else if Validation.isChar 38 d then
              matched +:+ expandReplacement rest' matched before after
            else if Validation.isChar 96 d then
              before +:+ expandReplacement rest' matched before after
            else if Validation.isChar 39 d then
              after +:+ expandReplacement rest' matched before after
            else String c (expandReplacement rest matched before after)
        | EmptyString => String c EmptyString
        end
      else String c (expandReplacement rest matched before after)
  | EmptyString => EmptyString
  end.

(** [s.replace(pattern, replacement)] for a string pattern: the first
    occurrence only. *)
Definition replaceFirst (s pattern replacement : string) : string :=
  match splitAtFirst pattern s with
  | Some (before, after) =>
      before +:+ expandReplacement replacement pattern before after +:+ after
  | None => s
  end.

Section Git.
Variable execAsync : nat -> string -> settled (string * string).

(** [configureGit(config)] *)
Definition configureGit (config : GitConfig) : M world unit :=
  tryCatch
    (executeGitCommand execAsync
       ("git config user.email " +:+ quoted (userEmail config)) >>
     executeGitCommand execAsync
       ("git config user.name " +:+ quoted (userName config)) >>
     ret tt)
    (fun error => throw error).

(** The first [try] of [initializeRepository]: update a checkout, or
    clone when that fails at any point. *)
Definition pullOrClone (repositoryUrl : string) : M world unit :=
  tryCatch
    (executeGitCommand execAsync "git rev-parse --git-dir" >>
     executeGitCommand execAsync "git pull origin" >>
     ret tt)
    (fun _ =>
       executeGitCommand execAsync
         ("git clone " +:+ quoted repositoryUrl +:+ " .") >>
       ret tt).

(** The second [try] of [initializeRepository]: make [origin] point to
    the repository, adding the remote when that fails at any point. *)
Definition ensureOrigin (repositoryUrl : string) : M world unit :=
  tryCatch
    (let* currentUrl := executeGitCommand execAsync "git remote get-url origin" in
     if negb (String.eqb (trim currentUrl) repositoryUrl) then
       executeGitCommand execAsync
         ("git remote set-url origin " +:+ quoted repositoryUrl) >>
       ret tt
     else ret tt)
    (fun _ =>
       executeGitCommand execAsync
         ("git remote add origin " +:+ quoted repositoryUrl) >>
       ret tt).

(** [initializeRepository(repositoryUrl)] *)
Definition initializeRepository (repositoryUrl : string) : M world unit :=
  tryCatch
    (pullOrClone repositoryUrl >> ensureOrigin repositoryUrl)
    (fun error => throw error).

(** [addFileToGit(filePath)] *)
Definition addFileToGit (filePath : string) : M world unit :=
  tryCatch
    (executeGitCommand execAsync ("git add " +:+ quoted filePath) >> ret tt)
    (fun error => throw error).

(** [commitChanges(commitMessage)] *)
Definition commitChanges (commitMessage : string) : M world unit :=
  tryCatch
    (executeGitCommand execAsync
       ("git commit -m " +:+ quoted (escapeQuotes commitMessage)) >>
     ret tt)
    (fun error => throw error).

(** [pushToRemote(config)] *)
Definition pushToRemote (config : GitConfig) : M world unit :=
  tryCatch
    (let remoteUrl :=
       replaceFirst (repositoryUrl config) "https://"
         ("https://" +:+ token config +:+ "@") in
     executeGitCommand execAsync
       ("git remote set-url origin " +:+ quoted remoteUrl) >>
     let* currentBranch :=
       tryCatch
         (let* branch := executeGitCommand execAsync "git branch --show-current" in
          ret (trim branch))
         (fun _ => ret "main") in
     executeGitCommand execAsync ("git push origin " +:+ currentBranch) >>
     ret tt)
    (fun error => throw error).

(** [performGitWorkflow(filePath, commitMessage, config)] *)
Definition performGitWorkflow (filePath commitMessage : string)
    (config : GitConfig) : M world unit :=
  tryCatch
    (configureGit config >>
     initializeRepository (repositoryUrl config) >>
     addFileToGit filePath >>
     commitChanges commitMessage >>
     pushToRemote config)
    (fun error => throw error).

End Git.

End GitNative.

(** ** Concrete runs

    Inputs on which the properties below are exercised: a production
    configuration, a store that answers or is down, a warm execution
    environment. Times are milliseconds since the epoch. *)

Module Scenario.
Import JS.

Definition production : Config.LambdaConfig := Config.getConfig true.

(** *** Retry *)

Definition validationFailure : nat -> settled unit :=
  fun _ => Rejected (newError "Validation failed").

Definition noRandom : nat -> number := fun _ => ofZ 0.

Definition retryConfig (attempts : Z) (withJitter : bool) : Retry.RetryConfig :=
  {| Retry.maxAttempts := attempts;
     Retry.baseDelayMs := ofZ 100;
     Retry.maxDelayMs := ofZ 500;
     Retry.backoffMultiplier := ofZ 2;
     Retry.jitter := withJitter |}.

(** The whole number that a number stands for, if it is one. *)
Definition wholeValue (x : number) : option Z :=
  match x with
  | S754_zero _ => Some 0%Z
  | S754_finite s m e =>
      if (0 <=? e)%Z then Some (cond_Zopp s (Zpos m * 2 ^ e))
      else if (Zpos m mod 2 ^ (- e) =? 0)%Z then
        Some (cond_Zopp s (Z.shiftr (Zpos m) (- e)))
      else None
  | _ => None
  end.

(** A [Math.pow] for the whole exponents [n >= 0] that the retry loop
    asks for: [n] multiplications. It returns [x] for [n = 1] and the
    exact power while that is representable. *)
Definition powByMultiplication (x y : number) : number :=
  match wholeValue y with
  | Some n => Nat.iter (Z.to_nat n) (mul x) (ofZ 1)
  | None => S754_nan
  end.

(** A policy without jitter that multiplies by 1.5. *)
Definition policy15 : Retry.RetryConfig :=
  {| Retry.maxAttempts := 5;
     Retry.baseDelayMs := ofZ 100;
     Retry.maxDelayMs := ofZ 500;
     Retry.backoffMultiplier := scaled 3 1;
     Retry.jitter := false |}.

(** Policies without jitter whose delay is not a whole-number product:
    a multiplier of 1.7 on a base of 1000, a multiplier of 1.15 on a base
    of 100, and a base of 0 with a multiplier of 10. *)
Definition policy17 : Retry.RetryConfig :=
  {| Retry.maxAttempts := 3;
     Retry.baseDelayMs := ofZ 1000;
     Retry.maxDelayMs := ofZ 10000;
     Retry.backoffMultiplier := div (ofZ 17) (ofZ 10);
     Retry.jitter := false |}.

Definition policy115 : Retry.RetryConfig :=
  {| Retry.maxAttempts := 3;
     Retry.baseDelayMs := ofZ 100;
     Retry.maxDelayMs := ofZ 500;
     Retry.backoffMultiplier := div (ofZ 115) (ofZ 100);
     Retry.jitter := false |}.

Definition policyZero : Retry.RetryConfig :=
  {| Retry.maxAttempts := 3;
     Retry.baseDelayMs := ofZ 0;
     Retry.maxDelayMs := ofZ 500;
     Retry.backoffMultiplier := ofZ 10;
     Retry.jitter := false |}.

(** *** Secrets *)

Definition secretName : string := "daily-commit-secrets".

Definition completeSecrets : SecretsCache.json :=
  SecretsCache.JObject
    [ ("gitUserEmail", SecretsCache.JString "bot@example.com");
      ("gitUserName", SecretsCache.JString "Daily Bot");
      ("githubToken", SecretsCache.JString "ghp_test123");
      ("repositoryUrl", SecretsCache.JString "https://github.com/test/repo.git") ].

Definition incompleteSecrets : SecretsCache.json :=
  SecretsCache.JObject
    [ ("gitUserEmail", SecretsCache.JString "bot@example.com");
      ("gitUserName", SecretsCache.JString "Daily Bot");
      ("repositoryUrl", SecretsCache.JString "https://github.com/test/repo.git") ].

(** A store that always answers with the same secret string, a parser
    that reads that string as [v], and a store that is down. *)
Definition storeUp : nat -> string -> settled (option string) :=
  fun _ _ => Resolved (Some "{secret}").

Definition parsesTo (v : SecretsCache.json)
  : string -> SecretsCache.json + thrown :=
  fun _ => inl v.

Definition storeDown : nat -> string -> settled (option string) :=
  fun _ _ =>
    Rejected (ErrorObject "ServiceUnavailableException" "Service unavailable" None).

Definition t0 : Z := 1700000000000.

(** The cache after one successful call at [t0] with a ttl of 5 minutes. *)
Definition cachedAtT0 : SecretsCache.state :=
  {| SecretsCache.secretsCache :=
       {[ secretName := {| SecretsCache.data := completeSecrets;
                           SecretsCache.timestamp := t0;
                           SecretsCache.ttl := 300000 |} ]};
     SecretsCache.sent := [secretName] |}.

(** *** Metrics *)

Definition succeeded (durationMs : Z) : Monitoring.OptimizedMetrics :=
  {| Monitoring.executionDuration := durationMs;
     Monitoring.success := true;
     Monitoring.errorCount := 0;
     Monitoring.retryCount := 0 |}.

Definition cloudWatchUp : nat -> Monitoring.PutMetricDataCommand -> settled unit :=
  fun _ _ => Resolved tt.

Definition cloudWatchDown : nat -> Monitoring.PutMetricDataCommand -> settled unit :=
  fun _ _ => Rejected (newError "CloudWatch error").

(** One record waiting in a batch that was last flushed at [t0]. *)
Definition oneWaiting : Monitoring.state :=
  Monitoring.push (succeeded 1000)
    (Monitoring.setLastMetricsSend t0 Monitoring.initialState).

(** Nine records waiting. *)
Definition nineWaiting : Monitoring.state :=
  fold_right Monitoring.push
    (Monitoring.setLastMetricsSend t0 Monitoring.initialState)
    (replicate 9 (succeeded 1000)).

(** The metrics module in production after two invocations have recorded
    their outcome, the first at [t0] (flushed at once, since nothing was
    ever sent before), the second a minute later (kept in the batch). *)
Definition afterTwoRecords : Monitoring.state :=
  snd (Monitoring.sendOptimizedMetrics production cloudWatchUp
         (t0 + 60000) (t0 + 60000) (t0 + 60000) (succeeded 1200) None
         (snd (Monitoring.sendOptimizedMetrics production cloudWatchUp
                 t0 t0 t0 (succeeded 1000) None Monitoring.initialState))).

(** *** Cleanup *)

(** A warm execution environment: secrets cached, one record batched. *)
Definition warm : LambdaCleanup.world :=
  {| LambdaCleanup.secrets := cachedAtT0;
     LambdaCleanup.monitoring := afterTwoRecords;
     LambdaCleanup.executed := [] |}.

(** A checkout in which [git rev-parse] works and everything after it
    fails. *)
Definition gitBroken : nat -> string -> settled (string * string) :=
  fun k _ =>
    match k with
    | O => Resolved (".git", "")
    | S _ => Rejected (newError "Git reset failed")
    end.

(** *** Further runs *)

(** An operation that fails twice on a connection reset and then
    succeeds, and one that always times out. *)
Definition flaky : nat -> settled string :=
  fun k =>
    match k with
    | 0%nat | 1%nat => Rejected (newError "read ECONNRESET")
    | _ => Resolved "pushed"
    end.

Definition timingOut : nat -> settled string :=
  fun _ => Rejected (ErrorObject "Error" "connect failed" (Some "ETIMEDOUT")).

(** The metrics module right after loading, with one record pushed: the
    module variable and [global.metricsCache] still name the same array. *)
Definition aliased : LambdaCleanup.world :=
  {| LambdaCleanup.secrets := SecretsCache.emptyState;
     LambdaCleanup.monitoring :=
       Monitoring.push (succeeded 1000) Monitoring.initialState;
     LambdaCleanup.executed := [] |}.

(** A shell in which every command succeeds and prints "main". *)
Definition gitWorks : nat -> string -> settled (string * string) :=
  fun _ _ => Resolved ("main", "").

Definition gitConfig : GitNative.GitConfig :=
  {| GitNative.userEmail := "bot@example.com";
     GitNative.userName := "Daily Bot";
     GitNative.token := "ghp_test123";
     GitNative.repositoryUrl := "https://github.com/test/repo.git" |}.

(** File content with a NUL in the middle and a unit separator at the
    end. *)
Definition contentWithControls : string :=
  "Hello" +:+ String (Ascii.ascii_of_nat 0) "World"
  +:+ String (Ascii.ascii_of_nat 31) "".

(** A failed invocation with one error and two retries. *)
Definition failed (durationMs : Z) : Monitoring.OptimizedMetrics :=
  {| Monitoring.executionDuration := durationMs;
     Monitoring.success := false;
     Monitoring.errorCount := 1;
     Monitoring.retryCount := 2 |}.

Definition emptyDisk : FileOperations.FileSystem :=
  {| FileOperations.files := ∅;
     FileOperations.writeFailure := fun _ => None |}.

Definition partialEvent : SecretsCache.json :=
  SecretsCache.JObject [("filePath", SecretsCache.JString "notes/../today.txt")].

End Scenario.

(** * Properties *)

(** ** Whole numbers as JavaScript numbers

    A whole number below [2^53] has a canonical form that [ofZ] computes
    without rounding, and on such numbers products (while they stay below
    [2^53]), comparisons, [Math.min] and [Math.floor] are those of the
    integers; likewise for binary fractions. *)

Section Numbers.
Import JS.

(** The number of binary digits of a mantissa ([digits2_pos]) and the
    shifts by which the rounding function moves it. *)
Lemma shifted_Z n p : Zpos (shifted n p) = (Zpos p * 2 ^ Z.of_nat n)%Z.
Proof.
  induction n as [| n IH].
  - cbn. lia.
  - unfold shifted in *. rewrite Nat.iter_succ, Pos2Z.inj_xO, IH.
    rewrite Nat2Z.inj_succ, Z.pow_succ_r by lia. lia.
Qed.

Lemma digits2_size p : digits2_pos p = Pos.size p.
Proof. induction p; cbn; congruence. Qed.

Lemma digits2_shifted n p :
  Zpos (digits2_pos (shifted n p)) = (Zpos (digits2_pos p) + Z.of_nat n)%Z.
Proof.
  induction n as [| n IH].
  - cbn. lia.
  - unfold shifted in *. rewrite Nat.iter_succ. cbn [digits2_pos].
    rewrite Pos2Z.inj_succ, IH. lia.
Qed.

Lemma digits2_bounds p :
  (2 ^ (Zpos (digits2_pos p) - 1) <= Zpos p < 2 ^ Zpos (digits2_pos p))%Z.
Proof.
  rewrite digits2_size.
  pose proof (Pos.size_gt p) as Hgt. pose proof (Pos.size_le p) as Hle.
  apply Pos2Z.pos_lt_pos in Hgt. apply Pos2Z.pos_le_pos in Hle.
  rewrite Pos2Z.inj_pow in Hgt, Hle.
  split; [| exact Hgt].
  replace (Zpos (Pos.size p)) with (Z.succ (Zpos (Pos.size p) - 1)) in Hle by lia.
  rewrite Z.pow_succ_r in Hle by lia. lia.
Qed.

(** Shifting right removes the zero bits that a shift to the left added,
    and records that nothing was lost. *)
Lemma iter_pos_nat {A} (f : A -> A) p x :
  SpecFloat.iter_pos f p x = Nat.iter (Pos.to_nat p) f x.
Proof.
  revert x. induction p as [p IH | p IH |]; intros x; cbn [SpecFloat.iter_pos].
  - rewrite !IH, Pos2Nat.inj_xI.
    replace (S (2 * Pos.to_nat p)) with (Pos.to_nat p + (Pos.to_nat p + 1))%nat by lia.
    rewrite !Nat.iter_add. reflexivity.
  - rewrite !IH, Pos2Nat.inj_xO.
    replace (2 * Pos.to_nat p)%nat with (Pos.to_nat p + Pos.to_nat p)%nat by lia.
    rewrite Nat.iter_add. reflexivity.
  - reflexivity.
Qed.

Lemma shr_shifted n p :
  Nat.iter n shr_1 {| shr_m := Zpos (shifted n p); shr_r := false; shr_s := false |}
  = {| shr_m := Zpos p; shr_r := false; shr_s := false |}.
Proof.
  induction n as [| n IH]; [reflexivity |].
  rewrite Nat.iter_succ_r. unfold shifted. rewrite Nat.iter_succ.
  cbn [shr_1 orb]. exact IH.
Qed.

(** Rounding a mantissa that fits: [q] with at most 53 digits, followed by
    enough zeros, comes out in canonical form and unrounded, whatever the
    position [k] of the binary point (within the normal range). *)
Lemma binary_round_aux_exact s q (n : nat) (k : Z) :
  let d := Zpos (digits2_pos q) in
  (d <= 53)%Z -> (53 <= d + Z.of_nat n)%Z -> (0 <= k <= 1021)%Z ->
  binary_round_aux prec emax s (Zpos (shifted n q)) (- Z.of_nat n - k) loc_Exact
  = S754_finite s (shifted (Z.to_nat (53 - d)) q) (d - 53 - k).
Proof.
  intros d Hd Hn Hk.
  assert (Hsplit : n = (Z.to_nat (d + Z.of_nat n - 53) + Z.to_nat (53 - d))%nat) by lia.
  assert (Hd1 : (1 <= d)%Z) by (unfold d; lia).
  unfold binary_round_aux, shr_fexp, shr_record_of_loc.
  cbn [Zdigits2]. rewrite digits2_shifted. fold d.
  replace (fexp prec emax (d + Z.of_nat n + (- Z.of_nat n - k))) with (d - 53 - k)%Z
    by (unfold fexp, emin, prec, emax; lia).
  assert (Hshr :
    shr {| shr_m := Zpos (shifted n q); shr_r := false; shr_s := false |}
        (- Z.of_nat n - k) (d - 53 - k - (- Z.of_nat n - k))
    = ({| shr_m := Zpos (shifted (Z.to_nat (53 - d)) q);
          shr_r := false; shr_s := false |}, (d - 53 - k)%Z)).
  { unfold shr.
    destruct (d - 53 - k - (- Z.of_nat n - k))%Z as [| j | j] eqn:Hj; [| | lia].
    - f_equal; [| lia]. repeat f_equal. lia.
    - rewrite iter_pos_nat. f_equal; [| lia].
      rewrite Hsplit at 1. unfold shifted at 1. rewrite Nat.iter_add.
      replace (Z.to_nat (d + Z.of_nat n - 53)) with (Pos.to_nat j) by lia.
      apply shr_shifted. }
  rewrite Hshr. cbn [shr_m loc_of_shr_record round_nearest_even Zdigits2].
  rewrite digits2_shifted. fold d.
  replace (fexp prec emax (d + Z.of_nat (Z.to_nat (53 - d)) + (d - 53 - k)))
    with (d - 53 - k)%Z
    by (unfold fexp, emin, prec, emax; lia).
  rewrite Z.sub_diag. cbn [shr shr_m].
  replace (d - 53 - k <=? emax - prec)%Z with true
    by (symmetry; apply Z.leb_le; unfold emax, prec; lia).
  reflexivity.
Qed.

Lemma Pos_iter_shifted q j : Pos.iter xO q j = shifted (Pos.to_nat j) q.
Proof. unfold shifted. apply Pos2Nat.inj_iter. Qed.

(** The canonical form of a positive whole number below [2^53]. *)
Lemma ofZ_pos q :
  let d := Zpos (digits2_pos q) in
  (d <= 53)%Z ->
  ofZ (Zpos q) = S754_finite false (shifted (Z.to_nat (53 - d)) q) (d - 53).
Proof.
  intros d Hd. unfold ofZ, binary_normalize, binary_round, shl_align.
  rewrite Z.add_0_r. fold d.
  replace (fexp prec emax d) with (d - 53)%Z by (unfold fexp, emin, prec, emax; lia).
  rewrite Z.sub_0_r.
  destruct (d - 53)%Z as [| j | j] eqn:Hj; [| lia |].
  - pose proof (binary_round_aux_exact false q 0 0) as H.
    cbv zeta in H. fold d in H.
    change (shifted 0 q) with q in H. change (- Z.of_nat 0 - 0)%Z with 0%Z in H.
    rewrite H by lia. rewrite Z.sub_0_r, Hj. reflexivity.
  - rewrite Pos_iter_shifted.
    pose proof (binary_round_aux_exact false q (Pos.to_nat j) 0) as H.
    cbv zeta in H. fold d in H.
    replace (- Z.of_nat (Pos.to_nat j) - 0)%Z with (Zneg j) in H by lia.
    rewrite H by lia. rewrite Z.sub_0_r, Hj.
    replace (Z.to_nat (53 - d)) with (Pos.to_nat j) by lia. reflexivity.
Qed.

(** The product of two shifted mantissas, and how the number of digits
    grows with the mantissa. *)
Lemma shifted_mul a b x y :
  (shifted a x * shifted b y)%positive = shifted (a + b) (x * y).
Proof.
  apply Pos2Z.inj. rewrite Pos2Z.inj_mul, !shifted_Z, Pos2Z.inj_mul.
  rewrite Nat2Z.inj_add, Z.pow_add_r by lia. ring.
Qed.

Lemma digits2_le x y :
  (Zpos x <= Zpos y)%Z -> (Zpos (digits2_pos x) <= Zpos (digits2_pos y))%Z.
Proof.
  intros Hxy.
  pose proof (digits2_bounds x) as [Hx _]. pose proof (digits2_bounds y) as [_ Hy].
  assert (Hlt : (2 ^ (Zpos (digits2_pos x) - 1) < 2 ^ Zpos (digits2_pos y))%Z) by lia.
  apply Z.pow_lt_mono_r_iff in Hlt; lia.
Qed.

Lemma digits2_small x :
  (Zpos x < 2 ^ 53)%Z -> (Zpos (digits2_pos x) <= 53)%Z.
Proof.
  intros Hx. pose proof (digits2_bounds x) as [Hlow _].
  assert (Hlt : (2 ^ (Zpos (digits2_pos x) - 1) < 2 ^ 53)%Z) by lia.
  apply Z.pow_lt_mono_r_iff in Hlt; lia.
Qed.


(** A whole number below [2^53] is [+0] or a positive finite number. *)
Lemma ofZ_cases (x : Z) :
  (0 <= x < 2 ^ 53)%Z ->
  ofZ x = S754_zero false \/ exists m e, ofZ x = S754_finite false m e.
Proof.
  intros Hx. destruct x as [| x | x]; [left; reflexivity | | lia].
  right. rewrite (ofZ_pos x) by (apply digits2_small; lia). eauto.
Qed.

(** [Math.floor] leaves a whole number below [2^53] as it is. *)
Lemma Math_floor_ofZ (x : Z) :
  (0 <= x < 2 ^ 53)%Z -> Math_floor (ofZ x) = ofZ x.
Proof.
  intros Hx. destruct x as [| x | x]; [reflexivity | | lia].
  pose proof (digits2_small x ltac:(lia)) as Hdx.
  rewrite (ofZ_pos x Hdx). unfold Math_floor.
  destruct (Z.leb_spec 0 (Zpos (digits2_pos x) - 53)) as [Hge | Hlt];
    [reflexivity |].
  cbn [cond_Zopp]. rewrite shifted_Z.
  replace (- (Zpos (digits2_pos x) - 53))%Z
    with (Z.of_nat (Z.to_nat (53 - Zpos (digits2_pos x)))) by lia.
  rewrite Z.shiftr_div_pow2 by lia.
  rewrite Z.div_mul by (apply Z.pow_nonzero; lia).
  rewrite (ofZ_pos x Hdx). reflexivity.
Qed.

(** *** Binary fractions

    The same for the numbers [x / 2^k] with [x] a whole number below
    [2^53]: 1.5, 2.25 and the like. *)

(** The canonical form of [q / 2^k]. *)
Lemma scaled_pos q k :
  let d := Zpos (digits2_pos q) in
  (d <= 53)%Z -> (0 <= k <= 1021)%Z ->
  scaled (Zpos q) k = S754_finite false (shifted (Z.to_nat (53 - d)) q) (d - 53 - k).
Proof.
  intros d Hd Hk. unfold scaled. rewrite (ofZ_pos q Hd). fold d.
  unfold SFldexp, binary_round, shl_align.
  rewrite digits2_shifted. fold d.
  replace (fexp prec emax (d + Z.of_nat (Z.to_nat (53 - d)) + (d - 53 + - k)))
    with (d - 53 + - k)%Z
    by (unfold fexp, emin, prec, emax; unfold d; lia).
  rewrite Z.sub_diag.
  pose proof (binary_round_aux_exact false q (Z.to_nat (53 - d)) k) as H.
  cbv zeta in H. fold d in H.
  replace (- Z.of_nat (Z.to_nat (53 - d)) - k)%Z with (d - 53 + - k)%Z in H by lia.
  apply H; lia.
Qed.

(** A whole number is the binary fraction with no place after the point. *)
Lemma scaled_whole n : (0 <= n < 2 ^ 53)%Z -> scaled n 0 = ofZ n.
Proof.
  intros Hn. destruct n as [| q | q]; [reflexivity | | lia].
  pose proof (digits2_small q ltac:(lia)) as Hd.
  rewrite (scaled_pos q 0 Hd) by lia. rewrite (ofZ_pos q Hd).
  rewrite Z.sub_0_r. reflexivity.
Qed.

(** A whole number times a binary fraction, while the numerator stays
    below [2^53], is computed exactly. *)
Lemma mul_scaled (x y k : Z) :
  (0 <= x < 2 ^ 53)%Z -> (0 <= y < 2 ^ 53)%Z -> (x * y < 2 ^ 53)%Z ->
  (0 <= k <= 1021)%Z ->
  mul (ofZ x) (scaled y k) = scaled (x * y) k.
Proof.
  intros Hx Hy Hxy Hk.
  destruct x as [| x | x]; [| | lia].
  { destruct y as [| y | y]; [reflexivity | | lia].
    rewrite (scaled_pos y k) by (try apply digits2_small; lia). reflexivity. }
  destruct y as [| y | y]; [| | lia].
  { rewrite Z.mul_0_r. rewrite (ofZ_pos x); [reflexivity |].
    apply digits2_small. lia. }
  pose proof (digits2_small x ltac:(lia)) as Hdx.
  pose proof (digits2_small y ltac:(lia)) as Hdy.
  change (Zpos x * Zpos y)%Z with (Zpos (x * y)) in *.
  pose proof (digits2_small _ Hxy) as Hdxy.
  rewrite (ofZ_pos x Hdx), (scaled_pos y k Hdy Hk), (scaled_pos (x * y) k Hdxy Hk).
  unfold mul, SFmul. cbn [xorb].
  rewrite shifted_mul.
  pose proof (binary_round_aux_exact false (x * y)
                (Z.to_nat (53 - Zpos (digits2_pos x))
                 + Z.to_nat (53 - Zpos (digits2_pos y))) k) as H.
  cbv zeta in H.
  replace (- Z.of_nat (Z.to_nat (53 - Zpos (digits2_pos x))
                       + Z.to_nat (53 - Zpos (digits2_pos y))) - k)%Z
    with (Zpos (digits2_pos x) - 53 + (Zpos (digits2_pos y) - 53 - k))%Z in H by lia.
  apply H; [exact Hdxy | | lia].
  assert (Zpos (digits2_pos x) <= Zpos (digits2_pos (x * y)))%Z
    by (apply digits2_le; nia).
  lia.
Qed.

(** A whole number is below a binary fraction exactly when it is below
    it as a rational. *)
Lemma lessThan_scaled (M x k : Z) :
  (0 <= M < 2 ^ 53)%Z -> (0 <= x < 2 ^ 53)%Z -> (0 <= k <= 1021)%Z ->
  lessThan (ofZ M) (scaled x k) = (M * 2 ^ k <? x)%Z.
Proof.
  intros HM Hx Hk.
  assert (Hpow : (0 < 2 ^ k)%Z) by (apply Z.pow_pos_nonneg; lia).
  destruct M as [| M | M]; [| | lia].
  { destruct x as [| x | x]; [reflexivity | | lia].
    rewrite (scaled_pos x k) by (try apply digits2_small; lia). reflexivity. }
  destruct x as [| x | x]; [| | lia].
  { rewrite (ofZ_pos M) by (apply digits2_small; lia).
    cbn. symmetry. apply Z.ltb_ge. lia. }
  pose proof (digits2_small M ltac:(lia)) as HdM.
  pose proof (digits2_small x ltac:(lia)) as Hdx.
  rewrite (ofZ_pos M HdM), (scaled_pos x k Hdx Hk).
  unfold lessThan, SFltb, SFcompare.
  pose proof (digits2_bounds M) as [HMl HMu].
  pose proof (digits2_bounds x) as [Hxl Hxu].
  set (dM := Zpos (digits2_pos M)) in *. set (dx := Zpos (digits2_pos x)) in *.
  destruct (Z.compare_spec (dM - 53) (dx - 53 - k)) as [Heq | Hlt | Hgt].
  - (* same exponent: the mantissas decide *)
    assert (Hdx' : dx = (dM + k)%Z) by lia.
    change (Pos.compare_cont Eq ?a ?b) with (Zpos a ?= Zpos b)%Z.
    rewrite !shifted_Z.
    replace (Z.of_nat (Z.to_nat (53 - dM))) with (53 - dx + k)%Z by lia.
    replace (Z.of_nat (Z.to_nat (53 - dx))) with (53 - dx)%Z by lia.
    rewrite Z.pow_add_r by lia.
    assert (H53 : (0 < 2 ^ (53 - dx))%Z) by (apply Z.pow_pos_nonneg; lia).
    destruct (Z.compare_spec (Zpos M * (2 ^ (53 - dx) * 2 ^ k))
                (Zpos x * 2 ^ (53 - dx)));
      destruct (Z.ltb_spec (Zpos M * 2 ^ k) (Zpos x)); try reflexivity; nia.
  - symmetry. apply Z.ltb_lt.
    assert (2 ^ dM * 2 ^ k <= 2 ^ (dx - 1))%Z.
    { rewrite <- Z.pow_add_r by lia. apply Z.pow_le_mono_r; lia. }
    nia.
  - symmetry. apply Z.ltb_ge.
    assert (2 ^ dx <= 2 ^ (dM - 1) * 2 ^ k)%Z.
    { rewrite <- Z.pow_add_r by lia. apply Z.pow_le_mono_r; lia. }
    nia.
Qed.

(** [Math.min] against a whole number, and [Math.floor], on binary
    fractions. *)
Lemma scaled_cases (x k : Z) :
  (0 <= x < 2 ^ 53)%Z -> (0 <= k <= 1021)%Z ->
  scaled x k = S754_zero false \/ exists m e, scaled x k = S754_finite false m e.
Proof.
  intros Hx Hk. destruct x as [| x | x]; [left; reflexivity | | lia].
  right. rewrite (scaled_pos x k) by (try apply digits2_small; lia). eauto.
Qed.

Lemma Math_min_scaled (x k M : Z) :
  (0 <= x < 2 ^ 53)%Z -> (0 <= k <= 1021)%Z -> (0 <= M < 2 ^ 53)%Z ->
  Math_min (scaled x k) (ofZ M)
  = if (M * 2 ^ k <? x)%Z then ofZ M else scaled x k.
Proof.
  intros Hx Hk HM.
  rewrite <- (lessThan_scaled M x k HM Hx Hk).
  destruct (scaled_cases x k Hx Hk) as [Hx0 | (mx & ex & Hxf)];
    destruct (ofZ_cases M HM) as [HM0 | (mM & eM & HMf)].
  - rewrite Hx0, HM0. reflexivity.
  - rewrite Hx0, HMf. reflexivity.
  - rewrite Hxf, HM0. reflexivity.
  - rewrite Hxf, HMf. reflexivity.
Qed.

Lemma Math_floor_scaled (x k : Z) :
  (0 <= x < 2 ^ 53)%Z -> (0 <= k <= 1021)%Z ->
  Math_floor (scaled x k) = ofZ (x / 2 ^ k).
Proof.
  intros Hx Hk.
  assert (Hpow : (0 < 2 ^ k)%Z) by (apply Z.pow_pos_nonneg; lia).
  destruct x as [| x | x]; [rewrite Z.div_0_l by lia; reflexivity | | lia].
  pose proof (digits2_small x ltac:(lia)) as Hdx.
  rewrite (scaled_pos x k Hdx Hk). unfold Math_floor.
  set (d := Zpos (digits2_pos x)) in *.
  destruct (Z.leb_spec 0 (d - 53 - k)) as [Hge | Hlt].
  - assert (k = 0%Z) by lia. subst k.
    rewrite Z.pow_0_r, Z.div_1_r, Z.sub_0_r. symmetry. apply (ofZ_pos x Hdx).
  - cbn [cond_Zopp]. rewrite shifted_Z.
    replace (Z.of_nat (Z.to_nat (53 - d))) with (53 - d)%Z by lia.
    replace (- (d - 53 - k))%Z with ((53 - d) + k)%Z by lia.
    rewrite Z.shiftr_div_pow2 by lia.
    rewrite Z.pow_add_r by lia.
    replace (Zpos x * 2 ^ (53 - d))%Z with (2 ^ (53 - d) * Zpos x)%Z by ring.
    rewrite Z.div_mul_cancel_l by (try apply Z.pow_nonzero; lia).
    reflexivity.
Qed.

End Numbers.

(** ** The backoff calculator and the retry executor *)

Section RetryProperties.
Import JS Retry.

(** Without jitter the random source plays no part. *)
Lemma calculateDelay_ignores_random Math_pow attempt (p : RetryConfig)
    (r1 r2 : number) :
  jitter p = false ->
  calculateDelay Math_pow attempt p r1 = calculateDelay Math_pow attempt p r2.
Proof. unfold calculateDelay. intros ->. reflexivity. Qed.

(** The floor of a quotient of whole numbers. *)
Lemma Qfloor_div (X D : Z) :
  (0 < D)%Z -> Qfloor (inject_Z X / inject_Z D) = (X / D)%Z.
Proof.
  intros HD. destruct D as [| d | d]; try lia.
  rewrite <- (Qfloor_comp (X # d)); [reflexivity |]. apply Qmake_Qdiv.
Qed.

(** With a whole-number base and cap and a multiplier [m / 2^k], the
    specified delay is the integer [min (b * m ^ a / 2 ^ (k * a)) M]. *)
Lemma specifiedDelay_dyadic (a b m k M : Z) :
  (0 <= a)%Z -> (0 <= k)%Z ->
  specifiedDelay a (inject_Z b) (inject_Z m / inject_Z (2 ^ k)) (inject_Z M)
  = Z.min (b * m ^ a / 2 ^ (k * a)) M.
Proof.
  intros Ha Hk. unfold specifiedDelay.
  assert (HD : (0 < 2 ^ (k * a))%Z) by (apply Z.pow_pos_nonneg; lia).
  assert (HDq : (0 < inject_Z (2 ^ (k * a)))%Q) by (rewrite <- (Zlt_Qlt 0); exact HD).
  assert (Hraw : (inject_Z b * (inject_Z m / inject_Z (2 ^ k)) ^ a
                  == inject_Z (b * m ^ a) / inject_Z (2 ^ (k * a)))%Q).
  { unfold Qdiv at 1. rewrite Qmult_power, Qinv_power.
    rewrite <- (Zpower_Qpower m a Ha), <- (Zpower_Qpower (2 ^ k) a Ha).
    rewrite <- Z.pow_mul_r by lia. rewrite inject_Z_mult.
    unfold Qdiv. ring. }
  rewrite (Qfloor_comp _ _ (Q.min_compat _ _ Hraw _ _ (Qeq_refl (inject_Z M)))).
  destruct (Z.le_gt_cases (b * m ^ a) (M * 2 ^ (k * a))) as [Hle | Hgt].
  - assert (Hq : (inject_Z (b * m ^ a) / inject_Z (2 ^ (k * a)) <= inject_Z M)%Q).
    { apply Qle_shift_div_r; [exact HDq |].
      rewrite <- inject_Z_mult, <- Zle_Qle. exact Hle. }
    rewrite (Qfloor_comp _ _ (Q.min_l _ _ Hq)), (Qfloor_div _ _ HD).
    symmetry. apply Z.min_l. apply Z.div_le_upper_bound; lia.
  - assert (Hq : (inject_Z M <= inject_Z (b * m ^ a) / inject_Z (2 ^ (k * a)))%Q).
    { apply Qle_shift_div_l; [exact HDq |].
      rewrite <- inject_Z_mult, <- Zle_Qle. lia. }
    rewrite (Qfloor_comp _ _ (Q.min_r _ _ Hq)), Qfloor_Z.
    symmetry. apply Z.min_r. apply Z.div_le_lower_bound; lia.
Qed.

(** Without jitter, with a whole-number base and cap and a multiplier
    [m / 2^k], while the numerators stay below [2^53] and [Math.pow]
    returns the power exactly, only the floor rounds: the delay is the
    integer [min (b * m ^ a / 2 ^ (k * a)) M]. *)
Lemma calculateDelay_dyadic Math_pow (a b m k M : Z) (p : RetryConfig)
    (random : number) :
  jitter p = false ->
  baseDelayMs p = ofZ b -> backoffMultiplier p = scaled m k ->
  maxDelayMs p = ofZ M ->
  (0 <= a)%Z -> (0 <= b < 2 ^ 53)%Z -> (0 <= m)%Z ->
  (0 <= k)%Z -> (k * a <= 1021)%Z ->
  (m ^ a < 2 ^ 53)%Z -> (b * m ^ a < 2 ^ 53)%Z -> (0 <= M < 2 ^ 53)%Z ->
  Math_pow (scaled m k) (ofZ a) = scaled (m ^ a) (k * a) ->
  calculateDelay Math_pow (ofZ a) p random
  = ofZ (Z.min (b * m ^ a / 2 ^ (k * a)) M).
Proof.
  intros Hjitter Hb Hm HM Ha Hbr Hm0 Hk Hka Hpr Hprod HMr Hpow.
  assert (Hp0 : (0 <= m ^ a)%Z) by (apply Z.pow_nonneg; exact Hm0).
  assert (HD : (0 < 2 ^ (k * a))%Z) by (apply Z.pow_pos_nonneg; lia).
  unfold calculateDelay. rewrite Hjitter, Hb, Hm, HM, Hpow.
  rewrite (mul_scaled b (m ^ a) (k * a)) by lia.
  rewrite (Math_min_scaled (b * m ^ a) (k * a) M) by nia.
  destruct (Z.ltb_spec (M * 2 ^ (k * a)) (b * m ^ a)) as [Hlt | Hge].
  - rewrite (Math_floor_ofZ M HMr). f_equal.
    symmetry. apply Z.min_r. apply Z.div_le_lower_bound; lia.
  - rewrite (Math_floor_scaled (b * m ^ a) (k * a)) by nia. f_equal.
    symmetry. apply Z.min_l. apply Z.div_le_upper_bound; lia.
Qed.

(** C4 (amended). For a policy without jitter, [calculateDelay] does not
    depend on the random source. When base delay and cap are whole
    numbers below [2^53], the multiplier is a whole number or a binary
    fraction [m / 2^k] (2, 1.5, 1.25, ...), the attempt is a whole number
    [a >= 0], the numerators [m ^ a] and [b * m ^ a] stay below [2^53]
    and [Math.pow] returns the power exactly, then nothing but the final
    floor rounds: the delay is exactly the specified one,
    [min (b * (m / 2^k) ^ a) M] floored. *)
Theorem calculateDelay_without_jitter Math_pow
    (attempt : number) (p : RetryConfig) (random : number) :
  jitter p = false ->
  (forall random',
      calculateDelay Math_pow attempt p random'
      = calculateDelay Math_pow attempt p random)
  /\ forall a b m k M : Z,
       attempt = ofZ a ->
       baseDelayMs p = ofZ b -> backoffMultiplier p = scaled m k ->
       maxDelayMs p = ofZ M ->
       (0 <= a)%Z -> (0 <= b < 2 ^ 53)%Z -> (0 <= m)%Z ->
       (0 <= k)%Z -> (k * a <= 1021)%Z ->
       (m ^ a < 2 ^ 53)%Z -> (b * m ^ a < 2 ^ 53)%Z -> (0 <= M < 2 ^ 53)%Z ->
       Math_pow (scaled m k) (ofZ a) = scaled (m ^ a) (k * a) ->
       calculateDelay Math_pow attempt p random
       = ofZ (specifiedDelay a (inject_Z b) (inject_Z m / inject_Z (2 ^ k))
                (inject_Z M)).
Proof.
  intros Hjitter. split.
  - intros random'. apply calculateDelay_ignores_random. exact Hjitter.
  - intros a b m k M -> Hb Hm HM Ha Hbr Hm0 Hk Hka Hpr Hprod HMr Hpow.
    rewrite (specifiedDelay_dyadic a b m k M Ha Hk).
    apply calculateDelay_dyadic; assumption.
Qed.

Lemma calculateDelay_without_jitter_witness :
  (forall random',
      calculateDelay Scenario.powByMultiplication (ofZ 3) Scenario.policy15
        random'
      = calculateDelay Scenario.powByMultiplication (ofZ 3) Scenario.policy15
          half)
  /\ calculateDelay Scenario.powByMultiplication (ofZ 3) Scenario.policy15 half
     = ofZ (specifiedDelay 3 (inject_Z 100) (inject_Z 3 / inject_Z (2 ^ 1))
              (inject_Z 500))
  /\ specifiedDelay 3 (inject_Z 100) (inject_Z 3 / inject_Z (2 ^ 1))
       (inject_Z 500) = 337%Z.
Proof.
  destruct (calculateDelay_without_jitter Scenario.powByMultiplication (ofZ 3)
              Scenario.policy15 half)
    as [Hrandom Hexact]; [reflexivity |].
  split; [exact Hrandom |]. split; [| vm_compute; reflexivity].
  apply (Hexact 3 100 3 1 500)%Z;
    try reflexivity; try lia; vm_compute; intuition discriminate.
Defined.

(** C4 as stated fails when the product is not computed exactly. With
    base 1000 and the multiplier 1.7, the first retry waits 1700 ms, while
    the exact product of the two stored numbers is just below 1700 and
    floors to 1699; with base 100 and the multiplier 1.15 it waits 114 ms,
    while [100 * 1.15] is 115; and with base 0 and multiplier 10 the delay
    for attempt 400 is [NaN] ([0 * Infinity]) and not 0. *)
Lemma calculateDelay_rounds_counterexample :
  (jitter Scenario.policy17 = false
   /\ calculateDelay Scenario.powByMultiplication (ofZ 1) Scenario.policy17 half
      = ofZ 1700
   /\ specifiedDelay 1 (value (baseDelayMs Scenario.policy17))
        (value (backoffMultiplier Scenario.policy17))
        (value (maxDelayMs Scenario.policy17)) = 1699%Z
   /\ calculateDelay Scenario.powByMultiplication (ofZ 1) Scenario.policy17 half
      <> ofZ (specifiedDelay 1 (value (baseDelayMs Scenario.policy17))
                (value (backoffMultiplier Scenario.policy17))
                (value (maxDelayMs Scenario.policy17))))
  /\ (jitter Scenario.policy115 = false
      /\ calculateDelay Scenario.powByMultiplication (ofZ 1) Scenario.policy115
           half = ofZ 114
      /\ specifiedDelay 1 100 (115 # 100) 500 = 115%Z
      /\ calculateDelay Scenario.powByMultiplication (ofZ 1) Scenario.policy115
           half
         <> ofZ (specifiedDelay 1 100 (115 # 100) 500))
  /\ (jitter Scenario.policyZero = false
      /\ calculateDelay Scenario.powByMultiplication (ofZ 400)
           Scenario.policyZero half = S754_nan
      /\ specifiedDelay 400 0 10 500 = 0%Z
      /\ calculateDelay Scenario.powByMultiplication (ofZ 400)
           Scenario.policyZero half
         <> ofZ (specifiedDelay 400 0 10 500)).
Proof. repeat split; vm_compute; first [reflexivity | discriminate]. Qed.

Section Executor.
Context {T : Type}.
Variable Math_pow : number -> number -> number.
Variable fn : nat -> settled T.
Variable random : nat -> number.
Variable config : RetryConfig.
Variable context : string.

(** The loop never runs out of iterations: [maxAttempts - attempt] of them
    are enough. *)
Lemma loop_total (fuel : nat) :
  forall (attempt : Z) lastError calls slept,
    (maxAttempts config - attempt <= Z.of_nat fuel)%Z ->
    is_Some (loop Math_pow fn random config context fuel attempt lastError
               calls slept).
Proof.
  induction fuel as [| fuel IH]; intros attempt lastError calls slept Hfuel;
    simpl.
  - destruct (attempt <? maxAttempts config)%Z eqn:Hlt; [| eauto].
    apply Z.ltb_lt in Hlt. lia.
  - destruct (attempt <? maxAttempts config)%Z eqn:Hlt; [| eauto].
    destruct (fn calls) as [v | e]; [eauto |].
    destruct (attempt =? maxAttempts config - 1)%Z; [eauto |].
    destruct (negb (isRetryableError e)); [eauto |].
    apply IH. lia.
Qed.

(** [withRetry] always settles. *)
Lemma withRetry_total : is_Some (withRetry Math_pow fn random config context).
Proof. unfold withRetry. apply loop_total. lia. Qed.

End Executor.

(** C3 (amended). If the operation always fails with a non-retryable
    error and [maxAttempts >= 1], [withRetry] invokes it exactly once, does
    not sleep, and rejects with an [Error] whose message carries the label,
    the configured [maxAttempts] (not the number of attempts made) and the
    text of the underlying failure. *)
Theorem withRetry_nonretryable_once {T : Type}
    (Math_pow : number -> number -> number)
    (fn : nat -> settled T) (random : nat -> number)
    (config : RetryConfig) (context : string) :
  (1 <= maxAttempts config)%Z ->
  (forall k, exists e, fn k = Rejected e /\ isRetryableError e = false) ->
  exists e,
    fn 0%nat = Rejected e
    /\ withRetry Math_pow fn random config context
       = Some {| outcome :=
                   Rejected (newError
                     (context +:+ " - Failed after "
                      +:+ pretty (maxAttempts config)
                      +:+ " attempts. Last error: " +:+ messageOrString e));
                 invocations := 1;
                 sleeps := [] |}.
Proof.
  intros Hmax Hfn.
  destruct (Hfn 0%nat) as (e & Hcall & Hclass).
  exists e. split; [exact Hcall |].
  unfold withRetry.
  destruct (Z.to_nat (maxAttempts config)) as [| fuel] eqn:Hfuel; [lia |].
  cbn [loop].
  destruct (0 <? maxAttempts config)%Z eqn:Hlt;
    [| apply Z.ltb_ge in Hlt; lia].
  rewrite Hcall, Hclass. cbn [negb].
  destruct (0 =? maxAttempts config - 1)%Z; reflexivity.
Qed.

Lemma withRetry_nonretryable_once_witness :
  exists e,
    Scenario.validationFailure 0%nat = Rejected e
    /\ withRetry Scenario.powByMultiplication Scenario.validationFailure
         Scenario.noRandom (Scenario.retryConfig 3 true) "git"
       = Some {| outcome :=
                   Rejected (newError
                     ("git" +:+ " - Failed after "
                      +:+ pretty (maxAttempts (Scenario.retryConfig 3 true))
                      +:+ " attempts. Last error: " +:+ messageOrString e));
                 invocations := 1;
                 sleeps := [] |}.
Proof.
  apply (withRetry_nonretryable_once Scenario.powByMultiplication
           Scenario.validationFailure Scenario.noRandom
           (Scenario.retryConfig 3 true) "git").
  - simpl. lia.
  - intros k. exists (newError "Validation failed"). split; reflexivity.
Defined.

(** C3 as stated fails: with [maxAttempts = 2] and an operation that
    always fails with the non-retryable "Validation failed", one attempt
    is made, yet the error reports 2 attempts, not 1. *)
Lemma withRetry_reports_one_attempt_counterexample :
  (1 <= maxAttempts (Scenario.retryConfig 2 true))%Z
  /\ (forall k, exists e, Scenario.validationFailure k = Rejected e
                          /\ isRetryableError e = false)
  /\ exists r,
       withRetry Scenario.powByMultiplication Scenario.validationFailure
         Scenario.noRandom (Scenario.retryConfig 2 true) "test" = Some r
       /\ invocations r = 1%nat
       /\ outcome r
          = Rejected (newError
              "test - Failed after 2 attempts. Last error: Validation failed")
       /\ outcome r
          <> Rejected (newError
               (failureMessage "test" (Z.of_nat (invocations r))
                  (Some (newError "Validation failed")))).
Proof.
  split; [simpl; lia |]. split.
  - intros k. exists (newError "Validation failed"). split; reflexivity.
  - eexists. split; [vm_compute; reflexivity |].
    split; [reflexivity |]. split; [reflexivity |].
    vm_compute. discriminate.
Qed.

(** C8 (amended). If [maxAttempts <= 0], [withRetry] never invokes the
    operation, never sleeps, and rejects at once with an [Error] whose
    message reports the configured [maxAttempts] (so zero attempts exactly
    when [maxAttempts = 0]) and "undefined" as the last error. *)
Theorem withRetry_no_attempts {T : Type}
    (Math_pow : number -> number -> number)
    (fn : nat -> settled T) (random : nat -> number)
    (config : RetryConfig) (context : string) :
  (maxAttempts config <= 0)%Z ->
  withRetry Math_pow fn random config context
  = Some {| outcome :=
              Rejected (newError
                (context +:+ " - Failed after " +:+ pretty (maxAttempts config)
                 +:+ " attempts. Last error: undefined"));
            invocations := 0;
            sleeps := [] |}.
Proof.
  intros Hmax. unfold withRetry.
  replace (Z.to_nat (maxAttempts config)) with 0%nat by lia.
  cbn [loop].
  destruct (0 <? maxAttempts config)%Z eqn:Hlt;
    [apply Z.ltb_lt in Hlt; lia | reflexivity].
Qed.

Lemma withRetry_no_attempts_witness :
  withRetry Scenario.powByMultiplication Scenario.validationFailure
    Scenario.noRandom (Scenario.retryConfig 0 true) "test"
  = Some {| outcome :=
              Rejected (newError
                ("test" +:+ " - Failed after "
                 +:+ pretty (maxAttempts (Scenario.retryConfig 0 true))
                 +:+ " attempts. Last error: undefined"));
            invocations := 0;
            sleeps := [] |}.
Proof.
  apply (withRetry_no_attempts Scenario.powByMultiplication
           Scenario.validationFailure Scenario.noRandom
           (Scenario.retryConfig 0 true) "test").
  simpl. lia.
Defined.

(** C8 as stated fails for a negative bound: with [maxAttempts = -1] the
    operation is not invoked, but the error reports -1 attempts, not
    zero. *)
Lemma withRetry_reports_zero_attempts_counterexample :
  (maxAttempts (Scenario.retryConfig (-1) true) <= 0)%Z
  /\ exists r,
       withRetry Scenario.powByMultiplication Scenario.validationFailure
         Scenario.noRandom (Scenario.retryConfig (-1) true) "test" = Some r
       /\ invocations r = 0%nat
       /\ outcome r
          = Rejected (newError
              "test - Failed after -1 attempts. Last error: undefined")
       /\ outcome r
          <> Rejected (newError (failureMessage "test" 0 None)).
Proof.
  split; [simpl; lia |].
  eexists. split; [vm_compute; reflexivity |].
  split; [reflexivity |]. split; [reflexivity |].
  vm_compute. discriminate.
Qed.

End RetryProperties.

(** ** The secrets cache *)

Section SecretsCacheProperties.
Import JS Eff SecretsCache.

Variable send : nat -> string -> settled (option string).
Variable JSON_parse : string -> json + thrown.
Variable isProduction : bool.

Abbreviation get := (getCachedSecrets send JSON_parse isProduction).
Abbreviation fetch := (fetchFresh send JSON_parse).

Ltac eff :=
  unfold bind, ret, throw, gets, modify, tryCatch, await in *; cbn beta iota in *.

(** An entry whose own ttl has not elapsed is served, and nothing else
    happens. *)
Lemma getCachedSecrets_hit now key ttl0 s c :
  secretsCache s !! key = Some c ->
  (now - timestamp c < ttl c)%Z ->
  get now key ttl0 s = (inl (data c), s).
Proof.
  intros Hc Hfresh. unfold getCachedSecrets. eff. rewrite Hc.
  apply Z.ltb_lt in Hfresh. rewrite Hfresh. reflexivity.
Qed.

(** Without such an entry the call goes to the store. *)
Lemma getCachedSecrets_miss now key ttl0 s :
  (forall c, secretsCache s !! key = Some c -> (ttl c <= now - timestamp c)%Z) ->
  get now key ttl0 s
  = fetch now key (default (DEFAULT_TTL isProduction) ttl0) s.
Proof.
  intros Hstale. unfold getCachedSecrets. eff.
  destruct (secretsCache s !! key) as [c |] eqn:Hc; [| reflexivity].
  specialize (Hstale c eq_refl). apply Z.ltb_ge in Hstale.
  rewrite Hstale. reflexivity.
Qed.

(** Checking the fields leaves the state alone. *)
Lemma validateFields_state secrets fields s :
  snd (validateFields secrets fields s) = s.
Proof.
  induction fields as [| f fields IH]; simpl; [reflexivity |].
  destruct (getProperty secrets f) as [v | e]; [| reflexivity].
  destruct (negb (truthyValue v)); [reflexivity | exact IH].
Qed.


(** Every fetch is one call to the store, whatever comes of it; it stores
    an entry stamped [now] when it succeeds and leaves the cache as it was
    when it fails. *)
Lemma fetchFresh_effect now key ttl0 s :
  let '(r, s') := fetch now key ttl0 s in
  sent s' = sent s ++ [key]
  /\ match r with
     | inl v =>
         secretsCache s'
         = <[key := {| data := v; timestamp := now; ttl := ttl0 |}]> (secretsCache s)
     | inr _ => secretsCache s' = secretsCache s
     end.
Proof.
  unfold fetchFresh, secretsClient_send. eff.
  destruct (send (length (sent s)) key) as [[text |] | e];
    cbn -[validateFields]; [| split; reflexivity | split; reflexivity].
  destruct text as [| a text]; cbn -[validateFields]; [split; reflexivity |].
  destruct (JSON_parse (String a text)) as [secrets | e];
    cbn -[validateFields]; [| split; reflexivity].
  pose proof (validateFields_state secrets requiredFields
                {| secretsCache := secretsCache s; sent := sent s ++ [key] |})
    as Hstate.
  destruct (validateFields secrets requiredFields
              {| secretsCache := secretsCache s; sent := sent s ++ [key] |})
    as [r s1].
  cbn in Hstate. subst s1.
  destruct r as [u | e]; cbn; split; reflexivity.
Qed.

Lemma fetchFresh_sent now key ttl0 s :
  sent (snd (fetch now key ttl0 s)) = sent s ++ [key].
Proof.
  pose proof (fetchFresh_effect now key ttl0 s) as H.
  destruct (fetch now key ttl0 s) as [r s']. apply H.
Qed.

(** A call that reached the store and succeeded has stored the value. *)
Lemma getCachedSecrets_stored now key ttl0 s v s' :
  get now key (Some ttl0) s = (inl v, s') ->
  sent s' = sent s ++ [key] ->
  secretsCache s' !! key
  = Some {| data := v; timestamp := now; ttl := ttl0 |}.
Proof.
  intros Hget Hsent. unfold getCachedSecrets in Hget. eff.
  assert (Hfetch : fetch now key ttl0 s = (inl v, s') ->
                   secretsCache s' !! key
                   = Some {| data := v; timestamp := now; ttl := ttl0 |}).
  { intros Hf. pose proof (fetchFresh_effect now key ttl0 s) as H.
    rewrite Hf in H. destruct H as [_ ->]. apply lookup_insert_eq. }
  assert (Hnofetch : sent s' <> sent s).
  { rewrite Hsent. intros Heq. apply (f_equal length) in Heq.
    rewrite length_app in Heq. simpl in Heq. lia. }
  destruct (secretsCache s !! key) as [c |]; simpl in Hget.
  - destruct (now - timestamp c <? ttl c)%Z.
    + injection Hget as _ <-. congruence.
    + apply Hfetch, Hget.
  - apply Hfetch, Hget.
Qed.

(** The first required field that is absent or falsy is the one that the
    validation reports. *)
Lemma validateFields_missing secrets fields s :
  (exists f v, f ∈ fields /\ getProperty secrets f = inl v
               /\ truthyValue v = false) ->
  exists f v, f ∈ fields /\ getProperty secrets f = inl v
              /\ truthyValue v = false
              /\ validateFields secrets fields s
                 = (inr (newError ("Missing required secret field: " +:+ f)), s).
Proof.
  induction fields as [| g fields IH];
    intros (f & v & Hin & Hget & Hfalsy).
  - apply elem_of_nil in Hin. destruct Hin.
  - cbn [validateFields].
    destruct (getProperty secrets g) as [w | e] eqn:Hg.
    + destruct (truthyValue w) eqn:Hw; cbn [negb].
      * apply elem_of_cons in Hin as [-> | Hin]; [congruence |].
        destruct IH as (f' & v' & Hin' & Hget' & Hfalsy' & Hrun);
          [eauto |].
        exists f', v'. split; [apply elem_of_cons; right; exact Hin' |].
        split; [exact Hget' |]. split; [exact Hfalsy' | exact Hrun].
      * exists g, w. split; [apply elem_of_cons; left; reflexivity |].
        split; [exact Hg |]. split; [exact Hw | reflexivity].
    + (* a property read throws only on [null], where no read succeeds *)
      destruct secrets; simpl in Hg, Hget; congruence.
Qed.

(** C5. After a call that went to the store and stored a fresh entry, a
    second call for the same key before the ttl has elapsed returns the
    stored value without another request (one request in total across the
    two calls), and a call once the ttl has elapsed sends a second
    request. *)
Theorem getCachedSecrets_fetch_count now1 now2 now3 key ttl0 s0 v s1 :
  getCachedSecrets send JSON_parse isProduction now1 key (Some ttl0) s0 = (inl v, s1) ->
  sent s1 = sent s0 ++ [key] ->
  (now2 - now1 < ttl0)%Z ->
  (ttl0 <= now3 - now1)%Z ->
  getCachedSecrets send JSON_parse isProduction now2 key (Some ttl0) s1 = (inl v, s1)
  /\ sent (snd (getCachedSecrets send JSON_parse isProduction now3 key (Some ttl0) s1)) = sent s0 ++ [key; key].
Proof.
  intros Hfirst Hsent Hbefore Hafter.
  pose proof (getCachedSecrets_stored _ _ _ _ _ _ Hfirst Hsent) as Hentry.
  split.
  - apply (getCachedSecrets_hit now2 key (Some ttl0) s1 _ Hentry).
    exact Hbefore.
  - rewrite getCachedSecrets_miss.
    + rewrite fetchFresh_sent, Hsent, <- app_assoc. reflexivity.
    + intros c Hc. rewrite Hentry in Hc. injection Hc as <-. exact Hafter.
Qed.

(** C7. When the call must go to the store (no entry, or an expired one):
    if the parsed response lacks a required field, the call fails with an
    error that names a missing field (the first one in the order
    gitUserEmail, gitUserName, githubToken, repositoryUrl); if the request
    itself is rejected, the call fails with the fetch failure; and after
    any failure the cache is exactly as before (nothing stored, the expired
    entry still there), while every later call for the key goes to the
    store again instead of serving that entry. *)
Theorem getCachedSecrets_failure now key ttl0 s :
  (forall c, secretsCache s !! key = Some c -> (ttl c <= now - timestamp c)%Z) ->
  (forall text secrets,
      send (length (sent s)) key = Resolved (Some text) ->
      nonEmpty text = true ->
      JSON_parse text = inl secrets ->
      (exists f v, f ∈ requiredFields /\ getProperty secrets f = inl v
                   /\ truthyValue v = false) ->
      exists f v, f ∈ requiredFields /\ getProperty secrets f = inl v
                  /\ truthyValue v = false
                  /\ getCachedSecrets send JSON_parse isProduction now key ttl0 s
                     = failedFetch key ("Missing required secret field: " +:+ f) s)
  /\ (forall e,
         send (length (sent s)) key = Rejected e ->
         getCachedSecrets send JSON_parse isProduction now key ttl0 s = failedFetch key (messageOrUnknown e) s)
  /\ (forall e s',
         getCachedSecrets send JSON_parse isProduction now key ttl0 s = (inr e, s') ->
         secretsCache s' = secretsCache s
         /\ forall now' ttl',
              (now <= now')%Z ->
              sent (snd (getCachedSecrets send JSON_parse isProduction now' key ttl' s')) = sent s' ++ [key]).
Proof.
  intros Hstale. rewrite (getCachedSecrets_miss now key ttl0 s Hstale).
  split; [| split].
  - intros text secrets Hsend Htext Hparse Hmissing.
    destruct (validateFields_missing secrets requiredFields
                {| secretsCache := secretsCache s; sent := sent s ++ [key] |}
                Hmissing)
      as (f & w & Hin & Hget & Hfalsy & Hrun).
    exists f, w. split; [exact Hin |]. split; [exact Hget |].
    split; [exact Hfalsy |].
    unfold fetchFresh, secretsClient_send, failedFetch. eff.
    rewrite Hsend. cbn -[validateFields].
    destruct text as [| a text]; [discriminate |].
    rewrite Hparse, Hrun. reflexivity.
  - intros e Hsend.
    unfold fetchFresh, secretsClient_send, failedFetch. eff.
    rewrite Hsend. reflexivity.
  - intros e s' Hfail.
    pose proof (fetchFresh_effect now key (default (DEFAULT_TTL isProduction) ttl0) s)
      as Heffect.
    rewrite Hfail in Heffect. destruct Heffect as [_ Hcache].
    split; [exact Hcache |].
    intros now' ttl' Hlater.
    rewrite getCachedSecrets_miss; [apply fetchFresh_sent |].
    intros c Hc. rewrite Hcache in Hc. specialize (Hstale c Hc). lia.
Qed.


End SecretsCacheProperties.

(** ** The metrics batcher *)

Section MonitoringProperties.
Import JS Eff Monitoring.

Variable config : Config.LambdaConfig.
Variable send : nat -> PutMetricDataCommand -> settled unit.

Ltac eff :=
  unfold bind, ret, throw, gets, modify, tryCatch, await in *; cbn beta iota in *.

Lemma batch_push m s : batch (push m s) = batch s ++ [m].
Proof. unfold batch, deref, push. simpl. rewrite lookup_insert_eq. reflexivity. Qed.

Lemma batch_assignEmpty s : batch (assignEmptyToMetricsCache s) = [].
Proof.
  unfold batch, deref, assignEmptyToMetricsCache. simpl.
  rewrite lookup_insert_eq. reflexivity.
Qed.

(** What a flush of a non-empty batch does, by the way the transmission
    settles. *)
Lemma sendBatchedMetrics_run timestamp sentAt functionName s :
  batch s <> [] ->
  let command := putMetricDataCommand functionName (batch s) timestamp in
  let transmitted :=
    {| arrays := arrays s; metricsCache := metricsCache s;
       globalMetricsCache := globalMetricsCache s;
       lastMetricsSend := lastMetricsSend s;
       sentCommands := sentCommands s ++ [command] |} in
  sendBatchedMetrics send timestamp sentAt functionName s
  = match send (length (sentCommands s)) command with
    | Resolved _ =>
        (inl tt, setLastMetricsSend sentAt (assignEmptyToMetricsCache transmitted))
    | Rejected _ => (inl tt, assignEmptyToMetricsCache transmitted)
    end.
Proof.
  intros Hbatch command transmitted.
  unfold sendBatchedMetrics, cloudWatchClient_send. eff.
  destruct (batch s) as [| m cache] eqn:Hcache; [congruence |].
  cbn [length Nat.eqb]. fold command.
  destruct (send (length (sentCommands s)) command); reflexivity.
Qed.

(** The same, read off field by field. *)
Lemma sendBatchedMetrics_effect timestamp sentAt functionName s :
  batch s <> [] ->
  fst (sendBatchedMetrics send timestamp sentAt functionName s) = inl tt
  /\ batch (snd (sendBatchedMetrics send timestamp sentAt functionName s)) = []
  /\ sentCommands (snd (sendBatchedMetrics send timestamp sentAt functionName s))
     = sentCommands s ++ [putMetricDataCommand functionName (batch s) timestamp]
  /\ lastMetricsSend (snd (sendBatchedMetrics send timestamp sentAt functionName s))
     = match send (length (sentCommands s))
               (putMetricDataCommand functionName (batch s) timestamp) with
       | Resolved _ => sentAt
       | Rejected _ => lastMetricsSend s
       end.
Proof.
  intros Hbatch.
  rewrite (sendBatchedMetrics_run timestamp sentAt functionName s Hbatch).
  destruct (send (length (sentCommands s))
              (putMetricDataCommand functionName (batch s) timestamp));
    cbn [fst snd]; repeat split; try reflexivity; apply batch_assignEmpty.
Qed.

(** C2 (amended). A flush of a non-empty batch completes normally, makes
    exactly one transmission and leaves the batch empty whether or not the
    transmission succeeds; [lastMetricsSend] becomes the current time when
    the transmission succeeds and keeps its previous value when it
    fails. *)
Theorem sendBatchedMetrics_flush timestamp sentAt functionName s :
  batch s <> [] ->
  fst (sendBatchedMetrics send timestamp sentAt functionName s) = inl tt
  /\ batch (snd (sendBatchedMetrics send timestamp sentAt functionName s)) = []
  /\ sentCommands (snd (sendBatchedMetrics send timestamp sentAt functionName s))
     = sentCommands s ++ [putMetricDataCommand functionName (batch s) timestamp]
  /\ (forall v,
        send (length (sentCommands s))
             (putMetricDataCommand functionName (batch s) timestamp) = Resolved v ->
        lastMetricsSend (snd (sendBatchedMetrics send timestamp sentAt functionName s))
        = sentAt)
  /\ (forall e,
        send (length (sentCommands s))
             (putMetricDataCommand functionName (batch s) timestamp) = Rejected e ->
        lastMetricsSend (snd (sendBatchedMetrics send timestamp sentAt functionName s))
        = lastMetricsSend s).
Proof.
  intros Hbatch.
  destruct (sendBatchedMetrics_effect timestamp sentAt functionName s Hbatch)
    as (Hok & Hempty & Hsent & Hlast).
  split; [exact Hok |]. split; [exact Hempty |]. split; [exact Hsent |].
  split; intros x Hsend; rewrite Hsend in Hlast; exact Hlast.
Qed.

(** C6. The record call that brings the batch to [METRICS_BATCH_SIZE]
    records makes exactly one transmission before it returns, of a command
    whose TotalExecutions datum is the threshold, computed over the whole
    batch including the new record, and the batch is empty when the call
    returns. *)
Theorem sendOptimizedMetrics_threshold_flush
    now timestamp sentAt metrics functionName s :
  (Z.of_nat (length (batch s)) + 1 = METRICS_BATCH_SIZE config)%Z ->
  fst (sendOptimizedMetrics config send now timestamp sentAt metrics functionName s)
  = inl tt
  /\ batch (snd (sendOptimizedMetrics config send now timestamp sentAt
                   metrics functionName s)) = []
  /\ sentCommands (snd (sendOptimizedMetrics config send now timestamp sentAt
                          metrics functionName s))
     = sentCommands s
       ++ [putMetricDataCommand (default "daily-commit" functionName)
             (batch s ++ [metrics]) timestamp]
  /\ totalExecutions (aggregate (batch s ++ [metrics]))
     = METRICS_BATCH_SIZE config
  /\ MetricData (putMetricDataCommand (default "daily-commit" functionName)
                   (batch s ++ [metrics]) timestamp) !! 0%nat
     = Some {| MetricName := "TotalExecutions";
               Value := inject_Z (METRICS_BATCH_SIZE config);
               Unit := Count;
               Timestamp := timestamp |}.
Proof.
  intros Hfull.
  assert (Hlen : Z.of_nat (length (batch s ++ [metrics]))
                 = METRICS_BATCH_SIZE config).
  { rewrite length_app. simpl. lia. }
  assert (Hne : batch (push metrics s) <> []).
  { rewrite batch_push. destruct (batch s); discriminate. }
  pose proof (sendBatchedMetrics_effect timestamp sentAt
                (default "daily-commit" functionName) (push metrics s) Hne)
    as (Hok & Hempty & Hsent & _).
  rewrite batch_push in Hsent.
  assert (Hrun :
    sendOptimizedMetrics config send now timestamp sentAt metrics functionName s
    = sendBatchedMetrics send timestamp sentAt
        (default "daily-commit" functionName) (push metrics s)).
  { unfold sendOptimizedMetrics.
    unfold tryCatch, bind at 1 2 3, modify at 1, gets. cbn beta iota.
    rewrite batch_push.
    replace (METRICS_BATCH_SIZE config <=? Z.of_nat (length (batch s ++ [metrics])))%Z
      with true by (symmetry; apply Z.leb_le; lia).
    cbn [orb].
    destruct (sendBatchedMetrics send timestamp sentAt
                (default "daily-commit" functionName) (push metrics s))
      as [[[] | e] s']; [reflexivity |].
    cbn in Hok. discriminate Hok. }
  rewrite Hrun.
  split; [exact Hok |]. split; [exact Hempty |]. split; [exact Hsent |].
  split.
  - exact Hlen.
  - unfold putMetricDataCommand, metricData. cbn [MetricData lookup list_lookup].
    unfold aggregate at 1. cbn [totalExecutions]. rewrite Hlen. reflexivity.
Qed.

End MonitoringProperties.

(** ** The rate limiter *)

Section RateLimitProperties.
Import Validation.

Lemma checkRateLimit_fresh now id maxRequests windowMs
    (m : gmap string RateLimitEntry) :
  m !! id = None ->
  checkRateLimit now id (Some maxRequests) (Some windowMs) m
  = (true, <[id := {| count := 1; resetTime := now + windowMs |}]> m).
Proof. intros Hnone. unfold checkRateLimit. rewrite Hnone. reflexivity. Qed.

Lemma checkRateLimit_expired now id maxRequests windowMs
    (m : gmap string RateLimitEntry) current :
  m !! id = Some current ->
  (resetTime current < now)%Z ->
  checkRateLimit now id (Some maxRequests) (Some windowMs) m
  = (true, <[id := {| count := 1; resetTime := now + windowMs |}]> m).
Proof.
  intros Hsome Hexpired. unfold checkRateLimit. rewrite Hsome.
  apply Z.ltb_lt in Hexpired. cbn -[Z.ltb Z.leb Z.add].
  rewrite Hexpired. reflexivity.
Qed.

Lemma checkRateLimit_within now id maxRequests windowMs
    (m : gmap string RateLimitEntry) c r :
  m !! id = Some {| count := c; resetTime := r |} ->
  (now <= r)%Z ->
  (c < maxRequests)%Z ->
  checkRateLimit now id (Some maxRequests) (Some windowMs) m
  = (true, <[id := {| count := c + 1; resetTime := r |}]> m).
Proof.
  intros Hsome Hwithin Hroom. unfold checkRateLimit. rewrite Hsome.
  cbn -[Z.ltb Z.leb Z.add].
  apply Z.ltb_ge in Hwithin. rewrite Hwithin.
  apply Z.leb_gt in Hroom. rewrite Hroom. reflexivity.
Qed.

Lemma checkRateLimit_exhausted now id maxRequests windowMs
    (m : gmap string RateLimitEntry) c r :
  m !! id = Some {| count := c; resetTime := r |} ->
  (now <= r)%Z ->
  (maxRequests <= c)%Z ->
  checkRateLimit now id (Some maxRequests) (Some windowMs) m = (false, m).
Proof.
  intros Hsome Hwithin Hfull. unfold checkRateLimit. rewrite Hsome.
  cbn -[Z.ltb Z.leb Z.add].
  apply Z.ltb_ge in Hwithin. rewrite Hwithin.
  apply Z.leb_le in Hfull. rewrite Hfull. reflexivity.
Qed.

(** C9. For an identifier not seen before and a limit of 5, the first
    five calls within the window (not after its reset time) are allowed
    and the sixth is denied; once the window has elapsed
    ([now > resetTime]), the next call is allowed again and replaces the
    entry by a fresh one with count 1. *)
Theorem checkRateLimit_five_per_window
    (m : gmap string RateLimitEntry) id windowMs t1 t2 t3 t4 t5 t6 t7 :
  m !! id = None ->
  (t2 <= t1 + windowMs)%Z -> (t3 <= t1 + windowMs)%Z ->
  (t4 <= t1 + windowMs)%Z -> (t5 <= t1 + windowMs)%Z ->
  (t6 <= t1 + windowMs)%Z ->
  (t1 + windowMs < t7)%Z ->
  fst (successiveCalls [t1; t2; t3; t4; t5; t6] id (Some 5%Z) (Some windowMs) m)
  = [true; true; true; true; true; false]
  /\ checkRateLimit t7 id (Some 5%Z) (Some windowMs)
       (snd (successiveCalls [t1; t2; t3; t4; t5; t6] id
               (Some 5%Z) (Some windowMs) m))
     = (true,
        <[id := {| count := 1; resetTime := t7 + windowMs |}]>
          (snd (successiveCalls [t1; t2; t3; t4; t5; t6] id
                  (Some 5%Z) (Some windowMs) m))).
Proof.
  intros Hnone H2 H3 H4 H5 H6 H7.
  cbn [successiveCalls].
  rewrite (checkRateLimit_fresh t1 id 5 windowMs m Hnone).
  do 4 (erewrite checkRateLimit_within;
          [| apply lookup_insert_eq | assumption | lia ]).
  erewrite checkRateLimit_exhausted;
    [| apply lookup_insert_eq | assumption | lia ].
  cbn [fst snd]. split; [reflexivity |].
  erewrite checkRateLimit_expired; [reflexivity | apply lookup_insert_eq |].
  cbn [resetTime]. exact H7.
Qed.

End RateLimitProperties.

(** ** The invocation cleanup *)

Section CleanupProperties.
Import JS Eff LambdaCleanup.

Variable execAsync : nat -> string -> settled (string * string).

Ltac eff :=
  unfold bind, ret, throw, gets, modify, tryCatch, await in *; cbn beta iota in *.

(** A git command touches nothing but the record of executed commands. *)
Lemma executeGitCommand_state command w :
  snd (executeGitCommand execAsync command w)
  = {| secrets := secrets w; monitoring := monitoring w;
       executed := executed w ++ [command] |}.
Proof.
  unfold executeGitCommand, execAsync_call. eff.
  destruct (execAsync (length (executed w)) command) as [[stdout stderr] | e];
    cbn; [| reflexivity].
  destruct (nonEmpty stderr && negb (includes stderr "warning:")); reflexivity.
Qed.

(** [resetGitState] completes normally whatever the git commands do, and
    leaves both caches alone. *)
Lemma resetGitState_effect w :
  fst (resetGitState execAsync w) = inl tt
  /\ secrets (snd (resetGitState execAsync w)) = secrets w
  /\ monitoring (snd (resetGitState execAsync w)) = monitoring w.
Proof.
  unfold resetGitState. eff.
  pose proof (executeGitCommand_state "git rev-parse --git-dir" w) as H1.
  destruct (executeGitCommand execAsync "git rev-parse --git-dir" w)
    as [[out1 | e1] w1]; cbn in H1; subst w1; cbn; [| auto].
  match goal with
  | |- context [executeGitCommand execAsync "git reset --hard HEAD" ?w0] =>
      pose proof (executeGitCommand_state "git reset --hard HEAD" w0) as H2;
      destruct (executeGitCommand execAsync "git reset --hard HEAD" w0)
        as [[out2 | e2] w2]; cbn in H2; subst w2; cbn
  end;
  match goal with
  | |- context [executeGitCommand execAsync "git clean -fd" ?w0] =>
      pose proof (executeGitCommand_state "git clean -fd" w0) as H3;
      destruct (executeGitCommand execAsync "git clean -fd" w0)
        as [[out3 | e3] w3]; cbn in H3; subst w3; cbn
  end; auto.
Qed.

(** What the cleanup achieves on any world: it completes normally, the
    secrets cache is empty, [global.metricsCache] (if set) names an empty
    array -- and the batch of the metrics module, the array that the
    module variable names, is what it was before. *)
Lemma cleanupLambdaState_effect w :
  Monitoring.metricsCache (monitoring w)
    ∈ dom (Monitoring.arrays (monitoring w)) ->
  fst (cleanupLambdaState execAsync w) = inl tt
  /\ SecretsCache.secretsCache (secrets (snd (cleanupLambdaState execAsync w))) = ∅
  /\ Monitoring.batch (monitoring (snd (cleanupLambdaState execAsync w)))
     = Monitoring.batch (monitoring w)
  /\ (forall r,
        Monitoring.globalMetricsCache
          (monitoring (snd (cleanupLambdaState execAsync w))) = Some r ->
        Monitoring.deref (monitoring (snd (cleanupLambdaState execAsync w))) r = []).
Proof.
  intros Hallocated.
  unfold cleanupLambdaState, zoom, SecretsCache.clearSecretsCache. eff.
  cbn -[resetGitState].
  destruct (Monitoring.globalMetricsCache (monitoring w)) as [r0 |] eqn:Hglobal;
    cbn -[resetGitState].
  - match goal with
    | |- context [resetGitState execAsync ?w0] =>
        destruct (resetGitState_effect w0) as (Hok & Hsecrets & Hmonitoring);
        destruct (resetGitState execAsync w0) as [[[] | e] w'];
        cbn in Hok, Hsecrets, Hmonitoring; [| discriminate Hok]
    end.
    cbn. rewrite Hsecrets, Hmonitoring. cbn.
    split; [reflexivity |]. split; [reflexivity |]. split.
    + unfold Monitoring.batch, Monitoring.deref, Monitoring.assignEmptyToGlobal.
      cbn. rewrite lookup_insert_ne; [reflexivity |].
      intros Heq. rewrite <- Heq in Hallocated.
      exact (is_fresh _ Hallocated).
    + intros r Hr. injection Hr as <-.
      unfold Monitoring.deref, Monitoring.assignEmptyToGlobal. cbn.
      rewrite lookup_insert_eq. reflexivity.
  - match goal with
    | |- context [resetGitState execAsync ?w0] =>
        destruct (resetGitState_effect w0) as (Hok & Hsecrets & Hmonitoring);
        destruct (resetGitState execAsync w0) as [[[] | e] w'];
        cbn in Hok, Hsecrets, Hmonitoring; [| discriminate Hok]
    end.
    cbn. rewrite Hsecrets, Hmonitoring. cbn.
    split; [reflexivity |]. split; [reflexivity |]. split; [reflexivity |].
    intros r Hr. rewrite Hglobal in Hr. discriminate Hr.
Qed.

End CleanupProperties.

(** ** The properties on the concrete runs *)

Section ConcreteRuns.
Import JS Scenario.

(** *** Secrets cache *)

Lemma getCachedSecrets_fetch_count_witness :
  SecretsCache.getCachedSecrets storeUp (parsesTo completeSecrets) true
    (t0 + 1000) secretName (Some 300000%Z) cachedAtT0
  = (inl completeSecrets, cachedAtT0)
  /\ SecretsCache.sent
       (snd (SecretsCache.getCachedSecrets storeUp (parsesTo completeSecrets)
               true (t0 + 300000) secretName (Some 300000%Z) cachedAtT0))
     = SecretsCache.sent SecretsCache.emptyState ++ [secretName; secretName].
Proof.
  apply (getCachedSecrets_fetch_count storeUp (parsesTo completeSecrets) true
           t0 (t0 + 1000) (t0 + 300000) secretName 300000
           SecretsCache.emptyState completeSecrets cachedAtT0).
  - vm_compute. reflexivity.
  - reflexivity.
  - unfold t0. lia.
  - unfold t0. lia.
Defined.

Lemma cachedAtT0_expired :
  forall c,
    SecretsCache.secretsCache cachedAtT0 !! secretName = Some c ->
    (SecretsCache.ttl c <= t0 + 300000 - SecretsCache.timestamp c)%Z.
Proof.
  intros c Hc. vm_compute in Hc. injection Hc as <-.
  unfold t0. simpl. lia.
Defined.

Lemma getCachedSecrets_failure_witness :
  (exists f v,
      f ∈ SecretsCache.requiredFields
      /\ SecretsCache.getProperty incompleteSecrets f = inl v
      /\ SecretsCache.truthyValue v = false
      /\ SecretsCache.getCachedSecrets storeUp (parsesTo incompleteSecrets) true
           (t0 + 300000) secretName None cachedAtT0
         = SecretsCache.failedFetch secretName
             ("Missing required secret field: " +:+ f) cachedAtT0)
  /\ SecretsCache.getCachedSecrets storeDown (parsesTo completeSecrets) true
       (t0 + 300000) secretName None cachedAtT0
     = SecretsCache.failedFetch secretName "Service unavailable" cachedAtT0
  /\ (SecretsCache.secretsCache
        (snd (SecretsCache.failedFetch secretName "Service unavailable" cachedAtT0))
      = SecretsCache.secretsCache cachedAtT0
      /\ forall now' ttl',
           (t0 + 300000 <= now')%Z ->
           SecretsCache.sent
             (snd (SecretsCache.getCachedSecrets storeDown
                     (parsesTo completeSecrets) true now' secretName ttl'
                     (snd (SecretsCache.failedFetch secretName
                             "Service unavailable" cachedAtT0))))
           = SecretsCache.sent
               (snd (SecretsCache.failedFetch secretName
                       "Service unavailable" cachedAtT0))
             ++ [secretName]).
Proof.
  split; [| split].
  - apply (proj1 (getCachedSecrets_failure storeUp (parsesTo incompleteSecrets)
                    true (t0 + 300000) secretName None cachedAtT0
                    cachedAtT0_expired)
             "{secret}" incompleteSecrets).
    + reflexivity.
    + reflexivity.
    + reflexivity.
    + exists "githubToken", None.
      split; [| split; reflexivity].
      apply elem_of_cons. right. apply elem_of_cons. right.
      apply elem_of_cons. left. reflexivity.
  - apply (proj1 (proj2 (getCachedSecrets_failure storeDown
                           (parsesTo completeSecrets) true (t0 + 300000)
                           secretName None cachedAtT0 cachedAtT0_expired))
             (ErrorObject "ServiceUnavailableException" "Service unavailable" None)).
    reflexivity.
  - apply (proj2 (proj2 (getCachedSecrets_failure storeDown
                           (parsesTo completeSecrets) true (t0 + 300000)
                           secretName None cachedAtT0 cachedAtT0_expired))
             (newError "Failed to retrieve secrets: Service unavailable")).
    vm_compute. reflexivity.
Defined.


(** *** Metrics batcher *)

Lemma sendBatchedMetrics_flush_witness :
  fst (Monitoring.sendBatchedMetrics cloudWatchUp (t0 + 60000) (t0 + 60001)
         "daily-commit" oneWaiting) = inl tt
  /\ Monitoring.batch
       (snd (Monitoring.sendBatchedMetrics cloudWatchUp (t0 + 60000) (t0 + 60001)
               "daily-commit" oneWaiting)) = []
  /\ Monitoring.sentCommands
       (snd (Monitoring.sendBatchedMetrics cloudWatchUp (t0 + 60000) (t0 + 60001)
               "daily-commit" oneWaiting))
     = Monitoring.sentCommands oneWaiting
       ++ [Monitoring.putMetricDataCommand "daily-commit"
             (Monitoring.batch oneWaiting) (t0 + 60000)]
  /\ Monitoring.lastMetricsSend
       (snd (Monitoring.sendBatchedMetrics cloudWatchUp (t0 + 60000) (t0 + 60001)
               "daily-commit" oneWaiting))
     = (t0 + 60001)%Z
  /\ Monitoring.lastMetricsSend
       (snd (Monitoring.sendBatchedMetrics cloudWatchDown (t0 + 60000) (t0 + 60001)
               "daily-commit" oneWaiting))
     = Monitoring.lastMetricsSend oneWaiting.
Proof.
  assert (Hwaiting : Monitoring.batch oneWaiting <> []).
  { vm_compute. discriminate. }
  destruct (sendBatchedMetrics_flush cloudWatchUp (t0 + 60000) (t0 + 60001)
              "daily-commit" oneWaiting Hwaiting)
    as (Hok & Hempty & Hsent & Hresolved & _).
  destruct (sendBatchedMetrics_flush cloudWatchDown (t0 + 60000) (t0 + 60001)
              "daily-commit" oneWaiting Hwaiting)
    as (_ & _ & _ & _ & Hrejected).
  split; [exact Hok |]. split; [exact Hempty |]. split; [exact Hsent |].
  split.
  - apply (Hresolved tt). reflexivity.
  - apply (Hrejected (newError "CloudWatch error")). reflexivity.
Defined.

(** C2 as stated fails: when the transmission fails, the batch is cleared
    but [lastMetricsSend] stays at its previous value ([t0]) instead of
    becoming the current time. *)
Lemma sendBatchedMetrics_sets_time_counterexample :
  Monitoring.batch oneWaiting <> []
  /\ Monitoring.batch
       (snd (Monitoring.sendBatchedMetrics cloudWatchDown (t0 + 60000) (t0 + 60001)
               "daily-commit" oneWaiting)) = []
  /\ Monitoring.lastMetricsSend
       (snd (Monitoring.sendBatchedMetrics cloudWatchDown (t0 + 60000) (t0 + 60001)
               "daily-commit" oneWaiting)) = t0
  /\ Monitoring.lastMetricsSend
       (snd (Monitoring.sendBatchedMetrics cloudWatchDown (t0 + 60000) (t0 + 60001)
               "daily-commit" oneWaiting)) <> (t0 + 60001)%Z.
Proof.
  split; [vm_compute; discriminate |].
  split; [vm_compute; reflexivity |].
  split; [vm_compute; reflexivity |].
  vm_compute. discriminate.
Qed.

Lemma sendOptimizedMetrics_threshold_flush_witness :
  fst (Monitoring.sendOptimizedMetrics production cloudWatchUp
         (t0 + 60000) (t0 + 60000) (t0 + 60001) (succeeded 900) None nineWaiting)
  = inl tt
  /\ Monitoring.batch
       (snd (Monitoring.sendOptimizedMetrics production cloudWatchUp
               (t0 + 60000) (t0 + 60000) (t0 + 60001) (succeeded 900) None
               nineWaiting)) = []
  /\ Monitoring.sentCommands
       (snd (Monitoring.sendOptimizedMetrics production cloudWatchUp
               (t0 + 60000) (t0 + 60000) (t0 + 60001) (succeeded 900) None
               nineWaiting))
     = Monitoring.sentCommands nineWaiting
       ++ [Monitoring.putMetricDataCommand (default "daily-commit" None)
             (Monitoring.batch nineWaiting ++ [succeeded 900]) (t0 + 60000)]
  /\ Monitoring.totalExecutions
       (Monitoring.aggregate (Monitoring.batch nineWaiting ++ [succeeded 900]))
     = Monitoring.METRICS_BATCH_SIZE production
  /\ Monitoring.MetricData
       (Monitoring.putMetricDataCommand (default "daily-commit" None)
          (Monitoring.batch nineWaiting ++ [succeeded 900]) (t0 + 60000)) !! 0%nat
     = Some {| Monitoring.MetricName := "TotalExecutions";
               Monitoring.Value := inject_Z (Monitoring.METRICS_BATCH_SIZE production);
               Monitoring.Unit := Monitoring.Count;
               Monitoring.Timestamp := (t0 + 60000)%Z |}.
Proof.
  apply (sendOptimizedMetrics_threshold_flush production cloudWatchUp
           (t0 + 60000) (t0 + 60000) (t0 + 60001) (succeeded 900) None
           nineWaiting).
  vm_compute. reflexivity.
Defined.

(** *** Rate limiter *)

Lemma checkRateLimit_five_per_window_witness :
  fst (Validation.successiveCalls
         [t0; t0 + 100; t0 + 200; t0 + 300; t0 + 400; t0 + 1000]%Z
         "203.0.113.7" (Some 5%Z) (Some 1000%Z) ∅)
  = [true; true; true; true; true; false]
  /\ Validation.checkRateLimit (t0 + 1001) "203.0.113.7" (Some 5%Z) (Some 1000%Z)
       (snd (Validation.successiveCalls
               [t0; t0 + 100; t0 + 200; t0 + 300; t0 + 400; t0 + 1000]%Z
               "203.0.113.7" (Some 5%Z) (Some 1000%Z) ∅))
     = (true,
        <["203.0.113.7" := {| Validation.count := 1;
                              Validation.resetTime := t0 + 1001 + 1000 |}]>
          (snd (Validation.successiveCalls
                  [t0; t0 + 100; t0 + 200; t0 + 300; t0 + 400; t0 + 1000]%Z
                  "203.0.113.7" (Some 5%Z) (Some 1000%Z) ∅))).
Proof.
  apply (checkRateLimit_five_per_window ∅ "203.0.113.7" 1000
           t0 (t0 + 100) (t0 + 200) (t0 + 300) (t0 + 400) (t0 + 1000)
           (t0 + 1001)).
  - reflexivity.
  - lia.
  - lia.
  - lia.
  - lia.
  - lia.
  - lia.
Defined.

(** *** Cleanup *)

(** C1, on a warm execution environment whose checkout is broken. The
    cleanup completes normally and empties the secrets cache, and
    [global.metricsCache] names a new empty array; but the record that
    waits in the batch of the metrics module is still there: the module
    variable names another array than the property of [global], and the
    assignment to the property does not reach it. *)
Theorem cleanupLambdaState_keeps_batch :
  size (SecretsCache.secretsCache (LambdaCleanup.secrets warm)) = 1%nat
  /\ Monitoring.batch (LambdaCleanup.monitoring warm) = [succeeded 1200]
  /\ fst (LambdaCleanup.cleanupLambdaState gitBroken warm) = inl tt
  /\ SecretsCache.secretsCache
       (LambdaCleanup.secrets (snd (LambdaCleanup.cleanupLambdaState gitBroken warm)))
     = ∅
  /\ (Monitoring.deref
        (LambdaCleanup.monitoring
           (snd (LambdaCleanup.cleanupLambdaState gitBroken warm)))
      <$> Monitoring.globalMetricsCache
            (LambdaCleanup.monitoring
               (snd (LambdaCleanup.cleanupLambdaState gitBroken warm))))
     = Some []
  /\ Monitoring.batch
       (LambdaCleanup.monitoring
          (snd (LambdaCleanup.cleanupLambdaState gitBroken warm)))
     = [succeeded 1200].
Proof. vm_compute. repeat split; reflexivity. Qed.

End ConcreteRuns.

(** * Further properties

    Behaviour of the same modules beyond the stated claims, and of the
    functions around them. *)

(** ** The retry executor *)

Section RetryBehaviour.
Import JS Retry.
Context {T : Type}.
Variable Math_pow : number -> number -> number.
Variable fn : nat -> settled T.
Variable random : nat -> number.
Variable config : RetryConfig.
Variable context : string.

(** [k] retryable failures in a row, with attempts to spare, take the
    loop [k] rounds further and add the [k] delays of the schedule. *)
Lemma loop_retries (k : nat) :
  forall fuel lastError calls slept,
    (forall i, (i < k)%nat ->
       exists e, fn (calls + i)%nat = Rejected e /\ isRetryableError e = true) ->
    (Z.of_nat (calls + k) < maxAttempts config)%Z ->
    (k <= fuel)%nat ->
    exists lastError',
      loop Math_pow fn random config context fuel (Z.of_nat calls) lastError calls slept
      = loop Math_pow fn random config context (fuel - k) (Z.of_nat (calls + k))
          lastError' (calls + k)%nat (slept ++ schedule Math_pow config random calls k).
Proof.
  induction k as [| k IH]; intros fuel lastError calls slept Hfail Hroom Hfuel.
  - exists lastError. rewrite Nat.sub_0_r, Nat.add_0_r.
    unfold schedule. cbn [seq map]. rewrite app_nil_r. reflexivity.
  - destruct fuel as [| fuel]; [lia |].
    destruct (Hfail 0%nat ltac:(lia)) as (e & Hcall & Hretry).
    rewrite Nat.add_0_r in Hcall.
    destruct (IH fuel (Some e) (S calls)
                (slept ++ [calculateDelay Math_pow (ofZ (Z.of_nat calls)) config (random calls)]))
      as (lastError' & Hrest).
    + intros i Hi. destruct (Hfail (S i) ltac:(lia)) as (e' & He' & Hr').
      exists e'. split; [| exact Hr'].
      rewrite <- He'. f_equal. lia.
    + replace (S calls + k)%nat with (calls + S k)%nat by lia. exact Hroom.
    + lia.
    + exists lastError'.
      cbn [loop].
      replace (Z.of_nat calls <? maxAttempts config)%Z with true
        by (symmetry; apply Z.ltb_lt; lia).
      rewrite Hcall.
      replace (Z.of_nat calls =? maxAttempts config - 1)%Z with false
        by (symmetry; apply Z.eqb_neq; lia).
      rewrite Hretry. cbn [negb].
      replace (Z.of_nat calls + 1)%Z with (Z.of_nat (S calls)) by lia.
      rewrite Hrest.
      replace (S calls + k)%nat with (calls + S k)%nat by lia.
      replace (S fuel - S k)%nat with (fuel - k)%nat by lia.
      unfold schedule. cbn [seq map].
      rewrite <- app_assoc. reflexivity.
Qed.

(** X1. If the first [k] calls fail with retryable errors, [k] is below
    [maxAttempts] and the next call succeeds, then [withRetry] returns
    that call's value after exactly [k + 1] calls, having slept the
    backoff delays of attempts [0 .. k-1] in order. *)
Theorem withRetry_succeeds_after_retries (k : nat) (v : T) :
  (Z.of_nat k < maxAttempts config)%Z ->
  (forall i, (i < k)%nat ->
     exists e, fn i = Rejected e /\ isRetryableError e = true) ->
  fn k = Resolved v ->
  withRetry Math_pow fn random config context
  = Some {| outcome := Resolved v;
            invocations := S k;
            sleeps := schedule Math_pow config random 0 k |}.
Proof.
  intros Hroom Hfail Hok. unfold withRetry.
  destruct (loop_retries k (Z.to_nat (maxAttempts config)) None 0%nat [])
    as (lastError' & Hloop); [exact Hfail | simpl; lia | lia |].
  change 0%Z with (Z.of_nat 0). rewrite Hloop. cbn [Nat.add app].
  destruct (Z.to_nat (maxAttempts config) - k)%nat as [| fuel] eqn:Hfuel; [lia |].
  cbn [loop].
  replace (Z.of_nat k <? maxAttempts config)%Z with true
    by (symmetry; apply Z.ltb_lt; lia).
  rewrite Hok. reflexivity.
Qed.

(** X2. If every call but the last fails with a retryable error and the
    last of the [maxAttempts] calls fails too (retryable or not), then
    [withRetry] calls the operation exactly [maxAttempts] times, sleeps
    [maxAttempts - 1] times -- not after the last failure -- and throws
    the failure message built from the last error. *)
Theorem withRetry_exhausts (e : thrown) :
  (1 <= maxAttempts config)%Z ->
  (forall i, (i < Z.to_nat (maxAttempts config) - 1)%nat ->
     exists e', fn i = Rejected e' /\ isRetryableError e' = true) ->
  fn (Z.to_nat (maxAttempts config) - 1)%nat = Rejected e ->
  withRetry Math_pow fn random config context
  = Some {| outcome :=
              Rejected (newError
                (failureMessage context (maxAttempts config) (Some e)));
            invocations := Z.to_nat (maxAttempts config);
            sleeps := schedule Math_pow config random 0
                        (Z.to_nat (maxAttempts config) - 1) |}.
Proof.
  intros Hmax Hfail Hlast. unfold withRetry.
  set (n := (Z.to_nat (maxAttempts config) - 1)%nat) in *.
  destruct (loop_retries n (Z.to_nat (maxAttempts config)) None 0%nat [])
    as (lastError' & Hloop); [exact Hfail | simpl; lia | lia |].
  change 0%Z with (Z.of_nat 0). rewrite Hloop. cbn [Nat.add app].
  replace (Z.to_nat (maxAttempts config) - n)%nat with 1%nat by lia.
  cbn [loop].
  replace (Z.of_nat n <? maxAttempts config)%Z with true
    by (symmetry; apply Z.ltb_lt; lia).
  rewrite Hlast.
  replace (Z.of_nat n =? maxAttempts config - 1)%Z with true
    by (symmetry; apply Z.eqb_eq; lia).
  unfold throwAfterLoop. repeat f_equal. lia.
Qed.

(** The loop keeps one delay per call made before the current one, and
    stops calling at [maxAttempts]. *)
Lemma loop_bounds (fuel : nat) :
  forall lastError calls slept r,
    length slept = calls ->
    (calls = 0%nat \/ Z.of_nat calls < maxAttempts config)%Z ->
    loop Math_pow fn random config context fuel (Z.of_nat calls) lastError calls slept = Some r ->
    (Z.of_nat (invocations r) <= Z.max 0 (maxAttempts config))%Z
    /\ length (sleeps r) = pred (invocations r).
Proof.
  induction fuel as [| fuel IH]; intros lastError calls slept r Hlen Hhead Hrun;
    cbn [loop] in Hrun;
    destruct (Z.of_nat calls <? maxAttempts config)%Z eqn:Hlt;
    try discriminate.
  - injection Hrun as <-. cbn. apply Z.ltb_ge in Hlt.
    destruct Hhead as [-> | Hhead]; [| lia].
    destruct slept; [| discriminate]. split; [lia | reflexivity].
  - apply Z.ltb_lt in Hlt.
    destruct (fn calls) as [v | e].
    + injection Hrun as <-. cbn. split; [lia | exact Hlen].
    + destruct (Z.of_nat calls =? maxAttempts config - 1)%Z eqn:Hlast.
      * injection Hrun as <-. cbn. split; [lia | exact Hlen].
      * destruct (negb (isRetryableError e)).
        -- injection Hrun as <-. cbn. split; [lia | exact Hlen].
        -- apply Z.eqb_neq in Hlast.
           replace (Z.of_nat calls + 1)%Z with (Z.of_nat (S calls)) in Hrun by lia.
           apply IH in Hrun; [exact Hrun | | right; lia].
           rewrite length_app. cbn. lia.
  - injection Hrun as <-. cbn. apply Z.ltb_ge in Hlt.
    destruct Hhead as [-> | Hhead]; [| lia].
    destruct slept; [| discriminate]. split; [lia | reflexivity].
Qed.

(** X3. Whatever the operation does, [withRetry] returns or throws after
    at most [maxAttempts] calls (none if [maxAttempts] is not positive),
    and it sleeps exactly once between two consecutive calls: one delay
    fewer than calls. *)
Theorem withRetry_bounds :
  exists r,
    withRetry Math_pow fn random config context = Some r
    /\ (Z.of_nat (invocations r) <= Z.max 0 (maxAttempts config))%Z
    /\ length (sleeps r) = pred (invocations r).
Proof.
  destruct (withRetry_total Math_pow fn random config context) as [r Hr].
  exists r. split; [exact Hr |].
  unfold withRetry in Hr. change 0%Z with (Z.of_nat 0) in Hr.
  apply (loop_bounds (Z.to_nat (maxAttempts config)) None 0%nat [] r);
    [reflexivity | left; reflexivity | exact Hr].
Qed.

End RetryBehaviour.

Section BackoffRange.
Import JS Retry.

(** X4. Without jitter, with a whole-number base and cap and a
    multiplier [m / 2^k] of at least 1, while the numerators involved stay
    below [2^53] and [Math.pow] returns the powers exactly: the delay is a
    whole number that never decreases from an attempt to a later one,
    never exceeds [maxDelayMs], and is [maxDelayMs] once the uncapped
    delay has reached it. *)
Theorem calculateDelay_monotone Math_pow (a a' b m k M : Z) (p : RetryConfig)
    (random random' : number) :
  jitter p = false ->
  baseDelayMs p = ofZ b -> backoffMultiplier p = scaled m k ->
  maxDelayMs p = ofZ M ->
  (0 <= a <= a')%Z -> (0 <= b < 2 ^ 53)%Z ->
  (0 <= k)%Z -> (k * a' <= 1021)%Z -> (2 ^ k <= m)%Z ->
  (m ^ a' < 2 ^ 53)%Z -> (b * m ^ a' < 2 ^ 53)%Z -> (0 <= M < 2 ^ 53)%Z ->
  Math_pow (scaled m k) (ofZ a) = scaled (m ^ a) (k * a) ->
  Math_pow (scaled m k) (ofZ a') = scaled (m ^ a') (k * a') ->
  exists d d' : Z,
    calculateDelay Math_pow (ofZ a) p random = ofZ d
    /\ calculateDelay Math_pow (ofZ a') p random' = ofZ d'
    /\ (0 <= d <= d')%Z /\ (d' <= M)%Z
    /\ (M * 2 ^ (k * a) <= b * m ^ a -> d = M /\ d' = M)%Z.
Proof.
  intros Hjitter Hb Hm HM Ha Hbr Hk Hka Hm1 Hpr Hprod HMr Hpow Hpow'.
  assert (H2k : (0 < 2 ^ k)%Z) by (apply Z.pow_pos_nonneg; lia).
  assert (Hmono : (m ^ a <= m ^ a')%Z) by (apply Z.pow_le_mono_r; lia).
  assert (Hpos : (0 < m ^ a)%Z) by (apply Z.pow_pos_nonneg; lia).
  assert (HD : (0 < 2 ^ (k * a))%Z) by (apply Z.pow_pos_nonneg; lia).
  assert (HJ : (0 < 2 ^ (k * (a' - a)))%Z) by (apply Z.pow_pos_nonneg; nia).
  assert (Hgrow : (b * m ^ a / 2 ^ (k * a) <= b * m ^ a' / 2 ^ (k * a'))%Z).
  { replace a' with (a + (a' - a))%Z at 1 2 by lia.
    rewrite Z.mul_add_distr_l, !Z.pow_add_r by nia.
    assert (Hstep : (2 ^ (k * (a' - a)) <= m ^ (a' - a))%Z).
    { rewrite Z.pow_mul_r by lia. apply Z.pow_le_mono_l. lia. }
    rewrite <- (Z.div_mul_cancel_r (b * m ^ a) (2 ^ (k * a))
                  (2 ^ (k * (a' - a)))) by lia.
    apply Z.div_le_mono; nia. }
  assert (Hfloor : (0 <= b * m ^ a / 2 ^ (k * a))%Z)
    by (apply Z.div_pos; nia).
  exists (Z.min (b * m ^ a / 2 ^ (k * a)) M), (Z.min (b * m ^ a' / 2 ^ (k * a')) M).
  split; [| split].
  - apply calculateDelay_dyadic; try assumption; nia.
  - apply calculateDelay_dyadic; try assumption; lia.
  - split; [lia |]. split; [lia |].
    intros Hcap.
    assert (M <= b * m ^ a / 2 ^ (k * a))%Z
      by (apply Z.div_le_lower_bound; lia).
    lia.
Qed.

End BackoffRange.

Section ErrorClassification.
Import JS Retry.

Lemma prefix_app (sub s : string) :
  String.prefix sub s = true <-> exists b, s = sub +:+ b.
Proof.
  revert s. induction sub as [| c sub IH]; intros s; simpl.
  - split; [intros _; exists s; reflexivity | intros _; destruct s; reflexivity].
  - destruct s as [| d s]; simpl.
    + split; [discriminate | intros [b Hb]; discriminate].
    + destruct (Ascii.ascii_dec c d) as [-> | Hne].
      * rewrite IH. split; intros [b Hb]; exists b.
        -- rewrite Hb. reflexivity.
        -- simpl in Hb. injection Hb as ->. reflexivity.
      * split; [discriminate |]. intros [b Hb]. simpl in Hb.
        injection Hb as <- _. contradiction.
Qed.

(** [includes] finds exactly the strings that contain [sub]. *)
Lemma includes_spec (s sub : string) :
  includes s sub = true <-> exists a b, s = a +:+ sub +:+ b.
Proof.
  induction s as [| c s IH]; cbn [includes].
  - destruct (String.prefix sub "") eqn:Hp.
    + apply prefix_app in Hp as [b Hb].
      split; [intros _; exists "", b; exact Hb | reflexivity].
    + split; [discriminate |]. intros (a & b & Hab).
      destruct a; [| discriminate]. simpl in Hab.
      assert (String.prefix sub "" = true) by (apply prefix_app; eauto).
      congruence.
  - destruct (String.prefix sub (String c s)) eqn:Hp.
    + apply prefix_app in Hp as [b Hb].
      split; [intros _; exists "", b; exact Hb | reflexivity].
    + rewrite IH. split.
      * intros (a & b & ->). exists (String c a), b. reflexivity.
      * intros (a & b & Hab). destruct a as [| c' a]; simpl in Hab.
        -- assert (String.prefix sub (String c s) = true)
             by (apply prefix_app; eauto).
           congruence.
        -- injection Hab as _ ->. eauto.
Qed.

(** X5. A thrown value is classified as retryable exactly when it is
    truthy and one of the eight listed codes occurs somewhere in its
    message (or string form) or equals its code (or, failing that, its
    name); [undefined] and the empty string are never retryable. *)
Theorem isRetryableError_iff (error : thrown) :
  isRetryableError error = true
  <-> truthy error = true
      /\ exists code,
           code ∈ RETRYABLE_ERRORS
           /\ ((exists a b, messageOrString error = a +:+ code +:+ b)
               \/ codeOrName error = Some code).
Proof.
  unfold isRetryableError.
  destruct (truthy error); cbn [negb].
  2: { split; [discriminate | intros [H _]; discriminate]. }
  rewrite existsb_exists. split.
  - intros (code & Hin & Hmatch). split; [reflexivity |].
    exists code. split; [apply list_elem_of_In; exact Hin |].
    apply orb_true_iff in Hmatch as [Hmsg | Hcode].
    + left. apply includes_spec. exact Hmsg.
    + right. unfold strictEq in Hcode.
      destruct (codeOrName error) as [x |]; [| discriminate].
      apply bool_decide_eq_true in Hcode. congruence.
  - intros (_ & code & Hin & Hmatch). exists code.
    split; [apply list_elem_of_In; exact Hin |].
    apply orb_true_iff. destruct Hmatch as [Hmsg | Hcode].
    + left. apply includes_spec. exact Hmsg.
    + right. rewrite Hcode. cbn. apply bool_decide_eq_true. reflexivity.
Qed.

End ErrorClassification.

(** ** The secrets cache *)

Section SecretsCacheBehaviour.
Import JS Eff SecretsCache.

Variable send : nat -> string -> settled (option string).
Variable JSON_parse : string -> json + thrown.
Variable isProduction : bool.

Lemma validateFields_passed secrets fields s s' :
  validateFields secrets fields s = (inl tt, s') ->
  forallb (fun field => match getProperty secrets field with
                        | inl x => truthyValue x
                        | inr _ => false
                        end) fields = true.
Proof.
  induction fields as [| f fields IH]; cbn [validateFields forallb];
    [reflexivity |].
  destruct (getProperty secrets f) as [x | e]; [| discriminate].
  destruct (truthyValue x); cbn [negb andb]; [exact IH | discriminate].
Qed.

Lemma fetchFresh_validated now key ttl0 s v s' :
  fetchFresh send JSON_parse now key ttl0 s = (inl v, s') ->
  hasRequiredFields v = true.
Proof.
  unfold fetchFresh, secretsClient_send, tryCatch, bind, await, ret, throw, modify.
  destruct (send (length (sent s)) key) as [[text |] | e]; cbn -[validateFields];
    try discriminate.
  destruct text as [| a text]; cbn -[validateFields]; [discriminate |].
  destruct (JSON_parse (String a text)) as [secrets | e]; cbn -[validateFields];
    [| discriminate].
  destruct (validateFields secrets requiredFields
              {| secretsCache := secretsCache s; sent := sent s ++ [key] |})
    as [[[] | e] s1] eqn:Hvalid; cbn; [| discriminate].
  intros Heq. injection Heq as <- _.
  exact (validateFields_passed _ _ _ _ Hvalid).
Qed.

Lemma getCachedSecrets_keeps_complete now key ttl0 s :
  complete s ->
  complete (snd (getCachedSecrets send JSON_parse isProduction now key ttl0 s))
  /\ forall v,
       fst (getCachedSecrets send JSON_parse isProduction now key ttl0 s) = inl v ->
       hasRequiredFields v = true.
Proof.
  intros Hcomplete.
  assert (Hfetch :
    forall t,
      complete (snd (fetchFresh send JSON_parse now key t s))
      /\ forall v, fst (fetchFresh send JSON_parse now key t s) = inl v ->
                   hasRequiredFields v = true).
  { intros t.
    pose proof (fetchFresh_effect send JSON_parse now key t s) as Heffect.
    pose proof (fetchFresh_validated now key t s) as Hvalid.
    destruct (fetchFresh send JSON_parse now key t s) as [[v | e] s'];
      destruct Heffect as [_ Hcache]; cbn [fst snd]; unfold complete.
    - specialize (Hvalid v s' eq_refl). rewrite Hcache. split.
      + apply map_Forall_insert_2; [exact Hvalid | exact Hcomplete].
      + intros v' Hv'. injection Hv' as <-. exact Hvalid.
    - rewrite Hcache. split; [exact Hcomplete | discriminate]. }
  unfold getCachedSecrets, bind, gets, ret. cbn beta iota.
  destruct (secretsCache s !! key) as [c |] eqn:Hc; [| apply Hfetch].
  destruct (now - timestamp c <? ttl c)%Z; [| apply Hfetch].
  cbn [fst snd]. split; [exact Hcomplete |].
  intros v Hv. injection Hv as <-. exact (Hcomplete key c Hc).
Qed.

(** X6. If every cached bundle is complete (as in the empty cache), then
    after any call of [getCachedSecrets], successful or not, every cached
    bundle is still complete, and a bundle that the call returns has all
    four required fields present and truthy. *)
Theorem getCachedSecrets_complete now key ttl0 s :
  complete s ->
  complete (snd (getCachedSecrets send JSON_parse isProduction now key ttl0 s))
  /\ forall v,
       fst (getCachedSecrets send JSON_parse isProduction now key ttl0 s) = inl v ->
       hasRequiredFields v = true.
Proof. exact (getCachedSecrets_keeps_complete now key ttl0 s). Qed.

(** X7. Clearing one (non-empty) secret name removes that entry only:
    the other entries are untouched, and the next call for the cleared
    name goes to the store whatever the time and ttl. *)
Theorem clearSecretsCache_one key s :
  nonEmpty key = true ->
  fst (clearSecretsCache (Some key) s) = inl tt
  /\ secretsCache (snd (clearSecretsCache (Some key) s)) !! key = None
  /\ (forall other,
        other <> key ->
        secretsCache (snd (clearSecretsCache (Some key) s)) !! other
        = secretsCache s !! other)
  /\ forall now ttl0,
       sent (snd (getCachedSecrets send JSON_parse isProduction now key ttl0
                    (snd (clearSecretsCache (Some key) s))))
       = sent s ++ [key].
Proof.
  intros Hkey. destruct key as [| a key]; [discriminate |].
  unfold clearSecretsCache, modify. cbn [fst snd].
  split; [reflexivity |]. split; [apply lookup_delete_eq |].
  split; [intros other Hne; apply lookup_delete_ne; congruence |].
  intros now ttl0. rewrite getCachedSecrets_miss.
  - rewrite fetchFresh_sent. reflexivity.
  - cbn. intros c Hc. rewrite lookup_delete_eq in Hc. discriminate.
Qed.

(** X8. Clearing without a name -- or with the empty string, which the
    code treats like no name -- empties the whole cache: the statistics
    report size 0 and no keys, and the next call for any key goes to the
    store. *)
Theorem clearSecretsCache_all name s :
  name = None \/ name = Some "" ->
  fst (clearSecretsCache name s) = inl tt
  /\ secretsCache (snd (clearSecretsCache name s)) = ∅
  /\ getCacheStats (snd (clearSecretsCache name s)) = (0%nat, [])
  /\ forall now key ttl0,
       sent (snd (getCachedSecrets send JSON_parse isProduction now key ttl0
                    (snd (clearSecretsCache name s))))
       = sent s ++ [key].
Proof.
  intros [-> | ->]; unfold clearSecretsCache, modify, getCacheStats;
    cbn [fst snd secretsCache];
    (split; [reflexivity |]; split; [reflexivity |]; split;
     [rewrite map_size_empty, map_to_list_empty; reflexivity |];
     intros now key ttl0; rewrite getCachedSecrets_miss;
     [rewrite fetchFresh_sent; reflexivity
     | cbn; intros c Hc; rewrite lookup_empty in Hc; discriminate]).
Qed.

(** X9. The cache holds one entry per key: a call adds an entry only when
    it fetches a key that had none and the fetch succeeds; refreshing an
    expired key replaces its entry, and a cache hit or a failed call
    leaves the size as it was. *)
Theorem getCachedSecrets_size now key ttl0 s :
  size (secretsCache
          (snd (getCachedSecrets send JSON_parse isProduction now key ttl0 s)))
  = match secretsCache s !! key,
          fst (getCachedSecrets send JSON_parse isProduction now key ttl0 s) with
    | None, inl _ => S (size (secretsCache s))
    | _, _ => size (secretsCache s)
    end.
Proof.
  assert (Hfetch :
    forall t,
      size (secretsCache (snd (fetchFresh send JSON_parse now key t s)))
      = match secretsCache s !! key,
              fst (fetchFresh send JSON_parse now key t s) with
        | None, inl _ => S (size (secretsCache s))
        | _, _ => size (secretsCache s)
        end).
  { intros t.
    pose proof (fetchFresh_effect send JSON_parse now key t s) as Heffect.
    destruct (fetchFresh send JSON_parse now key t s) as [[v | e] s'];
      destruct Heffect as [_ Hcache]; cbn [fst snd]; rewrite Hcache.
    - destruct (secretsCache s !! key) as [c |] eqn:Hc.
      + apply map_size_insert_Some. rewrite Hc. eauto.
      + apply map_size_insert_None. exact Hc.
    - destruct (secretsCache s !! key); reflexivity. }
  unfold getCachedSecrets, bind, gets, ret. cbn beta iota.
  destruct (secretsCache s !! key) as [c |] eqn:Hc.
  - destruct (now - timestamp c <? ttl c)%Z.
    + reflexivity.
    + exact (Hfetch (default (DEFAULT_TTL isProduction) ttl0)).
  - exact (Hfetch (default (DEFAULT_TTL isProduction) ttl0)).
Qed.

(** Passing the default explicitly is the same as omitting the [ttl]. *)
Lemma getCachedSecrets_default_ttl now key ttl0 :
  getCachedSecrets send JSON_parse isProduction now key
    (Some (default (DEFAULT_TTL isProduction) ttl0))
  = getCachedSecrets send JSON_parse isProduction now key ttl0.
Proof. destruct ttl0; reflexivity. Qed.

(** X10. On a cache whose bundles are complete, [getCachedGitConfig]
    fails exactly when [getCachedSecrets] fails (same error, same state);
    when it succeeds, the four fields of the git configuration are the
    four required fields of the bundle, each present and truthy. *)
Theorem getCachedGitConfig_fields now key ttl0 s :
  complete s ->
  match getCachedSecrets send JSON_parse isProduction now key ttl0 s with
  | (inl v, s') =>
      exists g,
        getCachedGitConfig send JSON_parse isProduction now key ttl0 s
        = (inl g, s')
        /\ getProperty v "gitUserEmail" = inl (userEmail g)
        /\ getProperty v "gitUserName" = inl (userName g)
        /\ getProperty v "githubToken" = inl (token g)
        /\ getProperty v "repositoryUrl" = inl (repositoryUrl g)
        /\ truthyValue (userEmail g) = true
        /\ truthyValue (userName g) = true
        /\ truthyValue (token g) = true
        /\ truthyValue (repositoryUrl g) = true
  | (inr e, s') =>
      getCachedGitConfig send JSON_parse isProduction now key ttl0 s
      = (inr e, s')
  end.
Proof.
  intros Hcomplete.
  destruct (getCachedSecrets_keeps_complete now key ttl0 s Hcomplete) as [_ Hvalid].
  unfold getCachedGitConfig. cbv zeta.
  unfold bind. rewrite getCachedSecrets_default_ttl.
  destruct (getCachedSecrets send JSON_parse isProduction now key ttl0 s)
    as [[v | e] s']; [| reflexivity].
  specialize (Hvalid v eq_refl).
  unfold hasRequiredFields, requiredFields in Hvalid. cbn [forallb] in Hvalid.
  unfold secretsToGitConfig.
  destruct (getProperty v "gitUserEmail") as [x1 | ?]; [| discriminate].
  destruct (getProperty v "gitUserName") as [x2 | ?];
    [| rewrite andb_false_r in Hvalid; discriminate].
  destruct (getProperty v "githubToken") as [x3 | ?];
    [| rewrite !andb_false_r in Hvalid; discriminate].
  destruct (getProperty v "repositoryUrl") as [x4 | ?];
    [| cbn in Hvalid; rewrite !andb_false_r in Hvalid; discriminate].
  rewrite andb_true_r in Hvalid.
  apply andb_prop in Hvalid as [H1 Hvalid].
  apply andb_prop in Hvalid as [H2 Hvalid].
  apply andb_prop in Hvalid as [H3 H4].
  eexists. split; [reflexivity |]. cbn. repeat split; assumption.
Qed.

End SecretsCacheBehaviour.

(** ** The metrics batcher *)

Section MonitoringBehaviour.
Import JS Eff Monitoring.

Variable config : Config.LambdaConfig.
Variable send : nat -> PutMetricDataCommand -> settled unit.

(** How a record call runs: the push, then either nothing or the flush. *)
Lemma sendOptimizedMetrics_run now timestamp sentAt metrics functionName s :
  sendOptimizedMetrics config send now timestamp sentAt metrics functionName s
  = if (METRICS_BATCH_SIZE config <=? Z.of_nat (length (batch s ++ [metrics])))%Z
       || (METRICS_BATCH_TIMEOUT <? now - lastMetricsSend s)%Z
    then sendBatchedMetrics send timestamp sentAt
           (default "daily-commit" functionName) (push metrics s)
    else (inl tt, push metrics s).
Proof.
  assert (Hne : batch (push metrics s) <> []).
  { rewrite batch_push. destruct (batch s); discriminate. }
  destruct (sendBatchedMetrics_effect send timestamp sentAt
              (default "daily-commit" functionName) (push metrics s) Hne)
    as (Hok & _).
  unfold sendOptimizedMetrics.
  unfold tryCatch, bind at 1 2 3, modify at 1, gets. cbn beta iota.
  rewrite batch_push.
  change (lastMetricsSend (push metrics s)) with (lastMetricsSend s).
  destruct ((METRICS_BATCH_SIZE config <=? Z.of_nat (length (batch s ++ [metrics])))%Z
            || (METRICS_BATCH_TIMEOUT <? now - lastMetricsSend s)%Z);
    [| reflexivity].
  destruct (sendBatchedMetrics send timestamp sentAt
              (default "daily-commit" functionName) (push metrics s))
    as [[[] | e] s']; [reflexivity |].
  cbn in Hok. discriminate Hok.
Qed.

(** X11. A record that leaves the batch below [METRICS_BATCH_SIZE] while
    no more than five minutes have passed since the last successful send
    is only buffered: nothing is transmitted, the record is appended to
    the batch and [lastMetricsSend] stays as it is. *)
Theorem sendOptimizedMetrics_buffers now timestamp sentAt metrics functionName s :
  (Z.of_nat (length (batch s)) + 1 < METRICS_BATCH_SIZE config)%Z ->
  (now - lastMetricsSend s <= METRICS_BATCH_TIMEOUT)%Z ->
  sendOptimizedMetrics config send now timestamp sentAt metrics functionName s
  = (inl tt, push metrics s)
  /\ batch (push metrics s) = batch s ++ [metrics]
  /\ sentCommands (push metrics s) = sentCommands s
  /\ lastMetricsSend (push metrics s) = lastMetricsSend s.
Proof.
  intros Hroom Hrecent. rewrite sendOptimizedMetrics_run.
  replace (METRICS_BATCH_SIZE config <=? Z.of_nat (length (batch s ++ [metrics])))%Z
    with false
    by (symmetry; apply Z.leb_gt; rewrite length_app; cbn [length]; lia).
  replace (METRICS_BATCH_TIMEOUT <? now - lastMetricsSend s)%Z with false
    by (symmetry; apply Z.ltb_ge; exact Hrecent).
  cbn [orb]. split; [reflexivity |]. split; [apply batch_push |].
  split; reflexivity.
Qed.

(** X12. A record that arrives more than five minutes after the last
    successful send is flushed at once, however small the batch: exactly
    one command is transmitted, computed over the batch with the new
    record, and the batch is empty afterwards. *)
Theorem sendOptimizedMetrics_timeout_flush
    now timestamp sentAt metrics functionName s :
  (METRICS_BATCH_TIMEOUT < now - lastMetricsSend s)%Z ->
  fst (sendOptimizedMetrics config send now timestamp sentAt metrics functionName s)
  = inl tt
  /\ batch (snd (sendOptimizedMetrics config send now timestamp sentAt
                   metrics functionName s)) = []
  /\ sentCommands (snd (sendOptimizedMetrics config send now timestamp sentAt
                          metrics functionName s))
     = sentCommands s
       ++ [putMetricDataCommand (default "daily-commit" functionName)
             (batch s ++ [metrics]) timestamp].
Proof.
  intros Hlate. rewrite sendOptimizedMetrics_run.
  replace (METRICS_BATCH_TIMEOUT <? now - lastMetricsSend s)%Z with true
    by (symmetry; apply Z.ltb_lt; exact Hlate).
  rewrite orb_true_r.
  assert (Hne : batch (push metrics s) <> []).
  { rewrite batch_push. destruct (batch s); discriminate. }
  destruct (sendBatchedMetrics_effect send timestamp sentAt
              (default "daily-commit" functionName) (push metrics s) Hne)
    as (Hok & Hempty & Hsent & _).
  rewrite batch_push in Hsent.
  split; [exact Hok |]. split; [exact Hempty | exact Hsent].
Qed.

(** X13. A record call never throws, transmits at most one command, and
    bounds the batch: when it returns, the batch is either empty (it was
    flushed) or holds the previous records and the new one and is shorter
    than [METRICS_BATCH_SIZE]. *)
Theorem sendOptimizedMetrics_bounded now timestamp sentAt metrics functionName s :
  fst (sendOptimizedMetrics config send now timestamp sentAt metrics functionName s)
  = inl tt
  /\ (length (sentCommands
                (snd (sendOptimizedMetrics config send now timestamp sentAt
                        metrics functionName s)))
      <= S (length (sentCommands s)))%nat
  /\ (batch (snd (sendOptimizedMetrics config send now timestamp sentAt
                    metrics functionName s)) = []
      \/ (batch (snd (sendOptimizedMetrics config send now timestamp sentAt
                        metrics functionName s)) = batch s ++ [metrics]
          /\ (Z.of_nat (length (batch s ++ [metrics]))
              < METRICS_BATCH_SIZE config)%Z)).
Proof.
  rewrite sendOptimizedMetrics_run.
  destruct (METRICS_BATCH_SIZE config <=? Z.of_nat (length (batch s ++ [metrics])))%Z
    eqn:Hfull; cbn [orb].
  2: destruct (METRICS_BATCH_TIMEOUT <? now - lastMetricsSend s)%Z.
  3: { cbn [fst snd]. split; [reflexivity |]. split; [cbn; lia |].
       right. split; [apply batch_push |]. apply Z.leb_gt. exact Hfull. }
  all: assert (Hne : batch (push metrics s) <> [])
         by (rewrite batch_push; destruct (batch s); discriminate);
       destruct (sendBatchedMetrics_effect send timestamp sentAt
                   (default "daily-commit" functionName) (push metrics s) Hne)
         as (Hok & Hempty & Hsent & _);
       split; [exact Hok |]; split; [| left; exact Hempty];
       rewrite Hsent, length_app; cbn; lia.
Qed.

End MonitoringBehaviour.

Section AggregationBehaviour.
Import Monitoring.

Lemma filter_partition_length {A : Type} (f : A -> bool) (l : list A) :
  (length (List.filter f l) + length (List.filter (fun x => negb (f x)) l)
   = length l)%nat.
Proof.
  induction l as [| x l IH]; cbn [List.filter]; [reflexivity |].
  destruct (f x); cbn [negb length]; lia.
Qed.

Lemma filter_length_le {A : Type} (f : A -> bool) (l : list A) :
  (length (List.filter f l) <= length l)%nat.
Proof.
  induction l as [| x l IH]; cbn [List.filter]; [lia |].
  destruct (f x); cbn [length]; lia.
Qed.

(** A filter keeps the whole list exactly when every element passes. *)
Lemma filter_length_all {A : Type} (f : A -> bool) (l : list A) :
  length (List.filter f l) = length l <-> Forall (fun x => f x = true) l.
Proof.
  induction l as [| x l IH]; cbn [List.filter].
  - split; [constructor | reflexivity].
  - pose proof (filter_length_le f l) as Hle.
    destruct (f x) eqn:Hx; cbn [length]; split.
    + intros Hlen. constructor; [exact Hx |]. apply IH. lia.
    + intros Hall. inversion Hall; subst. f_equal. apply IH. assumption.
    + intros Hlen. lia.
    + intros Hall. inversion Hall; subst. congruence.
Qed.

Lemma filter_length_Permutation {A : Type} (f : A -> bool) (l l' : list A) :
  Permutation l l' -> length (List.filter f l) = length (List.filter f l').
Proof.
  induction 1 as [| x l l' _ IH | x y l | l l' l'' _ IH1 _ IH2];
    cbn [List.filter].
  - reflexivity.
  - destruct (f x); cbn [length]; congruence.
  - destruct (f x), (f y); reflexivity.
  - congruence.
Qed.

(** X14. The counts in the aggregate of a batch: the total is the number
    of records, successes and failures add up to it, all executions are
    counted as successful exactly when every record succeeded and as
    failed exactly when none did, and the three counts do not depend on
    the order of the records. *)
Theorem aggregate_consistent (cache : list OptimizedMetrics) :
  totalExecutions (aggregate cache) = Z.of_nat (length cache)
  /\ (successfulExecutions (aggregate cache) + failedExecutions (aggregate cache)
      = totalExecutions (aggregate cache))%Z
  /\ (successfulExecutions (aggregate cache) = totalExecutions (aggregate cache)
      <-> Forall (fun m => success m = true) cache)
  /\ (failedExecutions (aggregate cache) = totalExecutions (aggregate cache)
      <-> Forall (fun m => success m = false) cache)
  /\ forall cache',
       Permutation cache cache' ->
       totalExecutions (aggregate cache') = totalExecutions (aggregate cache)
       /\ successfulExecutions (aggregate cache')
          = successfulExecutions (aggregate cache)
       /\ failedExecutions (aggregate cache')
          = failedExecutions (aggregate cache).
Proof.
  pose proof (filter_partition_length (fun m => success m) cache) as Hsplit.
  cbn beta in Hsplit.
  unfold aggregate.
  cbn [totalExecutions successfulExecutions failedExecutions].
  split; [reflexivity |]. split; [lia |]. split; [| split].
  - rewrite <- (filter_length_all (fun m => success m) cache). lia.
  - assert (Hiff : Forall (fun m => negb (success m) = true) cache
                   <-> Forall (fun m => success m = false) cache).
    { apply Forall_iff. intros m. destruct (success m); cbn; intuition congruence. }
    rewrite <- Hiff, <- (filter_length_all (fun m => negb (success m)) cache).
    lia.
  - intros cache' Hperm.
    rewrite (Permutation_length Hperm).
    rewrite (filter_length_Permutation (fun m => success m) _ _ Hperm).
    rewrite (filter_length_Permutation (fun m => negb (success m)) _ _ Hperm).
    auto.
Qed.

(** X15. The log gate: an entry is written exactly when its level is at
    least the configured level in the order INFO < WARN < ERROR. *)
Theorem shouldLog_iff (config : Config.LambdaConfig) (level : Config.LogLevel) :
  shouldLog config level = true
  <-> (levelRank (Config.logLevel config) <= levelRank level)%nat.
Proof.
  unfold shouldLog.
  destruct (Config.logLevel config), level; cbn; split;
    intros H; try reflexivity; try discriminate; lia.
Qed.

End AggregationBehaviour.

(** ** The invocation cleanup *)

Section CleanupBehaviour.
Import JS Eff LambdaCleanup.

Variable execAsync : nat -> string -> settled (string * string).
Variable cloudWatch : nat -> Monitoring.PutMetricDataCommand -> settled unit.

(** A git command completes normally exactly when the shell command it
    runs is taken for a success. *)
Lemma executeGitCommand_result command w :
  match fst (executeGitCommand execAsync command w) with
  | inl _ => gitSucceeded (execAsync (length (executed w)) command) = true
  | inr _ => gitSucceeded (execAsync (length (executed w)) command) = false
  end.
Proof.
  unfold executeGitCommand, execAsync_call, tryCatch, bind, await, ret, throw,
    gitSucceeded.
  destruct (execAsync (length (executed w)) command) as [[stdout stderr] | e];
    cbn; [| reflexivity].
  destruct (nonEmpty stderr && negb (includes stderr "warning:")); reflexivity.
Qed.

(** A git command that completes normally returns the trimmed [stdout]
    of the shell command it ran. *)
Lemma executeGitCommand_output command w :
  match fst (executeGitCommand execAsync command w) with
  | inl v => v = gitOutput (execAsync (length (executed w)) command)
  | inr _ => True
  end.
Proof.
  unfold executeGitCommand, execAsync_call, tryCatch, bind, await, ret, throw,
    gitOutput.
  destruct (execAsync (length (executed w)) command) as [[stdout stderr] | e];
    cbn; [| exact I].
  destruct (nonEmpty stderr && negb (includes stderr "warning:"));
    [exact I | reflexivity].
Qed.

Lemma resetGitState_executed w :
  executed (snd (resetGitState execAsync w))
  = executed w
    ++ if gitSucceeded (execAsync (length (executed w)) "git rev-parse --git-dir")
       then ["git rev-parse --git-dir"; "git reset --hard HEAD"; "git clean -fd"]
       else ["git rev-parse --git-dir"].
Proof.
  unfold resetGitState, tryCatch, bind, ret. cbn beta iota.
  pose proof (executeGitCommand_state execAsync "git rev-parse --git-dir" w) as H1.
  pose proof (executeGitCommand_result "git rev-parse --git-dir" w) as R1.
  destruct (executeGitCommand execAsync "git rev-parse --git-dir" w)
    as [[out1 | e1] w1]; cbn in H1, R1; subst w1; rewrite R1; cbn;
    [| reflexivity].
  match goal with
  | |- context [executeGitCommand execAsync "git reset --hard HEAD" ?w0] =>
      pose proof (executeGitCommand_state execAsync "git reset --hard HEAD" w0) as H2;
      destruct (executeGitCommand execAsync "git reset --hard HEAD" w0)
        as [[out2 | e2] w2]; cbn in H2; subst w2; cbn
  end;
  match goal with
  | |- context [executeGitCommand execAsync "git clean -fd" ?w0] =>
      pose proof (executeGitCommand_state execAsync "git clean -fd" w0) as H3;
      destruct (executeGitCommand execAsync "git clean -fd" w0)
        as [[out3 | e3] w3]; cbn in H3; subst w3; cbn
  end; rewrite <- !app_assoc; reflexivity.
Qed.

(** X18. The cleanup runs [git rev-parse --git-dir] first; if that is not
    taken for a success (no checkout yet) it runs no other command, and
    otherwise it runs both [git reset --hard HEAD] and [git clean -fd], the
    second also when the first fails. *)
Theorem cleanupLambdaState_commands w :
  executed (snd (cleanupLambdaState execAsync w))
  = executed w
    ++ if gitSucceeded (execAsync (length (executed w)) "git rev-parse --git-dir")
       then ["git rev-parse --git-dir"; "git reset --hard HEAD"; "git clean -fd"]
       else ["git rev-parse --git-dir"].
Proof.
  unfold cleanupLambdaState, zoom, SecretsCache.clearSecretsCache,
    tryCatch, bind, gets, modify, ret. cbn -[resetGitState].
  destruct (Monitoring.globalMetricsCache (monitoring w)); cbn -[resetGitState];
    match goal with
    | |- context [resetGitState execAsync ?w0] =>
        pose proof (resetGitState_executed w0) as Hcommands;
        destruct (resetGitState execAsync w0) as [[[] | e] w'];
        cbn in Hcommands |- *; exact Hcommands
    end.
Qed.

(** [forceSendMetrics] by cases: it flushes when [global.metricsCache]
    names a non-empty array and does nothing otherwise; an error of the
    flush is caught. *)
Lemma forceSendMetrics_run timestamp sentAt functionName w :
  forceSendMetrics cloudWatch timestamp sentAt functionName w
  = match Monitoring.globalMetricsCache (monitoring w) with
    | Some r =>
        if (0 <? length (Monitoring.deref (monitoring w) r))%nat then
          (inl tt,
           withMonitoring
             (snd (Monitoring.sendBatchedMetrics cloudWatch timestamp sentAt
                     (match functionName with
                      | Some (String a rest) => String a rest
                      | _ => "daily-commit"
                      end) (monitoring w))) w)
        else (inl tt, w)
    | None => (inl tt, w)
    end.
Proof.
  unfold forceSendMetrics, zoom, tryCatch, bind, gets, ret. cbn beta iota.
  destruct (Monitoring.globalMetricsCache (monitoring w)) as [r |];
    [| reflexivity].
  destruct (0 <? length (Monitoring.deref (monitoring w) r))%nat; [| reflexivity].
  destruct (Monitoring.sendBatchedMetrics cloudWatch timestamp sentAt _ (monitoring w))
    as [[[] | e] s']; reflexivity.
Qed.

(** X16. [forceSendMetrics] right after [cleanupLambdaState] does nothing
    at all, whatever waits in the batch of the metrics module: it looks at
    the array that [global.metricsCache] names, which the cleanup has just
    replaced by an empty one. *)
Theorem forceSendMetrics_after_cleanup timestamp sentAt functionName w :
  Monitoring.metricsCache (monitoring w)
    ∈ dom (Monitoring.arrays (monitoring w)) ->
  forceSendMetrics cloudWatch timestamp sentAt functionName
    (snd (cleanupLambdaState execAsync w))
  = (inl tt, snd (cleanupLambdaState execAsync w))
  /\ Monitoring.batch (monitoring (snd (cleanupLambdaState execAsync w)))
     = Monitoring.batch (monitoring w).
Proof.
  intros Hallocated.
  destruct (cleanupLambdaState_effect execAsync w Hallocated)
    as (_ & _ & Hbatch & Hglobal).
  split; [| exact Hbatch].
  rewrite forceSendMetrics_run.
  destruct (Monitoring.globalMetricsCache
              (monitoring (snd (cleanupLambdaState execAsync w))))
    as [r |] eqn:Hr; [| reflexivity].
  rewrite (Hglobal r eq_refl). reflexivity.
Qed.

(** X17. [forceSendMetrics] never throws and touches neither the secrets
    cache nor the checkout. While [global.metricsCache] still names the
    array of a non-empty batch, it transmits that batch in one command and
    leaves the batch empty. *)
Theorem forceSendMetrics_flushes timestamp sentAt functionName w :
  fst (forceSendMetrics cloudWatch timestamp sentAt functionName w) = inl tt
  /\ secrets (snd (forceSendMetrics cloudWatch timestamp sentAt functionName w))
     = secrets w
  /\ executed (snd (forceSendMetrics cloudWatch timestamp sentAt functionName w))
     = executed w
  /\ (Monitoring.globalMetricsCache (monitoring w)
      = Some (Monitoring.metricsCache (monitoring w)) ->
      Monitoring.batch (monitoring w) <> [] ->
      Monitoring.batch
        (monitoring (snd (forceSendMetrics cloudWatch timestamp sentAt
                            functionName w))) = []
      /\ exists name,
           Monitoring.sentCommands
             (monitoring (snd (forceSendMetrics cloudWatch timestamp sentAt
                                 functionName w)))
           = Monitoring.sentCommands (monitoring w)
             ++ [Monitoring.putMetricDataCommand name
                   (Monitoring.batch (monitoring w)) timestamp]).
Proof.
  rewrite forceSendMetrics_run.
  split; [| split; [| split]].
  - destruct (Monitoring.globalMetricsCache (monitoring w)) as [r |];
      [destruct (0 <? _)%nat |]; reflexivity.
  - destruct (Monitoring.globalMetricsCache (monitoring w)) as [r |];
      [destruct (0 <? _)%nat |]; reflexivity.
  - destruct (Monitoring.globalMetricsCache (monitoring w)) as [r |];
      [destruct (0 <? _)%nat |]; reflexivity.
  - intros Halias Hne. rewrite Halias.
    fold (Monitoring.batch (monitoring w)).
    destruct (Monitoring.batch (monitoring w)) as [| m rest] eqn:Hbatch;
      [congruence |].
    cbn [length Nat.ltb Nat.leb]. cbn [snd monitoring withMonitoring].
    match goal with
    | |- context [Monitoring.sendBatchedMetrics cloudWatch timestamp sentAt ?n _] =>
        destruct (sendBatchedMetrics_effect cloudWatch timestamp sentAt n
                    (monitoring w))
          as (_ & Hempty & Hsent & _); [rewrite Hbatch; discriminate |];
        split; [exact Hempty |]; exists n; rewrite Hsent, Hbatch; reflexivity
    end.
Qed.

(** The environment check by thresholds: it passes exactly when the heap
    is at most 100 MiB, the secrets cache has at most 10 entries and the
    process has been up for at most 300 seconds. *)
Lemma validateLambdaEnvironment_checks heapUsed uptime uptimeAgain s :
  fst (validateLambdaEnvironment heapUsed uptime uptimeAgain s) = true
  <-> (heapUsed <= 104857600)%Z
      /\ (size (SecretsCache.secretsCache s) <= 10)%nat
      /\ (uptime <= 300)%Q.
Proof.
  unfold validateLambdaEnvironment, SecretsCache.getCacheStats.
  cbn [fst snd]. change (100 * 1024 * 1024)%Z with 104857600%Z.
  destruct (104857600 <? heapUsed)%Z eqn:Hheap;
    [apply Z.ltb_lt in Hheap | apply Z.ltb_ge in Hheap];
    (destruct (10 <? size (SecretsCache.secretsCache s))%nat eqn:Hsize;
     [apply Nat.ltb_lt in Hsize | apply Nat.ltb_ge in Hsize]);
    destruct (Qle_bool uptime 300) eqn:Hup;
    cbn [negb app length Nat.eqb];
    (split; [intros H | intros (H1 & H2 & H3)]);
    try discriminate H; try reflexivity; try lia.
  - split; [exact Hheap |]. split; [exact Hsize |].
    apply Qle_bool_iff. exact Hup.
  - apply Qle_bool_iff in H3. congruence.
Qed.

(** X19. The environment check passes exactly when the heap is at most
    100 MiB, the secrets cache has at most 10 entries and the first
    reading of the uptime is at most 300 seconds. Right after
    [cleanupLambdaState] the cache is empty, so whatever it held before,
    the check then passes exactly when heap and uptime are within their
    limits. *)
Theorem validateLambdaEnvironment_valid heapUsed uptime uptimeAgain w :
  Monitoring.metricsCache (monitoring w)
    ∈ dom (Monitoring.arrays (monitoring w)) ->
  (fst (validateLambdaEnvironment heapUsed uptime uptimeAgain (secrets w)) = true
   <-> (heapUsed <= 104857600)%Z
       /\ (size (SecretsCache.secretsCache (secrets w)) <= 10)%nat
       /\ (uptime <= 300)%Q)
  /\ (fst (validateLambdaEnvironment heapUsed uptime uptimeAgain
             (secrets (snd (cleanupLambdaState execAsync w)))) = true
      <-> (heapUsed <= 104857600)%Z /\ (uptime <= 300)%Q).
Proof.
  intros Hallocated.
  split; [apply validateLambdaEnvironment_checks |].
  destruct (cleanupLambdaState_effect execAsync w Hallocated)
    as (_ & Hempty & _).
  rewrite validateLambdaEnvironment_checks, Hempty, map_size_empty.
  split; [intros (H1 & _ & H3) | intros (H1 & H3)]; repeat split; auto; lia.
Qed.

End CleanupBehaviour.

(** ** The input validators *)

Section ValidationBehaviour.
Import JS Validation.
Import LambdaCleanup (trim, trimStart, trimEnd, isWhiteSpace).

Lemma trimStart_head s :
  match trimStart s with
  | String c _ => isWhiteSpace c = false
  | EmptyString => True
  end.
Proof.
  induction s as [| c s IH]; cbn [trimStart]; [exact I |].
  destruct (isWhiteSpace c) eqn:Hc; [exact IH | exact Hc].
Qed.

Lemma trimStart_fixed c s :
  isWhiteSpace c = false -> trimStart (String c s) = String c s.
Proof. intros Hc. cbn [trimStart]. rewrite Hc. reflexivity. Qed.

Lemma trimEnd_keeps_head c s :
  isWhiteSpace c = false -> exists rest, trimEnd (String c s) = String c rest.
Proof.
  intros Hc. cbn [trimEnd]. destruct (trimEnd s) as [| d rest].
  - rewrite Hc. eauto.
  - eauto.
Qed.

Lemma trimEnd_idempotent s : trimEnd (trimEnd s) = trimEnd s.
Proof.
  induction s as [| c s IH]; [reflexivity |].
  cbn [trimEnd]. destruct (trimEnd s) as [| d rest] eqn:Hs.
  - destruct (isWhiteSpace c) eqn:Hc; [reflexivity |].
    cbn [trimEnd]. rewrite Hc. reflexivity.
  - cbn [trimEnd] in IH |- *. 
    change (match trimEnd rest with
            | EmptyString => if isWhiteSpace d then EmptyString else String d EmptyString
            | String a r => String d (String a r)
            end) with (trimEnd (String d rest)) in *.
    rewrite IH. reflexivity.
Qed.

(** Trimming twice is trimming once. *)
Lemma trim_idempotent s : trim (trim s) = trim s.
Proof.
  unfold trim. pose proof (trimStart_head s) as Hhead.
  destruct (trimStart s) as [| c t]; [reflexivity |].
  destruct (trimEnd_keeps_head c t Hhead) as [rest Hrest].
  rewrite Hrest, (trimStart_fixed c rest Hhead), <- Hrest.
  apply trimEnd_idempotent.
Qed.

(** X21. An accepted commit message is the trimmed input, is between 1
    and 500 characters long and carries none of the three forbidden
    markers in any letter case; validating it again returns it
    unchanged. *)
Theorem validateCommitMessage_accepted value message :
  validateCommitMessage value = inl message ->
  (exists text, value = SecretsCache.JString text /\ message = trim text)
  /\ (1 <= Z.of_nat (String.length message) <= 500)%Z
  /\ hasDangerousContent message = false
  /\ validateCommitMessage (SecretsCache.JString message) = inl message.
Proof.
  unfold validateCommitMessage at 1.
  destruct value as [| | | text | |]; try discriminate.
  destruct text as [| a rest]; [discriminate |].
  cbv zeta.
  destruct (String.length (trim (String a rest)) =? 0)%nat eqn:Hempty;
    [discriminate |].
  destruct (500 <? Z.of_nat (String.length (trim (String a rest))))%Z eqn:Hlong;
    [discriminate |].
  destruct (hasDangerousContent (trim (String a rest))) eqn:Hdanger;
    [discriminate |].
  intros Heq. injection Heq as <-.
  apply Nat.eqb_neq in Hempty. apply Z.ltb_ge in Hlong.
  split; [eauto |]. split; [lia |]. split; [exact Hdanger |].
  unfold validateCommitMessage.
  destruct (trim (String a rest)) as [| b t] eqn:Htrim; [cbn in Hempty; lia |].
  cbv zeta.
  assert (Hidem : trim (String b t) = String b t).
  { rewrite <- Htrim. apply trim_idempotent. }
  rewrite Hidem.
  apply Nat.eqb_neq in Hempty. apply Z.ltb_ge in Hlong.
  rewrite Hempty, Hlong, Hdanger. reflexivity.
Qed.

Lemma filterChars_clean p s :
  existsChar (fun c => negb (p c)) (filterChars p s) = false.
Proof.
  induction s as [| c s IH]; cbn [filterChars]; [reflexivity |].
  destruct (p c) eqn:Hc; [| exact IH].
  cbn [existsChar]. rewrite Hc, IH. reflexivity.
Qed.

Lemma filterChars_length p s :
  (String.length (filterChars p s) <= String.length s)%nat.
Proof.
  induction s as [| c s IH]; cbn [filterChars]; [reflexivity |].
  destruct (p c); cbn [String.length]; lia.
Qed.

Lemma filterChars_fixed p s :
  existsChar (fun c => negb (p c)) s = false -> filterChars p s = s.
Proof.
  induction s as [| c s IH]; cbn [filterChars existsChar]; [reflexivity |].
  destruct (p c); cbn [negb orb]; [| discriminate].
  intros H. rewrite (IH H). reflexivity.
Qed.

(** X22. File content of at most 10000 characters is always accepted (the
    empty string too); what comes back is the content without its control
    characters (NUL..BS, VT, FF, SO..US, DEL), in the same order, and
    content that has none comes back unchanged -- so validating twice
    changes nothing. *)
Theorem validateFileContent_sanitizes text :
  (Z.of_nat (String.length text) <= 10000)%Z ->
  exists clean,
    validateFileContent (SecretsCache.JString text) = inl clean
    /\ clean = filterChars (fun c => negb (isControlChar c)) text
    /\ existsChar isControlChar clean = false
    /\ (existsChar isControlChar text = false -> clean = text)
    /\ validateFileContent (SecretsCache.JString clean) = inl clean.
Proof.
  intros Hsize.
  assert (Hclean :
    existsChar isControlChar
      (filterChars (fun c => negb (isControlChar c)) text) = false).
  { pose proof (filterChars_clean (fun c => negb (isControlChar c)) text) as H.
    erewrite <- H. clear H.
    induction (filterChars (fun c => negb (isControlChar c)) text) as [| c s IH];
      cbn [existsChar]; [reflexivity |].
    rewrite negb_involutive, IH. reflexivity. }
  assert (Hfixed : forall s, existsChar isControlChar s = false ->
                             filterChars (fun c => negb (isControlChar c)) s = s).
  { intros s Hs. apply filterChars_fixed.
    rewrite <- Hs. clear Hs.
    induction s as [| c s IH]; cbn [existsChar]; [reflexivity |].
    rewrite negb_involutive, IH. reflexivity. }
  exists (filterChars (fun c => negb (isControlChar c)) text).
  unfold validateFileContent.
  replace (10000 <? Z.of_nat (String.length text))%Z with false
    by (symmetry; apply Z.ltb_ge; exact Hsize).
  split; [reflexivity |]. split; [reflexivity |]. split; [exact Hclean |].
  split; [apply Hfixed |].
  pose proof (filterChars_length (fun c => negb (isControlChar c)) text) as Hlen.
  replace (10000 <? _)%Z with false by (symmetry; apply Z.ltb_ge; lia).
  rewrite (Hfixed _ Hclean). reflexivity.
Qed.

Lemma validateSecretName_checks value name :
  validateSecretName value = inl name ->
  (exists text, value = SecretsCache.JString text /\ name = trim text)
  /\ existsChar (fun c => negb (isSecretNameChar c)) name = false
  /\ (1 <= Z.of_nat (String.length name) <= 512)%Z
  /\ validateSecretName (SecretsCache.JString name) = inl name.
Proof.
  unfold validateSecretName at 1.
  destruct value as [| | | text | |]; try discriminate.
  destruct text as [| a rest]; [discriminate |].
  cbv zeta.
  destruct (String.length (trim (String a rest)) =? 0)%nat eqn:Hempty;
    [discriminate |].
  destruct (nonEmpty (trim (String a rest))) eqn:Hne; cbn [andb negb];
    [| discriminate].
  destruct (existsChar (fun c => negb (isSecretNameChar c)) (trim (String a rest)))
    eqn:Hchars; cbn [negb]; [discriminate |].
  destruct (512 <? Z.of_nat (String.length (trim (String a rest))))%Z eqn:Hlong;
    [discriminate |].
  intros Heq. injection Heq as <-.
  split; [eauto |]. split; [exact Hchars |].
  split; [apply Nat.eqb_neq in Hempty; apply Z.ltb_ge in Hlong; lia |].
  unfold validateSecretName.
  destruct (trim (String a rest)) as [| b t] eqn:Htrim; [discriminate |].
  cbv zeta.
  assert (Hidem : trim (String b t) = String b t).
  { rewrite <- Htrim. apply trim_idempotent. }
  rewrite Hidem, Hempty, Hne, Hchars, Hlong. reflexivity.
Qed.

(** X23. An accepted secret name is the trimmed input, consists only of
    letters, digits and the characters / _ + = . @ -, and is between 1 and
    512 characters long; validating it again returns it unchanged. *)
Theorem validateSecretName_accepted value name :
  validateSecretName value = inl name ->
  (exists text, value = SecretsCache.JString text /\ name = trim text)
  /\ existsChar (fun c => negb (isSecretNameChar c)) name = false
  /\ (1 <= Z.of_nat (String.length name) <= 512)%Z
  /\ validateSecretName (SecretsCache.JString name) = inl name.
Proof. exact (validateSecretName_checks value name). Qed.

(** *** No ".." survives the path sanitizer *)

Lemma isChar_dot c : isChar 46 c = true <-> Ascii.ascii_of_nat 46 = c.
Proof.
  unfold isChar. rewrite Nat.eqb_eq. split.
  - intros H. rewrite <- (Ascii.ascii_nat_embedding c), H. reflexivity.
  - intros <-. reflexivity.
Qed.

Lemma startsDot_cons c s :
  String.prefix "." (String c s) = isChar 46 c.
Proof.
  cbn [String.prefix].
  destruct (Ascii.ascii_dec _ c) as [Heq | Hne].
  - symmetry. destruct s; apply isChar_dot; exact Heq.
  - symmetry. apply not_true_is_false. intros H. apply isChar_dot in H.
    contradiction.
Qed.

Lemma includes_dotdot_cons c s :
  includes (String c s) ".."
  = (isChar 46 c && String.prefix "." s) || includes s "..".
Proof.
  cbn [includes].
  assert (Hp : String.prefix ".." (String c s) = isChar 46 c && String.prefix "." s).
  { change (String.prefix ".." (String c s))
      with (if Ascii.ascii_dec (Ascii.ascii_of_nat 46) c
            then String.prefix "." s else false).
    destruct (Ascii.ascii_dec (Ascii.ascii_of_nat 46) c) as [Heq | Hne].
    - apply isChar_dot in Heq. rewrite Heq. reflexivity.
    - assert (isChar 46 c = false) as ->; [| reflexivity].
      apply not_true_is_false. intros H. apply isChar_dot in H. contradiction. }
  rewrite Hp.
  destruct (isChar 46 c && String.prefix "." s); reflexivity.
Qed.

Lemma removeDotDot_head s :
  String.prefix "." s = false -> String.prefix "." (removeDotDot s) = false.
Proof.
  destruct s as [| c s]; [reflexivity |].
  rewrite startsDot_cons. intros Hc. cbn [removeDotDot].
  destruct s as [| d s]; [rewrite startsDot_cons; exact Hc |].
  rewrite Hc. cbn [andb]. rewrite startsDot_cons. exact Hc.
Qed.

Lemma removeDotDot_clean_upto (n : nat) :
  forall s, (String.length s <= n)%nat -> includes (removeDotDot s) ".." = false.
Proof.
  induction n as [| n IH]; intros s Hlen.
  - destruct s; [reflexivity | cbn in Hlen; lia].
  - destruct s as [| c s]; [reflexivity |].
    cbn [removeDotDot]. destruct s as [| d s].
    + rewrite includes_dotdot_cons. cbn. rewrite andb_false_r. reflexivity.
    + cbn [String.length] in Hlen.
      destruct (isChar 46 c && isChar 46 d) eqn:Hdots.
      * apply IH. lia.
      * rewrite includes_dotdot_cons.
        rewrite (IH (String d s)) by (cbn [String.length]; lia).
        rewrite orb_false_r.
        destruct (isChar 46 c) eqn:Hc; [| reflexivity].
        cbn [andb] in Hdots |- *.
        apply removeDotDot_head. rewrite startsDot_cons. exact Hdots.
Qed.

Lemma collapseSlashes_head s :
  String.prefix "." (collapseSlashes s) = String.prefix "." s.
Proof.
  induction s as [| c s IH]; [reflexivity |].
  cbn [collapseSlashes]. destruct s as [| d s]; [reflexivity |].
  destruct (isChar 47 c && isChar 47 d) eqn:Hslashes.
  - rewrite IH, !startsDot_cons.
    apply andb_prop in Hslashes as [Hc Hd].
    unfold isChar in *. apply Nat.eqb_eq in Hc, Hd.
    rewrite Hc, Hd. reflexivity.
  - rewrite !startsDot_cons. reflexivity.
Qed.

Lemma collapseSlashes_clean s :
  includes s ".." = false -> includes (collapseSlashes s) ".." = false.
Proof.
  induction s as [| c s IH]; [intros _; reflexivity |].
  rewrite includes_dotdot_cons. intros H.
  apply orb_false_elim in H as [Hhead Htail].
  cbn [collapseSlashes]. destruct s as [| d s].
  - rewrite includes_dotdot_cons. cbn. rewrite andb_false_r. reflexivity.
  - destruct (isChar 47 c && isChar 47 d).
    + apply IH. exact Htail.
    + rewrite includes_dotdot_cons, collapseSlashes_head, Hhead.
      apply IH. exact Htail.
Qed.

Lemma stripLeadingSlashes_clean s :
  includes s ".." = false -> includes (stripLeadingSlashes s) ".." = false.
Proof.
  induction s as [| c s IH]; [intros _; reflexivity |].
  intros H. cbn [stripLeadingSlashes].
  destruct (isChar 47 c); [| exact H].
  rewrite includes_dotdot_cons in H.
  apply orb_false_elim in H as [_ Htail]. apply IH. exact Htail.
Qed.

Lemma trimStart_clean s :
  includes s ".." = false -> includes (trimStart s) ".." = false.
Proof.
  induction s as [| c s IH]; [intros _; reflexivity |].
  intros H. cbn [trimStart].
  destruct (isWhiteSpace c); [| exact H].
  rewrite includes_dotdot_cons in H.
  apply orb_false_elim in H as [_ Htail]. apply IH. exact Htail.
Qed.

Lemma trimEnd_head s :
  String.prefix "." (trimEnd s) = true -> String.prefix "." s = true.
Proof.
  destruct s as [| c s]; [discriminate |].
  cbn [trimEnd]. rewrite startsDot_cons.
  destruct (trimEnd s) as [| d rest].
  - destruct (isWhiteSpace c); [discriminate |].
    rewrite startsDot_cons. trivial.
  - rewrite startsDot_cons. trivial.
Qed.

Lemma trimEnd_clean s :
  includes s ".." = false -> includes (trimEnd s) ".." = false.
Proof.
  induction s as [| c s IH]; [intros _; reflexivity |].
  rewrite includes_dotdot_cons. intros H.
  apply orb_false_elim in H as [Hhead Htail].
  specialize (IH Htail). cbn [trimEnd].
  pose proof (trimEnd_head s) as Hkeep.
  destruct (trimEnd s) as [| d rest].
  - destruct (isWhiteSpace c); [reflexivity |].
    rewrite includes_dotdot_cons. cbn. rewrite andb_false_r. reflexivity.
  - rewrite includes_dotdot_cons, IH, orb_false_r.
    destruct (isChar 46 c); [| reflexivity]. cbn [andb] in Hhead |- *.
    destruct (String.prefix "." (String d rest)); [| reflexivity].
    rewrite (Hkeep eq_refl) in Hhead. discriminate.
Qed.

Lemma validateFilePath_checks value path :
  validateFilePath value = inl path ->
  includes path ".." = false
  /\ endsWith path ".txt" = true
  /\ existsChar isDangerousPathChar path = false
  /\ nonEmpty path = true.
Proof.
  unfold validateFilePath.
  destruct value as [| | | text | |]; try discriminate.
  destruct text as [| a rest]; [discriminate |].
  cbv zeta.
  set (sanitized :=
         trim (stripLeadingSlashes (collapseSlashes (removeDotDot (String a rest))))).
  assert (Hclean : includes sanitized ".." = false).
  { unfold sanitized, trim.
    apply trimEnd_clean, trimStart_clean, stripLeadingSlashes_clean,
      collapseSlashes_clean.
    apply (removeDotDot_clean_upto (String.length (String a rest))). lia. }
  destruct (nonEmpty sanitized) eqn:Hne; cbn [negb]; [| discriminate].
  destruct (endsWith sanitized ".txt") eqn:Htxt; cbn [negb]; [| discriminate].
  destruct (existsChar isDangerousPathChar sanitized) eqn:Hdanger;
    [discriminate |].
  intros Heq. injection Heq as <-. auto.
Qed.

(** X20. An accepted file path contains no ".." anywhere, ends in ".txt",
    and holds none of the characters < > : | ? *, double quote or a control
    character. (The sanitizer does not reject a path for containing "..":
    it deletes every ".." and goes on with what is left.) *)
Theorem validateFilePath_accepted value path :
  validateFilePath value = inl path ->
  includes path ".." = false
  /\ endsWith path ".txt" = true
  /\ existsChar isDangerousPathChar path = false
  /\ nonEmpty path = true.
Proof. exact (validateFilePath_checks value path). Qed.


(** Whatever the event, an accepted event has a file path that ends in
    ".txt" and contains no "..", and a non-empty secret name over the
    allowed alphabet -- the defaults included. *)
Lemma validateLambdaEvent_safe isoNow localeDate event accepted :
  validateLambdaEvent isoNow localeDate event = inl accepted ->
  endsWith (filePath accepted) ".txt" = true
  /\ includes (filePath accepted) ".." = false
  /\ nonEmpty (secretName accepted) = true
  /\ existsChar (fun c => negb (isSecretNameChar c)) (secretName accepted) = false.
Proof.
  unfold validateLambdaEvent.
  destruct (SecretsCache.getProperty event "filePath") as [path | e] eqn:Hpath;
    [| discriminate].
  destruct (if SecretsCache.truthyValue path
            then validateFilePath (default SecretsCache.JNull path)
            else inl "daily-commit.txt") as [validPath | e] eqn:HvalidPath;
    [| discriminate].
  destruct (SecretsCache.getProperty event "newContent") as [content | e]
    eqn:Hcontent; [| discriminate].
  destruct (if SecretsCache.truthyValue content
            then validateFileContent (default SecretsCache.JNull content)
            else inl ("Daily commit - " +:+ isoNow)) as [validContent | e]
    eqn:HvalidContent; [| discriminate].
  destruct (SecretsCache.getProperty event "commitMessage") as [message | e]
    eqn:Hmessage; [| discriminate].
  destruct (if SecretsCache.truthyValue message
            then validateCommitMessage (default SecretsCache.JNull message)
            else inl ("Daily commit - " +:+ localeDate)) as [validMessage | e]
    eqn:HvalidMessage; [| discriminate].
  destruct (SecretsCache.getProperty event "secretName") as [name | e]
    eqn:Hname; [| discriminate].
  destruct (if SecretsCache.truthyValue name
            then validateSecretName (default SecretsCache.JNull name)
            else inl "daily-commit-secrets") as [validName | e]
    eqn:HvalidName; [| discriminate].
  intros Heq. injection Heq as <-. cbn [filePath secretName].
  assert (Hp : endsWith validPath ".txt" = true
               /\ includes validPath ".." = false).
  { destruct (SecretsCache.truthyValue path).
    - destruct (validateFilePath_checks _ _ HvalidPath) as (H1 & H2 & _).
      split; assumption.
    - injection HvalidPath as <-. split; reflexivity. }
  assert (Hn : nonEmpty validName = true
               /\ existsChar (fun c => negb (isSecretNameChar c)) validName = false).
  { destruct (SecretsCache.truthyValue name).
    - destruct (validateSecretName_checks _ _ HvalidName) as (_ & H1 & H2 & _).
      split; [| exact H1]. destruct validName; [cbn in H2; lia | reflexivity].
    - injection HvalidName as <-. split; reflexivity. }
  destruct Hp as [Hp1 Hp2]. destruct Hn as [Hn1 Hn2].
  split; [exact Hp1 |]. split; [exact Hp2 |]. split; [exact Hn1 | exact Hn2].
Qed.

(** An object in which the four properties are absent or falsy is
    accepted, with the four defaults. *)
Lemma validateLambdaEvent_defaults isoNow localeDate fields :
  SecretsCache.truthyValue (SecretsCache.assoc fields "filePath") = false ->
  SecretsCache.truthyValue (SecretsCache.assoc fields "newContent") = false ->
  SecretsCache.truthyValue (SecretsCache.assoc fields "commitMessage") = false ->
  SecretsCache.truthyValue (SecretsCache.assoc fields "secretName") = false ->
  validateLambdaEvent isoNow localeDate (SecretsCache.JObject fields)
  = inl {| filePath := "daily-commit.txt";
           newContent := "Daily commit - " +:+ isoNow;
           commitMessage := "Daily commit - " +:+ localeDate;
           secretName := "daily-commit-secrets" |}.
Proof.
  intros Hf1 Hf2 Hf3 Hf4. unfold validateLambdaEvent.
  cbn [SecretsCache.getProperty]. rewrite Hf1, Hf2, Hf3, Hf4. reflexivity.
Qed.

(** X24. Whatever the event, an accepted event has a file path that ends
    in ".txt" and contains no "..", and a non-empty secret name over the
    allowed alphabet -- the defaults included; and an object in which the
    four properties are absent or falsy (the empty object, for one) is
    accepted and yields the four defaults. *)
Theorem validateLambdaEvent_accepted isoNow localeDate :
  (forall event accepted,
      validateLambdaEvent isoNow localeDate event = inl accepted ->
      endsWith (filePath accepted) ".txt" = true
      /\ includes (filePath accepted) ".." = false
      /\ nonEmpty (secretName accepted) = true
      /\ existsChar (fun c => negb (isSecretNameChar c)) (secretName accepted)
         = false)
  /\ forall fields,
       SecretsCache.truthyValue (SecretsCache.assoc fields "filePath") = false ->
       SecretsCache.truthyValue (SecretsCache.assoc fields "newContent") = false ->
       SecretsCache.truthyValue (SecretsCache.assoc fields "commitMessage") = false ->
       SecretsCache.truthyValue (SecretsCache.assoc fields "secretName") = false ->
       validateLambdaEvent isoNow localeDate (SecretsCache.JObject fields)
       = inl {| filePath := "daily-commit.txt";
                newContent := "Daily commit - " +:+ isoNow;
                commitMessage := "Daily commit - " +:+ localeDate;
                secretName := "daily-commit-secrets" |}.
Proof.
  split.
  - apply validateLambdaEvent_safe.
  - apply validateLambdaEvent_defaults.
Qed.

Lemma append_cons c (s t : string) : String c s +:+ t = String c (s +:+ t).
Proof. reflexivity. Qed.

Lemma toLambdaFilePath_under_tmp path :
  String.prefix "/tmp/" (FileOperations.toLambdaFilePath path) = true
  /\ (includes path ".." = false ->
      includes (FileOperations.toLambdaFilePath path) ".." = false).
Proof.
  unfold FileOperations.toLambdaFilePath.
  destruct (String.prefix "/tmp/" path) eqn:Hprefix.
  - split; [exact Hprefix | trivial].
  - split.
    + apply prefix_app. eauto.
    + intros Hclean. rewrite !append_cons.
      change ("" +:+ path) with path.
      do 5 (rewrite includes_dotdot_cons;
            match goal with
            | |- context [isChar 46 ?c && ?rest] =>
                change (isChar 46 c && rest) with false
            end; cbn [orb]).
      exact Hclean.
Qed.

(** X28. The file rewrite of a validated path always targets a path under
    "/tmp/" that contains no "..". If the write succeeds, the result
    reports success with the previous content (that of the file, else of
    the template, else empty), the target then holds the new content and
    no other file has changed; if the write fails, the result reports the
    failure and the file system is untouched. *)
Theorem modifyTextFile_validated value path content fs :
  validateFilePath value = inl path ->
  exists target,
    FileOperations.filePath (fst (FileOperations.modifyTextFile path content fs))
    = Some target
    /\ String.prefix "/tmp/" target = true
    /\ includes target ".." = false
    /\ (FileOperations.writeFailure fs target = None ->
        FileOperations.success (fst (FileOperations.modifyTextFile path content fs))
        = true
        /\ FileOperations.oldContent
             (fst (FileOperations.modifyTextFile path content fs))
           = Some (default
                     (default "" (FileOperations.files fs
                                    !! FileOperations.templatePath))
                     (FileOperations.files fs !! target))
        /\ FileOperations.files
             (snd (FileOperations.modifyTextFile path content fs)) !! target
           = Some content
        /\ forall other,
             other <> target ->
             FileOperations.files
               (snd (FileOperations.modifyTextFile path content fs)) !! other
             = FileOperations.files fs !! other)
    /\ (forall error,
          FileOperations.writeFailure fs target = Some error ->
          FileOperations.success
            (fst (FileOperations.modifyTextFile path content fs)) = false
          /\ snd (FileOperations.modifyTextFile path content fs) = fs).
Proof.
  intros Hvalid.
  destruct (validateFilePath_checks value path Hvalid) as (Hclean & _).
  destruct (toLambdaFilePath_under_tmp path) as [Htmp Hkeep].
  exists (FileOperations.toLambdaFilePath path).
  unfold FileOperations.modifyTextFile. cbv zeta.
  destruct (FileOperations.writeFailure fs (FileOperations.toLambdaFilePath path))
    as [error |] eqn:Hwrite; cbn [fst snd FileOperations.filePath
      FileOperations.success FileOperations.oldContent FileOperations.files].
  - split; [reflexivity |]. split; [exact Htmp |]. split; [auto |].
    split; [discriminate |]. intros e _. split; reflexivity.
  - split; [reflexivity |]. split; [exact Htmp |]. split; [auto |].
    split; [| discriminate]. intros _.
    split; [reflexivity |]. split.
    + destruct (FileOperations.files fs !! FileOperations.toLambdaFilePath path);
        [reflexivity |].
      destruct (FileOperations.files fs !! FileOperations.templatePath);
        reflexivity.
    + split; [apply lookup_insert_eq |].
      intros other Hne. apply lookup_insert_ne. congruence.
Qed.

End ValidationBehaviour.

(** ** The rate limiter *)

Section RateLimitBehaviour.
Import Validation.

(** Calls for an identifier whose window is still open: the call number
    [k] (from 0) is allowed exactly while the count has room. *)
Lemma successiveCalls_within (times : list Z) id maxRequests windowMs r :
  Forall (fun t => (t <= r)%Z) times ->
  forall (c : Z) (m : gmap string RateLimitEntry),
    m !! id = Some {| count := c; resetTime := r |} ->
    fst (successiveCalls times id (Some maxRequests) (Some windowMs) m)
    = map (fun k => (c + Z.of_nat k <? maxRequests)%Z) (seq 0 (length times)).
Proof.
  induction 1 as [| t later Ht _ IH]; intros c m Hm; [reflexivity |].
  cbn [successiveCalls length seq map].
  destruct (Z.ltb_spec (c + Z.of_nat 0) maxRequests) as [Hroom | Hfull].
  - rewrite (checkRateLimit_within t id maxRequests windowMs m c r Hm Ht)
      by lia.
    specialize (IH (c + 1)%Z
                  (<[id := {| count := c + 1; resetTime := r |}]> m)
                  (lookup_insert_eq _ _ _)).
    destruct (successiveCalls later id (Some maxRequests) (Some windowMs)
                (<[id := {| count := c + 1; resetTime := r |}]> m))
      as [answers m2].
    cbn [fst] in *. rewrite IH. f_equal.
    rewrite <- seq_shift, map_map. apply map_ext. intros k.
    f_equal. lia.
  - rewrite (checkRateLimit_exhausted t id maxRequests windowMs m c r Hm Ht)
      by lia.
    specialize (IH c m Hm).
    destruct (successiveCalls later id (Some maxRequests) (Some windowMs) m)
      as [answers m2].
    cbn [fst] in *. rewrite IH. f_equal.
    rewrite <- seq_shift, map_map. apply map_ext. intros k.
    destruct (Z.ltb_spec (c + Z.of_nat k) maxRequests);
      destruct (Z.ltb_spec (c + Z.of_nat (S k)) maxRequests); lia || reflexivity.
Qed.

(** X25. For an identifier not seen before, the first call is allowed
    whatever the limit, and of the later calls that fall within the window
    it opened exactly the first [maxRequests - 1] are allowed: the later
    call number [k] (from 0) is allowed if and only if
    [k + 2 <= maxRequests]. *)
Theorem checkRateLimit_window_quota
    (m : gmap string RateLimitEntry) id maxRequests windowMs first
    (later : list Z) :
  m !! id = None ->
  Forall (fun t => (t <= first + windowMs)%Z) later ->
  fst (successiveCalls (first :: later) id (Some maxRequests) (Some windowMs) m)
  = true :: map (fun k => (Z.of_nat k + 2 <=? maxRequests)%Z)
                (seq 0 (length later)).
Proof.
  intros Hnone Hwithin. cbn [successiveCalls].
  rewrite (checkRateLimit_fresh first id maxRequests windowMs m Hnone).
  pose proof (successiveCalls_within later id maxRequests windowMs
                (first + windowMs)%Z Hwithin 1%Z
                (<[id := {| count := 1; resetTime := first + windowMs |}]> m)
                (lookup_insert_eq _ _ _)) as Hrest.
  destruct (successiveCalls later id (Some maxRequests) (Some windowMs)
              (<[id := {| count := 1; resetTime := first + windowMs |}]> m))
    as [answers m2].
  cbn [fst] in *. rewrite Hrest. f_equal. apply map_ext. intros k.
  destruct (Z.ltb_spec (1 + Z.of_nat k) maxRequests);
    destruct (Z.leb_spec (Z.of_nat k + 2) maxRequests); lia || reflexivity.
Qed.

(** X26. Identifiers do not interfere: a call for one identifier leaves
    the entry of every other identifier as it was, and its answer and the
    entry it leaves for its own identifier depend only on the entry that
    the map held for that identifier. *)
Theorem checkRateLimit_isolated
    (m m' : gmap string RateLimitEntry) now id other maxRequests windowMs :
  (id <> other ->
   snd (checkRateLimit now id maxRequests windowMs m) !! other = m !! other)
  /\ (m !! id = m' !! id ->
      fst (checkRateLimit now id maxRequests windowMs m)
      = fst (checkRateLimit now id maxRequests windowMs m')
      /\ snd (checkRateLimit now id maxRequests windowMs m) !! id
         = snd (checkRateLimit now id maxRequests windowMs m') !! id).
Proof.
  split.
  - intros Hne. unfold checkRateLimit.
    destruct (m !! id) as [current |]; cbn -[Z.ltb Z.leb Z.add];
      repeat match goal with
             | |- context [if ?b then _ else _] => destruct b
             end;
      cbn [snd]; rewrite ?lookup_insert_ne by exact Hne; reflexivity.
  - intros Hsame. unfold checkRateLimit. rewrite <- Hsame.
    destruct (m !! id) as [current |] eqn:Hm; cbn -[Z.ltb Z.leb Z.add];
      repeat match goal with
             | |- context [if ?b then _ else _] => destruct b
             end;
      cbn [fst snd]; rewrite ?lookup_insert_eq;
      (split; [reflexivity |]); try reflexivity.
    congruence.
Qed.

End RateLimitBehaviour.

(** ** The environment check *)

Section ConfigAndFiles.
Import Config.

(** X27. [validateEnvironment] reports at most [SECRET_NAME] and
    [AWS_REGION] as missing, each exactly when [NODE_ENV] is
    [production] and the variable is unset or empty; the result is valid
    exactly when nothing is missing, so outside production -- in the
    sense of [isProduction] -- it is always valid. *)
Theorem validateEnvironment_valid (env : Env) :
  (forall name,
      name ∈ snd (fst (validateEnvironment env)) <->
      isProduction env = true
      /\ ((name = "SECRET_NAME" /\ isSet (SECRET_NAME env) = false)
          \/ (name = "AWS_REGION" /\ isSet (AWS_REGION env) = false)))
  /\ (fst (fst (validateEnvironment env)) = true <->
      snd (fst (validateEnvironment env)) = [])
  /\ (isProduction env = false -> fst (fst (validateEnvironment env)) = true).
Proof.
  assert (Hprod : isProduction env
                  = bool_decide (NODE_ENV env = Some "production")).
  { unfold isProduction, getEnvironment, orElse.
    destruct (NODE_ENV env) as [[| a rest] |]; try reflexivity.
    apply bool_decide_ext. split; congruence. }
  rewrite Hprod. unfold validateEnvironment.
  destruct (bool_decide (NODE_ENV env = Some "production"));
    destruct (isSet (SECRET_NAME env)); destruct (isSet (AWS_REGION env));
    cbn [negb app fst snd length Nat.eqb];
    (split; [intros name; rewrite ?elem_of_cons, ?elem_of_nil; intuition congruence |]);
    (split; [split; intros; congruence |]); intros; congruence.
Qed.

End ConfigAndFiles.

(** ** The git workflow *)

Section GitWorkflow.
Import JS Eff LambdaCleanup GitNative.

Variable execAsync : nat -> string -> settled (string * string).

Ltac git_step :=
  match goal with
  | |- context [executeGitCommand execAsync ?c ?w0] =>
      let Hs := fresh "Hstate" in
      let Hr := fresh "Hresult" in
      pose proof (executeGitCommand_state execAsync c w0) as Hs;
      pose proof (executeGitCommand_result execAsync c w0) as Hr;
      destruct (executeGitCommand execAsync c w0) as [[? | ?] ?];
      cbn [fst snd] in Hs, Hr; subst; cbn [executed] in *
  end.

Ltac eff_unfold :=
  unfold tryCatch, bind, ret, throw; cbn beta iota.

Lemma configureGit_log config w :
  exists pre, executed (snd (configureGit execAsync config w)) = executed w ++ pre.
Proof.
  unfold configureGit. eff_unfold.
  git_step; [git_step |]; cbn [snd executed]; rewrite <- ?app_assoc; eauto.
Qed.

Lemma ensureOrigin_log url w :
  exists rest,
    executed (snd (ensureOrigin execAsync url w)) = executed w ++ rest.
Proof.
  unfold ensureOrigin. eff_unfold.
  git_step.
  - destruct (negb (String.eqb (trim s) url)).
    + git_step; [| git_step]; cbn [snd executed]; rewrite <- ?app_assoc; eauto.
    + cbn [snd executed]. eauto.
  - git_step; cbn [snd executed]; rewrite <- ?app_assoc; eauto.
Qed.

(** What [pullOrClone] runs, and whether it throws. *)
Lemma pullOrClone_run url w :
  executed (snd (pullOrClone execAsync url w))
  = executed w
    ++ (if gitSucceeded (execAsync (length (executed w)) "git rev-parse --git-dir")
        then
          if gitSucceeded (execAsync (S (length (executed w))) "git pull origin")
          then ["git rev-parse --git-dir"; "git pull origin"]
          else ["git rev-parse --git-dir"; "git pull origin";
                "git clone " +:+ quoted url +:+ " ."]
        else ["git rev-parse --git-dir"; "git clone " +:+ quoted url +:+ " ."])
  /\ (gitSucceeded (execAsync (length (executed w)) "git rev-parse --git-dir")
      && gitSucceeded (execAsync (S (length (executed w))) "git pull origin")
      = false ->
      gitSucceeded
        (execAsync
           (length (executed w)
            + (if gitSucceeded (execAsync (length (executed w))
                                  "git rev-parse --git-dir")
               then 2 else 1))
           ("git clone " +:+ quoted url +:+ " .")) = false ->
      exists e, fst (pullOrClone execAsync url w) = inr e).
Proof.
  unfold pullOrClone. eff_unfold.
  git_step.
  - rewrite Hresult. git_step.
    + rewrite length_app, Nat.add_1_r in Hresult0. rewrite Hresult0.
      cbn [snd executed andb]. rewrite <- app_assoc.
      split; [reflexivity | discriminate].
    + rewrite length_app, Nat.add_1_r in Hresult0. rewrite Hresult0.
      git_step; cbn [fst snd executed]; rewrite <- !app_assoc;
        (split; [reflexivity |]); intros _ Hclone.
      * rewrite !length_app in Hresult1. cbn [length] in Hresult1.
        rewrite <- Nat.add_assoc in Hresult1. cbn [Nat.add] in Hresult1.
        congruence.
      * eauto.
  - rewrite Hresult.
    git_step; cbn [fst snd executed]; rewrite <- !app_assoc;
      (split; [reflexivity |]); intros _ Hclone.
    + rewrite length_app in Hresult0. cbn [length] in Hresult0. congruence.
    + eauto.
Qed.

(** X30. When [git rev-parse] fails (no checkout) or the [git pull] in an
    existing checkout fails, [initializeRepository] runs [git clone] next --
    after a failed pull that is a clone into the existing checkout. If that
    clone fails, the initialization fails there and runs nothing more. *)
Theorem initializeRepository_fallback url w :
  gitSucceeded (execAsync (length (executed w)) "git rev-parse --git-dir")
  && gitSucceeded (execAsync (S (length (executed w))) "git pull origin")
  = false ->
  exists attempted rest,
    attempted
    = (if gitSucceeded (execAsync (length (executed w)) "git rev-parse --git-dir")
       then ["git rev-parse --git-dir"; "git pull origin"]
       else ["git rev-parse --git-dir"])
    /\ executed (snd (initializeRepository execAsync url w))
       = executed w ++ attempted
         ++ ["git clone " +:+ quoted url +:+ " ."] ++ rest
    /\ (gitSucceeded
          (execAsync (length (executed w ++ attempted))
             ("git clone " +:+ quoted url +:+ " .")) = false ->
        rest = []
        /\ exists e, fst (initializeRepository execAsync url w) = inr e).
Proof.
  intros Hfail.
  destruct (pullOrClone_run url w) as [Hlog Hthrow].
  specialize (Hthrow Hfail).
  unfold initializeRepository, tryCatch, bind, throw.
  destruct (pullOrClone execAsync url w) as [[[] | e] w1]; cbn [fst snd] in *.
  - (* the clone succeeded: the remote is checked next *)
    destruct (ensureOrigin_log url w1) as [rest Hrest].
    exists (if gitSucceeded (execAsync (length (executed w)) "git rev-parse --git-dir")
            then ["git rev-parse --git-dir"; "git pull origin"]
            else ["git rev-parse --git-dir"]), rest.
    split; [reflexivity |].
    split.
    + destruct (ensureOrigin execAsync url w1) as [[[] | e] w2];
        cbn [snd] in Hrest |- *; rewrite Hrest, Hlog;
        destruct (gitSucceeded (execAsync (length (executed w)) _));
        [ destruct (gitSucceeded (execAsync (S (length (executed w))) _));
          [discriminate Hfail |] | | 
          destruct (gitSucceeded (execAsync (S (length (executed w))) _));
          [discriminate Hfail |] | ];
        rewrite <- !app_assoc; reflexivity.
    + intros Hclone. exfalso.
      destruct Hthrow as [e He]; [| discriminate He].
      rewrite length_app in Hclone.
      destruct (gitSucceeded (execAsync (length (executed w)) _));
        exact Hclone.
  - exists (if gitSucceeded (execAsync (length (executed w)) "git rev-parse --git-dir")
            then ["git rev-parse --git-dir"; "git pull origin"]
            else ["git rev-parse --git-dir"]), [].
    split; [reflexivity |]. split.
    + rewrite Hlog.
      destruct (gitSucceeded (execAsync (length (executed w)) _));
        [ destruct (gitSucceeded (execAsync (S (length (executed w))) _));
          [discriminate Hfail |] | ];
        rewrite <- ?app_assoc; reflexivity.
    + intros _. split; [reflexivity | eauto].
Qed.

Lemma initializeRepository_log url w :
  exists pre,
    executed (snd (initializeRepository execAsync url w)) = executed w ++ pre.
Proof.
  destruct (pullOrClone_run url w) as [Hlog _].
  unfold initializeRepository, tryCatch, bind, throw.
  destruct (pullOrClone execAsync url w) as [[[] | e] w1]; cbn [fst snd] in *.
  - destruct (ensureOrigin_log url w1) as [rest Hrest].
    destruct (ensureOrigin execAsync url w1) as [[[] | e] w2];
      cbn [snd] in Hrest |- *; rewrite Hrest, Hlog, <- app_assoc; eauto.
  - rewrite Hlog. eauto.
Qed.

(** X29. When [performGitWorkflow] completes normally, the last five
    commands it ran are, in this order, the [git add] of the file, the
    [git commit] with the escaped message, the [git remote set-url] with
    the token, the branch query and the [git push] of the branch that the
    query printed (trimmed), or of "main" if the query failed; and the
    add, the commit and the push were each taken for a success: a normal
    completion means the change was pushed. *)
Theorem performGitWorkflow_success path commitMessage config w :
  fst (performGitWorkflow execAsync path commitMessage config w) = inl tt ->
  exists pre branch,
    branch
    = (if gitSucceeded (execAsync (length (executed w ++ pre) + 3)
                          "git branch --show-current")
       then trim (gitOutput (execAsync (length (executed w ++ pre) + 3)
                               "git branch --show-current"))
       else "main")
    /\ executed (snd (performGitWorkflow execAsync path commitMessage config w))
       = executed w ++ pre
         ++ [ "git add " +:+ quoted path;
              "git commit -m " +:+ quoted (escapeQuotes commitMessage);
              "git remote set-url origin "
                +:+ quoted (replaceFirst (repositoryUrl config) "https://"
                              ("https://" +:+ token config +:+ "@"));
              "git branch --show-current";
              "git push origin " +:+ branch ]
    /\ gitSucceeded (execAsync (length (executed w ++ pre))
                       ("git add " +:+ quoted path)) = true
    /\ gitSucceeded (execAsync (length (executed w ++ pre) + 1)
                       ("git commit -m " +:+ quoted (escapeQuotes commitMessage)))
       = true
    /\ gitSucceeded (execAsync (length (executed w ++ pre) + 4)
                       ("git push origin " +:+ branch)) = true.
Proof.
  unfold performGitWorkflow, tryCatch, bind, throw.
  destruct (configureGit_log config w) as [pre1 Hpre1].
  destruct (configureGit execAsync config w) as [[[] | e] w1];
    cbn [fst snd] in *; [| discriminate].
  destruct (initializeRepository_log (repositoryUrl config) w1) as [pre2 Hpre2].
  destruct (initializeRepository execAsync (repositoryUrl config) w1)
    as [[[] | e] w2]; cbn [fst snd] in *; [| discriminate].
  assert (Hw2 : executed w2 = executed w ++ (pre1 ++ pre2)).
  { rewrite Hpre2, Hpre1, <- app_assoc. reflexivity. }
  unfold addFileToGit, commitChanges, pushToRemote, tryCatch, bind, ret, throw.
  cbn beta iota zeta.
  git_step; [| discriminate].
  git_step; [| discriminate].
  git_step; [| discriminate].
  match goal with
  | |- context [executeGitCommand execAsync "git branch --show-current" ?w0] =>
      pose proof (executeGitCommand_output execAsync
                    "git branch --show-current" w0) as Hbranch
  end.
  git_step.
  - git_step; [| discriminate].
    intros _. exists (pre1 ++ pre2), (trim s2).
    cbn [snd executed]. cbn [fst] in Hbranch.
    rewrite !length_app in Hresult2, Hbranch. cbn [length] in Hresult2, Hbranch.
    replace (length (executed w2) + 1 + 1 + 1)%nat
      with (length (executed w2) + 3)%nat in Hresult2, Hbranch by lia.
    rewrite <- Hw2. rewrite Hresult2, <- Hbranch.
    split; [reflexivity |].
    rewrite Hw2, <- !app_assoc. cbn [app].
    split; [reflexivity |].
    rewrite <- Hw2.
    split; [exact Hresult |]. split.
    + rewrite length_app in Hresult0. exact Hresult0.
    + rewrite !length_app in Hresult3. cbn [length] in Hresult3.
      replace (length (executed w2) + 4)%nat
        with (length (executed w2) + 1 + 1 + 1 + 1)%nat by lia.
      exact Hresult3.
  - git_step; [| discriminate].
    intros _. exists (pre1 ++ pre2), "main".
    cbn [snd executed].
    rewrite !length_app in Hresult2. cbn [length] in Hresult2.
    replace (length (executed w2) + 1 + 1 + 1)%nat
      with (length (executed w2) + 3)%nat in Hresult2 by lia.
    rewrite <- Hw2. rewrite Hresult2.
    split; [reflexivity |].
    rewrite Hw2, <- !app_assoc. cbn [app].
    split; [reflexivity |].
    rewrite <- Hw2.
    split; [exact Hresult |]. split.
    + rewrite length_app in Hresult0. exact Hresult0.
    + rewrite !length_app in Hresult3. cbn [length] in Hresult3.
      replace (length (executed w2) + 4)%nat
        with (length (executed w2) + 1 + 1 + 1 + 1)%nat by lia.
      exact Hresult3.
Qed.

End GitWorkflow.

(** ** The further properties on concrete runs *)

Section FurtherRuns.
Import JS Scenario.

Lemma withRetry_succeeds_after_retries_witness :
  Retry.withRetry powByMultiplication flaky noRandom (retryConfig 3 false) "git"
  = Some {| Retry.outcome := Resolved "pushed";
            Retry.invocations := 3;
            Retry.sleeps :=
              Retry.schedule powByMultiplication (retryConfig 3 false)
                noRandom 0 2 |}.
Proof.
  apply (withRetry_succeeds_after_retries powByMultiplication flaky noRandom
           (retryConfig 3 false) "git" 2 "pushed").
  - simpl. lia.
  - intros i Hi. destruct i as [| [| i]]; [| | lia];
      exists (newError "read ECONNRESET"); split; reflexivity.
  - reflexivity.
Defined.

Lemma withRetry_exhausts_witness :
  Retry.withRetry powByMultiplication timingOut noRandom (retryConfig 3 false)
    "secrets"
  = Some {| Retry.outcome :=
              Rejected (newError
                (Retry.failureMessage "secrets"
                   (Retry.maxAttempts (retryConfig 3 false))
                   (Some (ErrorObject "Error" "connect failed" (Some "ETIMEDOUT")))));
            Retry.invocations := Z.to_nat (Retry.maxAttempts (retryConfig 3 false));
            Retry.sleeps :=
              Retry.schedule powByMultiplication (retryConfig 3 false)
                noRandom 0
                (Z.to_nat (Retry.maxAttempts (retryConfig 3 false)) - 1) |}.
Proof.
  apply (withRetry_exhausts powByMultiplication timingOut noRandom
           (retryConfig 3 false) "secrets").
  - simpl. lia.
  - intros i _. eexists. split; reflexivity.
  - reflexivity.
Defined.

Lemma calculateDelay_monotone_witness :
  exists d d' : Z,
    Retry.calculateDelay powByMultiplication (ofZ 1) policy15 half = ofZ d
    /\ Retry.calculateDelay powByMultiplication (ofZ 3) policy15 (ofZ 0)
       = ofZ d'
    /\ (0 <= d <= d')%Z /\ (d' <= 500)%Z
    /\ (500 * 2 ^ (1 * 1) <= 100 * 3 ^ 1 -> d = 500 /\ d' = 500)%Z.
Proof.
  apply (calculateDelay_monotone powByMultiplication 1 3 100 3 1 500
           policy15 half (ofZ 0));
    try reflexivity; try lia; vm_compute; intuition discriminate.
Defined.

Lemma getCachedSecrets_complete_witness :
  SecretsCache.complete
    (snd (SecretsCache.getCachedSecrets storeUp (parsesTo completeSecrets) true
            t0 secretName None SecretsCache.emptyState))
  /\ forall v,
       fst (SecretsCache.getCachedSecrets storeUp (parsesTo completeSecrets) true
              t0 secretName None SecretsCache.emptyState) = inl v ->
       SecretsCache.hasRequiredFields v = true.
Proof.
  apply (getCachedSecrets_complete storeUp (parsesTo completeSecrets) true
           t0 secretName None SecretsCache.emptyState).
  apply map_Forall_empty.
Defined.

Lemma clearSecretsCache_one_witness :
  fst (SecretsCache.clearSecretsCache (Some secretName) cachedAtT0) = inl tt
  /\ SecretsCache.secretsCache
       (snd (SecretsCache.clearSecretsCache (Some secretName) cachedAtT0))
     !! secretName = None
  /\ (forall other,
        other <> secretName ->
        SecretsCache.secretsCache
          (snd (SecretsCache.clearSecretsCache (Some secretName) cachedAtT0))
        !! other
        = SecretsCache.secretsCache cachedAtT0 !! other)
  /\ forall now ttl0,
       SecretsCache.sent
         (snd (SecretsCache.getCachedSecrets storeUp (parsesTo completeSecrets)
                 true now secretName ttl0
                 (snd (SecretsCache.clearSecretsCache (Some secretName)
                         cachedAtT0))))
       = SecretsCache.sent cachedAtT0 ++ [secretName].
Proof.
  apply (clearSecretsCache_one storeUp (parsesTo completeSecrets) true
           secretName cachedAtT0).
  reflexivity.
Defined.

Lemma clearSecretsCache_all_witness :
  fst (SecretsCache.clearSecretsCache (Some "") cachedAtT0) = inl tt
  /\ SecretsCache.secretsCache
       (snd (SecretsCache.clearSecretsCache (Some "") cachedAtT0)) = ∅
  /\ SecretsCache.getCacheStats
       (snd (SecretsCache.clearSecretsCache (Some "") cachedAtT0)) = (0%nat, [])
  /\ forall now key ttl0,
       SecretsCache.sent
         (snd (SecretsCache.getCachedSecrets storeUp (parsesTo completeSecrets)
                 true now key ttl0
                 (snd (SecretsCache.clearSecretsCache (Some "") cachedAtT0))))
       = SecretsCache.sent cachedAtT0 ++ [key].
Proof.
  apply (clearSecretsCache_all storeUp (parsesTo completeSecrets) true
           (Some "") cachedAtT0).
  right. reflexivity.
Defined.

Lemma getCachedGitConfig_fields_witness :
  exists g,
    SecretsCache.getCachedGitConfig storeUp (parsesTo completeSecrets) true
      t0 secretName None SecretsCache.emptyState
    = (inl g, cachedAtT0)
    /\ SecretsCache.userEmail g = Some (SecretsCache.JString "bot@example.com")
    /\ SecretsCache.token g = Some (SecretsCache.JString "ghp_test123").
Proof.
  pose proof (getCachedGitConfig_fields storeUp (parsesTo completeSecrets) true
                t0 secretName None SecretsCache.emptyState
                (map_Forall_empty _)) as H.
  change (SecretsCache.getCachedSecrets storeUp (parsesTo completeSecrets) true
            t0 secretName None SecretsCache.emptyState)
    with (@inl SecretsCache.json thrown completeSecrets, cachedAtT0) in H.
  cbv beta iota in H.
  destruct H as (g & Hrun & Hemail & _ & Htoken & _).
  exists g. split; [exact Hrun |].
  split; [injection Hemail as <- | injection Htoken as <-]; reflexivity.
Defined.

Lemma sendOptimizedMetrics_buffers_witness :
  Monitoring.sendOptimizedMetrics production cloudWatchUp
    (t0 + 1000) (t0 + 1000) (t0 + 1001) (succeeded 900) None oneWaiting
  = (inl tt, Monitoring.push (succeeded 900) oneWaiting)
  /\ Monitoring.batch (Monitoring.push (succeeded 900) oneWaiting)
     = Monitoring.batch oneWaiting ++ [succeeded 900]
  /\ Monitoring.sentCommands (Monitoring.push (succeeded 900) oneWaiting)
     = Monitoring.sentCommands oneWaiting
  /\ Monitoring.lastMetricsSend (Monitoring.push (succeeded 900) oneWaiting)
     = Monitoring.lastMetricsSend oneWaiting.
Proof.
  apply (sendOptimizedMetrics_buffers production cloudWatchUp
           (t0 + 1000) (t0 + 1000) (t0 + 1001) (succeeded 900) None oneWaiting).
  - vm_compute. reflexivity.
  - vm_compute. discriminate.
Defined.

Lemma sendOptimizedMetrics_timeout_flush_witness :
  fst (Monitoring.sendOptimizedMetrics production cloudWatchUp
         t0 t0 t0 (succeeded 1000) None Monitoring.initialState)
  = inl tt
  /\ Monitoring.batch
       (snd (Monitoring.sendOptimizedMetrics production cloudWatchUp
               t0 t0 t0 (succeeded 1000) None Monitoring.initialState)) = []
  /\ Monitoring.sentCommands
       (snd (Monitoring.sendOptimizedMetrics production cloudWatchUp
               t0 t0 t0 (succeeded 1000) None Monitoring.initialState))
     = Monitoring.sentCommands Monitoring.initialState
       ++ [Monitoring.putMetricDataCommand (default "daily-commit" None)
             (Monitoring.batch Monitoring.initialState ++ [succeeded 1000]) t0].
Proof.
  apply (sendOptimizedMetrics_timeout_flush production cloudWatchUp
           t0 t0 t0 (succeeded 1000) None Monitoring.initialState).
  vm_compute. reflexivity.
Defined.

Lemma warm_allocated :
  Monitoring.metricsCache (LambdaCleanup.monitoring warm)
    ∈ dom (Monitoring.arrays (LambdaCleanup.monitoring warm)).
Proof. apply elem_of_dom. vm_compute. eauto. Defined.

Lemma forceSendMetrics_after_cleanup_witness :
  LambdaCleanup.forceSendMetrics cloudWatchUp (t0 + 90000) (t0 + 90001) None
    (snd (LambdaCleanup.cleanupLambdaState gitBroken warm))
  = (inl tt, snd (LambdaCleanup.cleanupLambdaState gitBroken warm))
  /\ Monitoring.batch
       (LambdaCleanup.monitoring
          (snd (LambdaCleanup.cleanupLambdaState gitBroken warm)))
     = Monitoring.batch (LambdaCleanup.monitoring warm).
Proof.
  apply (forceSendMetrics_after_cleanup gitBroken cloudWatchUp
           (t0 + 90000) (t0 + 90001) None warm).
  exact warm_allocated.
Defined.

Lemma forceSendMetrics_flushes_witness :
  Monitoring.batch
    (LambdaCleanup.monitoring
       (snd (LambdaCleanup.forceSendMetrics cloudWatchUp t0 t0 None aliased)))
  = []
  /\ exists name,
       Monitoring.sentCommands
         (LambdaCleanup.monitoring
            (snd (LambdaCleanup.forceSendMetrics cloudWatchUp t0 t0 None aliased)))
       = Monitoring.sentCommands (LambdaCleanup.monitoring aliased)
         ++ [Monitoring.putMetricDataCommand name
               (Monitoring.batch (LambdaCleanup.monitoring aliased)) t0].
Proof.
  destruct (forceSendMetrics_flushes cloudWatchUp t0 t0 None aliased)
    as (_ & _ & _ & Hflush).
  apply Hflush.
  - reflexivity.
  - vm_compute. discriminate.
Defined.

Lemma validateFilePath_accepted_witness :
  includes "etc/passwd.txt" ".." = false
  /\ Validation.endsWith "etc/passwd.txt" ".txt" = true
  /\ Validation.existsChar Validation.isDangerousPathChar "etc/passwd.txt" = false
  /\ nonEmpty "etc/passwd.txt" = true.
Proof.
  apply (validateFilePath_accepted
           (SecretsCache.JString "../../etc/passwd.txt") "etc/passwd.txt").
  vm_compute. reflexivity.
Defined.

Lemma validateCommitMessage_accepted_witness :
  (exists text,
      SecretsCache.JString "  Daily commit  " = SecretsCache.JString text
      /\ "Daily commit" = LambdaCleanup.trim text)
  /\ (1 <= Z.of_nat (String.length "Daily commit") <= 500)%Z
  /\ Validation.hasDangerousContent "Daily commit" = false
  /\ Validation.validateCommitMessage (SecretsCache.JString "Daily commit")
     = inl "Daily commit".
Proof.
  apply (validateCommitMessage_accepted
           (SecretsCache.JString "  Daily commit  ") "Daily commit").
  vm_compute. reflexivity.
Defined.

Lemma validateFileContent_sanitizes_witness :
  exists clean,
    Validation.validateFileContent (SecretsCache.JString contentWithControls)
    = inl clean
    /\ clean = Validation.filterChars
                 (fun c => negb (Validation.isControlChar c)) contentWithControls
    /\ Validation.existsChar Validation.isControlChar clean = false
    /\ (Validation.existsChar Validation.isControlChar contentWithControls = false ->
        clean = contentWithControls)
    /\ Validation.validateFileContent (SecretsCache.JString clean) = inl clean.
Proof.
  apply (validateFileContent_sanitizes contentWithControls).
  vm_compute. discriminate.
Defined.

Lemma validateSecretName_accepted_witness :
  (exists text,
      SecretsCache.JString " prod/daily-commit " = SecretsCache.JString text
      /\ "prod/daily-commit" = LambdaCleanup.trim text)
  /\ Validation.existsChar (fun c => negb (Validation.isSecretNameChar c))
       "prod/daily-commit" = false
  /\ (1 <= Z.of_nat (String.length "prod/daily-commit") <= 512)%Z
  /\ Validation.validateSecretName (SecretsCache.JString "prod/daily-commit")
     = inl "prod/daily-commit".
Proof.
  apply (validateSecretName_accepted
           (SecretsCache.JString " prod/daily-commit ") "prod/daily-commit").
  vm_compute. reflexivity.
Defined.

Lemma validateLambdaEvent_accepted_witness :
  (Validation.endsWith "notes/today.txt" ".txt" = true
   /\ includes "notes/today.txt" ".." = false
   /\ nonEmpty "daily-commit-secrets" = true
   /\ Validation.existsChar (fun c => negb (Validation.isSecretNameChar c))
        "daily-commit-secrets" = false)
  /\ Validation.validateLambdaEvent "2024-01-15T06:00:00.000Z" "1/15/2024"
       (SecretsCache.JObject [("newContent", SecretsCache.JString "")])
     = inl {| Validation.filePath := "daily-commit.txt";
              Validation.newContent := "Daily commit - 2024-01-15T06:00:00.000Z";
              Validation.commitMessage := "Daily commit - 1/15/2024";
              Validation.secretName := "daily-commit-secrets" |}.
Proof.
  destruct (validateLambdaEvent_accepted "2024-01-15T06:00:00.000Z" "1/15/2024")
    as [Hsafe Hdefaults].
  split.
  - apply (Hsafe partialEvent
             {| Validation.filePath := "notes/today.txt";
                Validation.newContent := "Daily commit - 2024-01-15T06:00:00.000Z";
                Validation.commitMessage := "Daily commit - 1/15/2024";
                Validation.secretName := "daily-commit-secrets" |}).
    vm_compute. reflexivity.
  - apply (Hdefaults [("newContent", SecretsCache.JString "")]); reflexivity.
Defined.

Lemma modifyTextFile_validated_witness :
  exists target,
    FileOperations.filePath
      (fst (FileOperations.modifyTextFile "notes.txt" "Daily commit" emptyDisk))
    = Some target
    /\ String.prefix "/tmp/" target = true
    /\ includes target ".." = false
    /\ FileOperations.files
         (snd (FileOperations.modifyTextFile "notes.txt" "Daily commit" emptyDisk))
       !! target = Some "Daily commit".
Proof.
  destruct (modifyTextFile_validated (SecretsCache.JString "//notes.txt")
              "notes.txt" "Daily commit" emptyDisk)
    as (target & Hpath & Htmp & Hclean & Hok & _).
  - vm_compute. reflexivity.
  - exists target. split; [exact Hpath |]. split; [exact Htmp |].
    split; [exact Hclean |].
    destruct Hok as (_ & _ & Hwritten & _); [reflexivity | exact Hwritten].
Defined.

Lemma checkRateLimit_window_quota_witness :
  fst (Validation.successiveCalls (t0 :: [t0 + 1; t0 + 2; t0 + 1000]%Z)
         "203.0.113.7" (Some 2%Z) (Some 1000%Z) ∅)
  = true :: map (fun k => (Z.of_nat k + 2 <=? 2)%Z)
                (seq 0 (length [t0 + 1; t0 + 2; t0 + 1000]%Z)).
Proof.
  apply (checkRateLimit_window_quota ∅ "203.0.113.7" 2 1000 t0
           [t0 + 1; t0 + 2; t0 + 1000]%Z).
  - reflexivity.
  - repeat constructor; lia.
Defined.

Lemma checkRateLimit_isolated_witness :
  snd (Validation.checkRateLimit t0 "203.0.113.7" (Some 5%Z) (Some 1000%Z)
         {[ "198.51.100.2" := {| Validation.count := 5;
                                 Validation.resetTime := t0 + 500 |} ]})
  !! "198.51.100.2"
  = Some {| Validation.count := 5; Validation.resetTime := t0 + 500 |}.
Proof.
  destruct (checkRateLimit_isolated
              {[ "198.51.100.2" := {| Validation.count := 5;
                                      Validation.resetTime := t0 + 500 |} ]}
              ∅ t0 "203.0.113.7" "198.51.100.2" (Some 5%Z) (Some 1000%Z))
    as [Hother _].
  rewrite Hother; [reflexivity | discriminate].
Defined.

Lemma performGitWorkflow_success_witness :
  exists pre branch,
    branch
    = (if LambdaCleanup.gitSucceeded
            (gitWorks (length (LambdaCleanup.executed warm ++ pre) + 3)
               "git branch --show-current")
       then LambdaCleanup.trim
              (LambdaCleanup.gitOutput
                 (gitWorks (length (LambdaCleanup.executed warm ++ pre) + 3)
                    "git branch --show-current"))
       else "main")
    /\ LambdaCleanup.executed
         (snd (GitNative.performGitWorkflow gitWorks "daily-commit.txt"
                 "Daily commit" gitConfig warm))
       = LambdaCleanup.executed warm ++ pre
         ++ [ "git add " +:+ GitNative.quoted "daily-commit.txt";
              "git commit -m "
                +:+ GitNative.quoted (GitNative.escapeQuotes "Daily commit");
              "git remote set-url origin "
                +:+ GitNative.quoted
                      (GitNative.replaceFirst (GitNative.repositoryUrl gitConfig)
                         "https://"
                         ("https://" +:+ GitNative.token gitConfig +:+ "@"));
              "git branch --show-current";
              "git push origin " +:+ branch ]
    /\ LambdaCleanup.gitSucceeded
         (gitWorks (length (LambdaCleanup.executed warm ++ pre))
            ("git add " +:+ GitNative.quoted "daily-commit.txt")) = true
    /\ LambdaCleanup.gitSucceeded
         (gitWorks (length (LambdaCleanup.executed warm ++ pre) + 1)
            ("git commit -m "
             +:+ GitNative.quoted (GitNative.escapeQuotes "Daily commit")))
       = true
    /\ LambdaCleanup.gitSucceeded
         (gitWorks (length (LambdaCleanup.executed warm ++ pre) + 4)
            ("git push origin " +:+ branch)) = true.
Proof.
  apply (performGitWorkflow_success gitWorks "daily-commit.txt" "Daily commit"
           gitConfig warm).
  vm_compute. reflexivity.
Defined.

Lemma initializeRepository_fallback_witness :
  exists attempted rest,
    attempted
    = (if LambdaCleanup.gitSucceeded
            (gitBroken (length (LambdaCleanup.executed warm))
               "git rev-parse --git-dir")
       then ["git rev-parse --git-dir"; "git pull origin"]
       else ["git rev-parse --git-dir"])
    /\ LambdaCleanup.executed
         (snd (GitNative.initializeRepository gitBroken
                 "https://github.com/test/repo.git" warm))
       = LambdaCleanup.executed warm ++ attempted
         ++ ["git clone "
             +:+ GitNative.quoted "https://github.com/test/repo.git" +:+ " ."]
         ++ rest
    /\ (LambdaCleanup.gitSucceeded
          (gitBroken (length (LambdaCleanup.executed warm ++ attempted))
             ("git clone "
              +:+ GitNative.quoted "https://github.com/test/repo.git" +:+ " ."))
        = false ->
        rest = []
        /\ exists e,
             fst (GitNative.initializeRepository gitBroken
                    "https://github.com/test/repo.git" warm) = inr e).
Proof.
  apply (initializeRepository_fallback gitBroken
           "https://github.com/test/repo.git" warm).
  vm_compute. reflexivity.
Defined.

Lemma validateLambdaEnvironment_valid_witness :
  (fst (LambdaCleanup.validateLambdaEnvironment 52428800 (12 # 1) (12 # 1)
          (LambdaCleanup.secrets warm)) = true
   <-> (52428800 <= 104857600)%Z
       /\ (size (SecretsCache.secretsCache (LambdaCleanup.secrets warm)) <= 10)%nat
       /\ (12 # 1 <= 300)%Q)
  /\ (fst (LambdaCleanup.validateLambdaEnvironment 52428800 (12 # 1) (12 # 1)
             (LambdaCleanup.secrets
                (snd (LambdaCleanup.cleanupLambdaState gitBroken warm)))) = true
      <-> (52428800 <= 104857600)%Z /\ (12 # 1 <= 300)%Q).
Proof.
  apply (validateLambdaEnvironment_valid gitBroken 52428800 (12 # 1) (12 # 1) warm).
  exact warm_allocated.
Defined.

Lemma aggregate_consistent_witness :
  Monitoring.totalExecutions
    (Monitoring.aggregate [failed 3000; succeeded 1000])
  = Monitoring.totalExecutions
      (Monitoring.aggregate [succeeded 1000; failed 3000])
  /\ Monitoring.successfulExecutions
       (Monitoring.aggregate [failed 3000; succeeded 1000])
     = Monitoring.successfulExecutions
         (Monitoring.aggregate [succeeded 1000; failed 3000])
  /\ Monitoring.failedExecutions
       (Monitoring.aggregate [failed 3000; succeeded 1000])
     = Monitoring.failedExecutions
         (Monitoring.aggregate [succeeded 1000; failed 3000]).
Proof.
  destruct (aggregate_consistent [succeeded 1000; failed 3000])
    as (_ & _ & _ & _ & Horder).
  apply Horder. apply perm_swap.
Defined.

Lemma validateEnvironment_valid_witness :
  fst (fst (Config.validateEnvironment
              {| Config.NODE_ENV := Some "test";
                 Config.SECRET_NAME := None;
                 Config.AWS_REGION := None;
                 Config.AWS_LAMBDA_FUNCTION_NAME := None;
                 Config.LOG_LEVEL := None |})) = true.
Proof.
  destruct (validateEnvironment_valid
              {| Config.NODE_ENV := Some "test";
                 Config.SECRET_NAME := None;
                 Config.AWS_REGION := None;
                 Config.AWS_LAMBDA_FUNCTION_NAME := None;
                 Config.LOG_LEVEL := None |}) as (_ & _ & Houtside).
  apply Houtside. reflexivity.
Defined.

End FurtherRuns.
